(** * github-backstage: classification, scoring, status aggregation and
      secure storage, embedded from the Python sources

    The development follows [backstage_automation.py] and
    [secure_storage.py].  The remote objects the scripts talk to (a PyGithub
    repository, its paginated lists, the organisation) are records whose
    fields are the attributes and calls the source uses; a call that can
    raise returns an [outcome].  Python [int] is [Z], [str] is [string]
    (bytes; [lower] folds the ASCII letters), [datetime] is a count of
    microseconds. *)

From Stdlib Require Import String Ascii List ZArith Lia Bool Permutation.
From Stdlib Require Import DecimalString.
Import ListNotations.
Local Open Scope string_scope.
Local Open Scope Z_scope.

(** ** Exceptions and fallible calls *)

(** The source only ever catches [Exception]; the two constructors keep
    apart what the remote API reports as "no such object" (HTTP 404) and
    every other failure of a call. [str_exn] is Python's [str(e)]. *)
Inductive Exception : Type :=
| NotFound (msg : string)
| Failure (msg : string).

Definition str_exn (e : Exception) : string :=
  match e with NotFound m => m | Failure m => m end.

Inductive outcome (A : Type) : Type :=
| Ret (a : A)
| Raise (e : Exception).
Arguments Ret {A} a.
Arguments Raise {A} e.

Definition bind {A B} (m : outcome A) (k : A -> outcome B) : outcome B :=
  match m with Ret a => k a | Raise e => Raise e end.

(** [try: m  except Exception as e: h e] *)
Definition try_except {A} (m : outcome A) (h : Exception -> A) : A :=
  match m with Ret a => a | Raise e => h e end.

Notation "x <- m ;; k" := (bind m (fun x => k))
  (at level 61, m at next level, right associativity).

(** ** Strings as the source uses them *)

(** [str.lower] on a character of ASCII text; a character outside ASCII is
    left as it is. *)
Definition lower_ascii (c : ascii) : ascii :=
  let n := nat_of_ascii c in
  if (Nat.leb 65 n && Nat.leb n 90)%bool then ascii_of_nat (n + 32) else c.

(** [s.lower()] *)
Fixpoint lower (s : string) : string :=
  match s with
  | EmptyString => EmptyString
  | String c rest => String (lower_ascii c) (lower rest)
  end.

(** [needle in hay] on strings *)
Fixpoint contains (needle hay : string) : bool :=
  if String.prefix needle hay then true
  else match hay with
       | EmptyString => false
       | String _ rest => contains needle rest
       end.

(** [s.endswith(suffix)] *)
Definition endswith (s suffix : string) : bool :=
  let n := String.length s in
  let m := String.length suffix in
  (Nat.leb m n && String.eqb (substring (n - m) m s) suffix)%bool.

(** [x in xs] on a list of strings *)
Definition mem (x : string) (xs : list string) : bool :=
  existsb (String.eqb x) xs.

(** [str(n)] for an integer *)
Definition str_int (n : Z) : string := NilZero.string_of_int (Z.to_int n).

Definition newline : string := String "010"%char EmptyString.

(** [sep.join(parts)] *)
Fixpoint join (sep : string) (parts : list string) : string :=
  match parts with
  | [] => EmptyString
  | [p] => p
  | p :: rest => p ++ sep ++ join sep rest
  end.

(** [xs.append(x)] *)
Definition append {A} (xs : list A) (x : A) : list A := (xs ++ [x])%list.

(** Truthiness of an attribute that is [None] or an object. *)
Definition is_set {A} (x : option A) : bool :=
  match x with Some _ => true | None => false end.

(** Truthiness of an attribute that is [None] or a string. *)
Definition nonempty (x : option string) : bool :=
  match x with
  | Some (String _ _) => true
  | _ => false
  end.

(** [x or default] for such an attribute *)
Definition or_else (x : option string) (default : string) : string :=
  match x with
  | Some (String c r) => String c r
  | _ => default
  end.

(** ** Time *)

Definition datetime : Type := Z.
Definition microseconds_per_day : Z := 86400000000.

(** [(a - b).days]: a [timedelta] is normalised with a non-negative
    remainder, so its [days] is the floor. *)
Definition days_between (a b : datetime) : Z := (a - b) / microseconds_per_day.

(** ** Remote objects *)

Record ContentFile : Type := {
  cf_name : string;
  cf_path : string;
  cf_type : string;
  (** [decoded_content.decode()] *)
  cf_decoded : outcome string
}.

(** [get_contents] answers with one file or with a directory listing. *)
Inductive Contents : Type :=
| File (f : ContentFile)
| Listing (entries : list ContentFile).

(** Python truthiness of what [get_contents] returned. *)
Definition truthy (c : Contents) : bool :=
  match c with
  | File _ => true
  | Listing [] => false
  | Listing (_ :: _) => true
  end.

(** A lazily fetched sequence: a page request may fail in the middle. *)
Inductive PageStream (A : Type) : Type :=
| Done
| Item (a : A) (rest : PageStream A)
| Broken (e : Exception).
Arguments Done {A}.
Arguments Item {A} a rest.
Arguments Broken {A} e.

Record PaginatedList (A : Type) : Type := {
  totalCount : outcome Z;
  (** the builtin [next] applied to the object *)
  next : outcome A;
  (** [for x in ...] *)
  iter : PageStream A
}.
Arguments totalCount {A} p.
Arguments next {A} p.
Arguments iter {A} p.

Record NamedUser : Type := { login : string }.
Record Team : Type := { team_name : string }.
Record PullRequest : Type := { number : Z; head_ref : string }.

Record Branch : Type := {
  (** truthiness of the object [get_protection()] returns *)
  get_protection : outcome bool
}.

Record Repository : Type := {
  name : string;
  html_url : string;
  description : option string;
  homepage : option string;
  topics : list string;
  archived : bool;
  created_at : datetime;
  pushed_at : option datetime;
  stargazers_count : Z;
  forks_count : Z;
  get_contents : string -> outcome Contents;
  get_branch : string -> outcome Branch;
  get_commits : outcome (PaginatedList unit);
  get_contributors : outcome (PaginatedList NamedUser);
  get_pulls : outcome (PaginatedList PullRequest)
}.

Record Organization : Type := {
  org_login : string;
  get_user_teams : NamedUser -> outcome (PaginatedList Team);
  (** the repositories [get_repos()] yields, its listing read to the end *)
  get_repos : list Repository
}.

Module BackstageAutomation.

Definition base_branch : string := "main".

(** *** [_determine_component_type] *)

(** [any(repo.get_contents(file) for file in files)]: the generator is
    consumed left to right, stops at the first truthy answer, and an
    exception of a call leaves the whole expression. *)
Fixpoint any_contents (repo : Repository) (files : list string) : outcome bool :=
  match files with
  | [] => Ret false
  | f :: rest =>
      c <- get_contents repo f ;;
      if truthy c then Ret true else any_contents repo rest
  end.

Definition service_files : list string :=
  ["Dockerfile"; "docker-compose.yml"; "k8s"; "kubernetes"].
Definition website_files : list string :=
  ["package.json"; "index.html"; "public/index.html"; "src/index.js"].
Definition library_files : list string :=
  ["setup.py"; "composer.json"; "go.mod"].

Definition _determine_component_type (repo : Repository) : string :=
  try_except
    (s <- any_contents repo service_files ;;
     if s then Ret "service"
     else
       w <- any_contents repo website_files ;;
       if w then Ret "website"
       else
         l <- any_contents repo library_files ;;
         if l then Ret "library" else Ret "service")
    (fun _ => "service").

(** *** [_determine_lifecycle] *)

Definition _determine_lifecycle (now : datetime) (repo : Repository) : string :=
  try_except
    (if archived repo then Ret "deprecated"
     else
       b <- get_branch repo base_branch ;;
       p <- get_protection b ;;
       if p then Ret "production"
       else
         let created_date := created_at repo in
         let last_push := pushed_at repo in
         commits <- get_commits repo ;;
         if days_between now created_date <? 90 then Ret "experimental"
         else
           n <- totalCount commits ;;
           if ((100 <? n) && is_set last_push)%bool
           then Ret "production"
           else Ret "development")
    (fun _ => "production").

(** *** [_determine_owner] *)

(** A character of the class [[\w-]] in ASCII text: a letter, a digit, the
    underscore or the hyphen. The pattern of the source is a [str]
    pattern, so in a text with letters or digits outside ASCII [\w] takes
    those too; the class below does not, and what is proved of it is
    proved of ASCII text. *)
Definition is_word_or_hyphen (c : ascii) : bool :=
  let n := nat_of_ascii c in
  ((Nat.leb 48 n && Nat.leb n 57) || (Nat.leb 65 n && Nat.leb n 90)
   || (Nat.leb 97 n && Nat.leb n 122) || Nat.eqb n 95 || Nat.eqb n 45)%bool.

(** The longest prefix made of [[\w-]] characters, and what follows it. *)
Fixpoint span_word (s : string) : string * string :=
  match s with
  | EmptyString => (EmptyString, EmptyString)
  | String c rest =>
      if is_word_or_hyphen c
      then let (w, r) := span_word rest in (String c w, r)
      else (EmptyString, s)
  end.

(** A match of [@[\w-]+/[\w-]+] anchored at the head of [s]. Neither
    ["/"] nor ["@"] is in the class, so the greedy runs never give a
    character back. *)
Definition match_team_here (s : string) : option string :=
  match s with
  | String "@" rest =>
      let (org, r1) := span_word rest in
      match org, r1 with
      | String _ _, String "/" r2 =>
          let (team, _) := span_word r2 in
          match team with
          | String _ _ => Some ("@" ++ org ++ "/" ++ team)
          | EmptyString => None
          end
      | _, _ => None
      end
  | _ => None
  end.

(** [re.findall(r'@[\w-]+/[\w-]+', s)]: the matches left to right, each
    search resuming after the previous match; [skip] counts the characters
    of the last match still to be passed over. *)
Fixpoint findall_teams_from (skip : nat) (s : string) : list string :=
  match s with
  | EmptyString => []
  | String _ rest =>
      match skip with
      | S k => findall_teams_from k rest
      | O =>
          match match_team_here s with
          | Some m => m :: findall_teams_from (String.length m - 1) rest
          | None => findall_teams_from 0 rest
          end
      end
  end.

Definition findall_teams (s : string) : list string := findall_teams_from 0 s.

(** [s.replace('@', '')] *)
Fixpoint remove_at (s : string) : string :=
  match s with
  | EmptyString => EmptyString
  | String c rest => if Ascii.eqb c "@" then remove_at rest else String c (remove_at rest)
  end.

(** [codeowners.decoded_content.decode()]; a directory listing is a Python
    list and has no such attribute. *)
Definition decoded_content (c : Contents) : outcome string :=
  match c with
  | File f => cf_decoded f
  | Listing _ => Raise (Failure "'list' object has no attribute 'decoded_content'")
  end.

(** The inner [try] around the CODEOWNERS lookup: [Some owner] when it
    returns from the function, [None] when control reaches the statement
    after it (no team, or the [except: pass]). *)
Definition codeowners_team (repo : Repository) : option string :=
  try_except
    (codeowners <- get_contents repo "CODEOWNERS" ;;
     if truthy codeowners then
       content <- decoded_content codeowners ;;
       match findall_teams content with
       | t :: _ => Ret (Some (remove_at t))
       | [] => Ret None
       end
     else Ret None)
    (fun _ => None).

(** The inner [try] around the team lookup of the top contributor:
    [Some owner] when it returns from the function, [None] when the [if]
    is not taken and control falls out of the [try]. *)
Definition contributor_team (org : Organization) (top_contributor : NamedUser)
  : option string :=
  try_except
    (teams <- get_user_teams org top_contributor ;;
     n <- totalCount teams ;;
     if 0 <? n then
       t <- next teams ;;
       Ret (Some (team_name t))
     else Ret None)
    (fun _ => Some ("user:" ++ login top_contributor)).

Definition _determine_owner (org : Organization) (repo : Repository) : string :=
  try_except
    (match codeowners_team repo with
     | Some owner => Ret owner
     | None =>
         contributors <- get_contributors repo ;;
         n <- totalCount contributors ;;
         if 0 <? n then
           top_contributor <- next contributors ;;
           match contributor_team org top_contributor with
           | Some owner => Ret owner
           | None => Ret "default-team"
           end
         else Ret "default-team"
     end)
    (fun _ => "default-team").

(** *** [generate_status_report] *)

(** The loop over [open_prs]: the first pull request whose branch name
    holds the marker ends the loop; a page that fails before one is found
    raises. *)
Fixpoint find_integration_pr (prs : PageStream PullRequest)
  : outcome (option PullRequest) :=
  match prs with
  | Done => Ret None
  | Item pr rest =>
      if contains "backstage-integration" (head_ref pr) then Ret (Some pr)
      else find_integration_pr rest
  | Broken e => Raise e
  end.

(** The local counters of one call. *)
Record Counters : Type := {
  total : Z;
  onboarded : Z;
  in_progress : Z;
  not_onboarded : Z
}.

Definition zero_counters : Counters :=
  {| total := 0; onboarded := 0; in_progress := 0; not_onboarded := 0 |}.

(** The loop state: the counters and [self.status_report]. *)
Definition ReportState : Type := (Counters * list string)%type.

(** One pass of the body of [for repo in repositories]. *)
Definition status_step (st : ReportState) (repo : Repository) : ReportState :=
  let (c, report) := st in
  let c := {| total := total c + 1; onboarded := onboarded c;
              in_progress := in_progress c; not_onboarded := not_onboarded c |} in
  match get_contents repo "catalog-info.yaml" with
  | Ret _ =>
      ({| total := total c; onboarded := onboarded c + 1;
          in_progress := in_progress c; not_onboarded := not_onboarded c |},
       append report ("✅ " ++ name repo ++ ": Onboarded"))
  | Raise _ =>
      match (open_prs <- get_pulls repo ;; find_integration_pr (iter open_prs)) with
      | Ret (Some pr) =>
          ({| total := total c; onboarded := onboarded c;
              in_progress := in_progress c + 1; not_onboarded := not_onboarded c |},
           append report ("🔄 " ++ name repo ++ ": In Progress (PR #"
                            ++ str_int (number pr) ++ ")"))
      | Ret None =>
          ({| total := total c; onboarded := onboarded c;
              in_progress := in_progress c; not_onboarded := not_onboarded c + 1 |},
           append report ("❌ " ++ name repo ++ ": Not Onboarded"))
      | Raise e =>
          (c, append report ("⚠️ " ++ name repo ++ ": Error - " ++ str_exn e))
      end
  end.

Definition status_loop (repositories : list Repository) (st : ReportState)
  : ReportState :=
  fold_left status_step repositories st.

(** The head of the list [summary]; [stamp] is the formatted
    [datetime.now()]. *)
Definition summary_head (stamp : string) (c : Counters) : list string :=
  [ "## Status Summary (" ++ stamp ++ ")";
    "- Total Repositories: " ++ str_int (total c);
    "- ✅ Onboarded: " ++ str_int (onboarded c);
    "- 🔄 In Progress: " ++ str_int (in_progress c);
    "- ❌ Not Onboarded: " ++ str_int (not_onboarded c);
    "";
    "## Repository Details:" ].

(** The list [summary]: the head, then [*self.status_report]. *)
Definition summary_lines (stamp : string) (st : ReportState) : list string :=
  app (summary_head stamp (fst st)) (snd st).

(** [generate_status_report]: the text it returns and the value
    [self.status_report] holds afterwards, from the value it held before. *)
Definition generate_status_report (org : Organization) (stamp : string)
  (self_status_report : list string) : string * list string :=
  let st := status_loop (get_repos org) (zero_counters, self_status_report) in
  (join newline (summary_lines stamp st), snd st).

(** The counters as they stand when the summary is written. *)
Definition status_counts (org : Organization) (self_status_report : list string)
  : Counters :=
  fst (status_loop (get_repos org) (zero_counters, self_status_report)).

(** *** [analyze_repository_priority] *)

(** The pair of locals [score] and [reasons]. *)
Definition Tally : Type := (Z * list string)%type.

(** [if cond: score += points; reasons.append(reason)] *)
Definition award (cond : bool) (points : Z) (reason : string) (t : Tally) : Tally :=
  if cond then (fst t + points, append (snd t) reason) else t.

Definition dev_files : list string :=
  ["README.md"; "API.md"; "docs"; "api"; "swagger.yml"; "openapi.yml"].
Definition api_keywords : list string :=
  ["api"; "sdk"; "library"; "client"; "developer"; "toolkit"].

(** [[f.name for f in contents]]; a single file is not iterable. *)
Definition file_names (c : Contents) : outcome (list string) :=
  match c with
  | Listing entries => Ret (map cf_name entries)
  | File _ => Raise (Failure "'ContentFile' object is not iterable")
  end.

(** [[f for f in files if any(df.lower() in f.lower() for df in dev_files)]] *)
Definition doc_matches (files : list string) : list string :=
  filter (fun f => existsb (fun df => contains (lower df) (lower f)) dev_files) files.

(** [repo.description and any(k in repo.description.lower() for k in api_keywords)] *)
Definition description_has_keyword (repo : Repository) : bool :=
  match description repo with
  | Some (String c r) => existsb (fun k => contains k (lower (String c r))) api_keywords
  | _ => false
  end.

(** [repo.topics and any(k in t.lower() for t in repo.topics for k in api_keywords)] *)
Definition topics_have_keyword (repo : Repository) : bool :=
  existsb (fun t => existsb (fun k => contains k (lower t)) api_keywords) (topics repo).

Definition is_nil {A} (l : list A) : bool :=
  match l with [] => true | _ :: _ => false end.

(** The [try] block of the developer-facing indicators: once the listing
    is in hand nothing in it raises; a failed listing skips all three
    awards. *)
Definition developer_indicators (repo : Repository) (t : Tally) : Tally :=
  try_except
    (c <- get_contents repo "" ;;
     files <- file_names c ;;
     let t := award (negb (is_nil (doc_matches files))) 30
                "Has developer documentation" t in
     let t := award (description_has_keyword repo) 20
                "API/SDK-related description" t in
     let t := award (topics_have_keyword repo) 20
                "API/SDK-related topics" t in
     Ret t)
    (fun _ => t).

Record Analysis : Type := {
  a_name : string;
  a_score : Z;
  a_reasons : list string;
  a_url : string;
  a_description : string;
  a_updated_at : datetime;
  a_stars : Z;
  a_forks : Z
}.

Definition len {A} (l : list A) : Z := Z.of_nat (List.length l).

(** Subtracting [None] from a [datetime] is a [TypeError]. *)
Definition the_datetime (x : option datetime) : outcome datetime :=
  match x with
  | Some t => Ret t
  | None => Raise (Failure "unsupported operand type(s) for -: 'datetime.datetime' and 'NoneType'")
  end.

Definition analyze_repository_priority (now : datetime) (repo : Repository)
  : outcome Analysis :=
  let t : Tally := (0, []) in
  pushed <- the_datetime (pushed_at repo) ;;
  let t := award (days_between now pushed <=? 30) 30 "Recently active" t in
  let t := award (180 <=? days_between now (created_at repo)) 20
             "Established project" t in
  let t := award (0 <? stargazers_count repo)
             (Z.min (stargazers_count repo * 2) 50)
             ("Has " ++ str_int (stargazers_count repo) ++ " stars") t in
  let t := award (0 <? forks_count repo)
             (Z.min (forks_count repo * 5) 50)
             ("Has " ++ str_int (forks_count repo) ++ " forks") t in
  let t := developer_indicators repo t in
  let t := award (nonempty (description repo)) 10 "Has description" t in
  let t := award (nonempty (homepage repo)) 10 "Has homepage URL" t in
  let t := award (negb (is_nil (topics repo)))
             (Z.min (len (topics repo) * 5) 20)
             ("Has " ++ str_int (len (topics repo)) ++ " topics") t in
  Ret {| a_name := name repo;
         a_score := fst t;
         a_reasons := snd t;
         a_url := html_url repo;
         a_description := or_else (description repo) "";
         a_updated_at := pushed;
         a_stars := stargazers_count repo;
         a_forks := forks_count repo |}.

(** *** [generate_priority_report] *)

(** The body of [for repo in repositories]: a repository whose descriptor
    lookup returns is passed over ([continue]) before anything else; an
    analysis that raises is reported on the console and leaves the list as
    it is. *)
Definition priority_step (now : datetime) (analysis_results : list Analysis)
  (repo : Repository) : list Analysis :=
  match get_contents repo "catalog-info.yaml" with
  | Ret _ => analysis_results
  | Raise _ =>
      match analyze_repository_priority now repo with
      | Ret result =>
          if 30 <? a_score result then append analysis_results result
          else analysis_results
      | Raise _ => analysis_results
      end
  end.

(** Insertion of [x], which stood before every element of [sorted] in the
    list being sorted, keeping scores descending and equal scores in their
    first order. *)
Fixpoint insert_desc (x : Analysis) (sorted : list Analysis) : list Analysis :=
  match sorted with
  | [] => [x]
  | y :: rest =>
      if a_score y <=? a_score x then x :: y :: rest
      else y :: insert_desc x rest
  end.

(** [analysis_results.sort(key=lambda x: x["score"], reverse=True)]: a
    stable sort on descending score. *)
Definition sort_by_score_desc (l : list Analysis) : list Analysis :=
  fold_right insert_desc [] l.

(** [analysis_results] as the loop leaves it. *)
Definition analysis_loop (now : datetime) (repositories : list Repository)
  : list Analysis :=
  fold_left (priority_step now) repositories [].

(** [analysis_results[:10]] after the loop and the sort: the entries the
    report is written from. *)
Definition priority_entries (now : datetime) (org : Organization) : list Analysis :=
  firstn 10 (sort_by_score_desc (analysis_loop now (get_repos org))).

(** The lines one entry adds to [report_lines]; [isoformat] renders
    a [datetime]. *)
Definition entry_lines (isoformat : datetime -> string) (idx : Z) (result : Analysis)
  : list string :=
  [ "### " ++ str_int idx ++ ". " ++ a_name result
      ++ " (Score: " ++ str_int (a_score result) ++ ")";
    "- URL: " ++ a_url result;
    "- Description: " ++ a_description result;
    "- Last Updated: " ++ isoformat (a_updated_at result);
    "- Stars: " ++ str_int (a_stars result) ++ ", Forks: " ++ str_int (a_forks result);
    newline ++ "Recommendation reasons:";
    join "" (map (fun reason => newline ++ "- " ++ reason) (a_reasons result));
    newline ].

(** [enumerate(entries, 1)] folded into the lines. *)
Fixpoint entries_lines (isoformat : datetime -> string) (idx : Z)
  (entries : list Analysis) : list string :=
  match entries with
  | [] => []
  | result :: rest =>
      app (entry_lines isoformat idx result) (entries_lines isoformat (idx + 1) rest)
  end.

Definition generate_priority_report (isoformat : datetime -> string)
  (stamp : string) (now : datetime) (org : Organization) : string :=
  join newline
    (app [ "# Backstage Integration Priority Report";
           newline ++ "Generated on: " ++ stamp;
           newline ++ "## Top Candidates for Backstage Integration" ++ newline ]
         (entries_lines isoformat 1 (priority_entries now org))).

(** *** [_detect_api_specs] and [_determine_api_type] *)

Record ApiSpec : Type := {
  spec_path : string;
  spec_type : string;
  spec_content : string
}.

Definition spec_patterns : list string :=
  [ "openapi.yaml"; "openapi.yml"; "openapi.json";
    "swagger.yaml"; "swagger.yml"; "swagger.json";
    "asyncapi.yaml"; "asyncapi.yml"; "asyncapi.json";
    "graphql.schema"; "schema.graphql" ].

Definition _determine_api_type (filename : string) : string :=
  let filename := lower filename in
  if (contains "openapi" filename || contains "swagger" filename)%bool then "openapi"
  else if contains "asyncapi" filename then "asyncapi"
  else if contains "graphql" filename then "graphql"
  else "openapi".

(** [any(c.name.lower().endswith(pat) for pat in spec_patterns)] *)
Definition is_spec_file (c : ContentFile) : bool :=
  existsb (fun pat => endswith (lower (cf_name c)) pat) spec_patterns.

(** The dictionary handed to [api_specs.append]: it is built, decoding the
    content, before the list is touched. *)
Definition spec_entry (c : ContentFile) : outcome ApiSpec :=
  content <- cf_decoded c ;;
  Ret {| spec_path := cf_path c;
         spec_type := _determine_api_type (cf_name c);
         spec_content := content |}.

(** [for x in contents]: a listing is iterated, a single file is not
    iterable. *)
Definition entries (c : Contents) : outcome (list ContentFile) :=
  match c with
  | Listing l => Ret l
  | File _ => Raise (Failure "'ContentFile' object is not iterable")
  end.

(** A loop over files that appends to [api_specs] and stops at the first
    exception: the list as the loop leaves it, and the exception if one
    ended it. *)
Fixpoint scan_subcontents (subcontents : list ContentFile) (api_specs : list ApiSpec)
  : list ApiSpec * option Exception :=
  match subcontents with
  | [] => (api_specs, None)
  | subcontent :: rest =>
      if is_spec_file subcontent then
        match spec_entry subcontent with
        | Ret entry => scan_subcontents rest (append api_specs entry)
        | Raise e => (api_specs, Some e)
        end
      else scan_subcontents rest api_specs
  end.

(** The inner [try ... except Exception: continue] on a directory entry:
    whatever happens, the outer loop goes on with the list as it stands. *)
Definition scan_directory (repo : Repository) (content : ContentFile)
  (api_specs : list ApiSpec) : list ApiSpec :=
  if mem (lower (cf_name content)) ["docs"; "api"; "specs"] then
    match (c <- get_contents repo (cf_path content) ;; entries c) with
    | Ret subcontents => fst (scan_subcontents subcontents api_specs)
    | Raise _ => api_specs
    end
  else api_specs.

(** The outer loop [for content in contents]. *)
Fixpoint scan_contents (repo : Repository) (contents : list ContentFile)
  (api_specs : list ApiSpec) : list ApiSpec * option Exception :=
  match contents with
  | [] => (api_specs, None)
  | content :: rest =>
      if String.eqb (cf_type content) "dir" then
        scan_contents repo rest (scan_directory repo content api_specs)
      else if is_spec_file content then
        match spec_entry content with
        | Ret entry => scan_contents repo rest (append api_specs entry)
        | Raise e => (api_specs, Some e)
        end
      else scan_contents repo rest api_specs
  end.

(** The outer [except] prints and falls through to [return api_specs]. *)
Definition _detect_api_specs (repo : Repository) : list ApiSpec :=
  match (c <- get_contents repo "" ;; entries c) with
  | Ret contents => fst (scan_contents repo contents [])
  | Raise _ => []
  end.

End BackstageAutomation.

(** ** Python values and JSON documents

    [save_org_config] hands the configuration to [json.dumps] and
    [load_org_config] reads it back with [json.loads].  The values below
    are the fragment of Python data that [json.dumps] accepts without
    floating point: a dictionary is its items in insertion order, with
    pairwise different keys ([well_formed]). *)

Inductive PyKey : Type :=
| KStr (s : string)
| KInt (n : Z).

#[local] Unset Elimination Schemes.

Inductive PyVal : Type :=
| PNone
| PBool (b : bool)
| PInt (n : Z)
| PStr (s : string)
| PList (items : list PyVal)
| PDict (items : list (PyKey * PyVal)).

Inductive Json : Type :=
| JNull
| JBool (b : bool)
| JNumber (n : Z)
| JString (s : string)
| JArray (elements : list Json)
| JObject (members : list (string * Json)).

#[local] Set Elimination Schemes.

Definition PyKey_eqb (a b : PyKey) : bool :=
  match a, b with
  | KStr s, KStr t => String.eqb s t
  | KInt n, KInt m => Z.eqb n m
  | _, _ => false
  end.

(** The name a key gets in a JSON object: a string stays, an integer is
    written in decimal. *)
Definition key_name (k : PyKey) : string :=
  match k with
  | KStr s => s
  | KInt n => str_int n
  end.

(** The document [json.dumps] writes for a value. *)
Fixpoint to_json (v : PyVal) : Json :=
  match v with
  | PNone => JNull
  | PBool b => JBool b
  | PInt n => JNumber n
  | PStr s => JString s
  | PList items => JArray (map to_json items)
  | PDict items =>
      JObject (map (fun kv : PyKey * PyVal => let (k, x) := kv in (key_name k, to_json x))
                 items)
  end.

(** [d[k] = v] on the items of a dictionary: a key already there keeps its
    place and takes the new value. *)
Fixpoint dict_set (items : list (PyKey * PyVal)) (k : PyKey) (v : PyVal)
  : list (PyKey * PyVal) :=
  match items with
  | [] => [(k, v)]
  | (k', v') :: rest =>
      if PyKey_eqb k' k then (k', v) :: rest else (k', v') :: dict_set rest k v
  end.

(** The dictionary built from the members of an object, read left to
    right. *)
Definition dict_of (members : list (PyKey * PyVal)) : list (PyKey * PyVal) :=
  fold_left (fun d kv => dict_set d (fst kv) (snd kv)) members [].

(** The value [json.loads] builds from a document. *)
Fixpoint of_json (j : Json) : PyVal :=
  match j with
  | JNull => PNone
  | JBool b => PBool b
  | JNumber n => PInt n
  | JString s => PStr s
  | JArray elements => PList (map of_json elements)
  | JObject members =>
      PDict (dict_of (map (fun kj : string * Json => let (k, x) := kj in (KStr k, of_json x))
                        members))
  end.





Definition is_dict (v : PyVal) : bool :=
  match v with PDict _ => true | _ => false end.

(** ** The libraries behind [SecureStorage]

    [cryptography.fernet.Fernet] and the text layer of [json] are not part
    of the repository: they enter as an interface.  [Text] is what
    [json.dumps] returns and [Fernet.encrypt] is given, [Token] is what is
    written to the file.  A token depends on the time and on fresh random
    bytes, the [Nonce]. *)
Class Libraries : Type := {
  Text : Type;
  Token : Type;
  Nonce : Type;
  json_write : Json -> Text;
  json_read : Text -> outcome Json;
  fernet_encrypt : Nonce -> Text -> Token;
  fernet_decrypt : Token -> outcome Text
}.

(** What their documentation promises: a token decrypts, under the key it
    was made with, to the text it was made from, and a document written
    by [json] is read back as it was. *)
Class Lawful (L : Libraries) : Prop := {
  fernet_inverse : forall (n : Nonce) (t : Text), fernet_decrypt (fernet_encrypt n t) = Ret t;
  json_inverse : forall (j : Json), json_read (json_write j) = Ret j
}.

Module SecureStorage.

Section WithLibraries.

Context {L : Libraries}.

(** The files of the machine by path; a later entry for a path is
    shadowed by an earlier one. Every path can be written. *)
Definition FileSystem : Type := list (string * Token).

(** [os.path.exists(path)] and the content read from it *)
Fixpoint read_file (fs : FileSystem) (path : string) : option Token :=
  match fs with
  | [] => None
  | (p, data) :: rest => if String.eqb p path then Some data else read_file rest path
  end.

(** [open(path, "wb").write(data)] *)
Definition write_file (fs : FileSystem) (path : string) (data : Token) : FileSystem :=
  (path, data) :: fs.

(** [os.path.join(a, b)] on POSIX: an absolute second part stands
    alone. *)
Definition path_join (a b : string) : string :=
  if String.prefix "/" b then b
  else if (String.eqb a "" || endswith a "/")%bool then a ++ b
  else a ++ "/" ++ b.

(** [os.path.join(self.storage_path, f"{org_name}.enc")] *)
Definition file_path (storage_path org_name : string) : string :=
  path_join storage_path (org_name ++ ".enc").

(** [self.encrypt(data)] *)
Definition encrypt (nonce : Nonce) (data : Text) : Token :=
  fernet_encrypt nonce data.

(** [self.decrypt(encrypted_data)] *)
Definition decrypt (encrypted_data : Token) : outcome Text :=
  fernet_decrypt encrypted_data.

(** [json.dumps(config)] *)
Definition json_dumps (config : PyVal) : Text := json_write (to_json config).

(** [json.loads(text)] *)
Definition json_loads (text : Text) : outcome PyVal :=
  j <- json_read text ;; Ret (of_json j).

Definition save_org_config (storage_path : string) (nonce : Nonce)
  (fs : FileSystem) (org_name : string) (config : PyVal) : FileSystem :=
  let encrypted_data := encrypt nonce (json_dumps config) in
  let file_path := file_path storage_path org_name in
  write_file fs file_path encrypted_data.

(** [None] is Python's [None]. *)
Definition load_org_config (storage_path : string) (fs : FileSystem)
  (org_name : string) : outcome (option PyVal) :=
  let file_path := file_path storage_path org_name in
  match read_file fs file_path with
  | None => Ret None
  | Some encrypted_data =>
      text <- decrypt encrypted_data ;;
      config <- json_loads text ;;
      Ret (Some config)
  end.

End WithLibraries.

End SecureStorage.

(** ** Calls that change something outside the program

    The remaining operations write: to the repository, to the catalog's
    HTTP endpoint, to local files.  A write is recorded, in the order the
    program issues it, in a log; what the outside answers is a field of
    the handle the call is made on.  An exception leaves the log as it
    stands: nothing the source does undoes a call. *)

Inductive Call : Type :=
| CreateGitRef (ref sha : string)
| CreateFile (path message content branch : string)
| CreatePull (title body head base : string)
| CreateIssue (title body : string) (labels : list string)
| RemoveProtection (branch : string)
| MergePull (pr_number : Z) (merge_method commit_title commit_message : string)
| EditProtection (branch : string) (strict enforce_admins dismiss_stale_reviews
                  require_code_owner_reviews : bool)
                 (contexts dismissal_users dismissal_teams : list string)
| HttpPost (url data : string) (headers : list (string * string)) (timeout : Z)
| WriteTextFile (path content : string).

(** A computation that reads, writes and may raise. *)
Definition Eff (A : Type) : Type := list Call -> outcome A * list Call.

Definition ret {A} (a : A) : Eff A := fun log => (Ret a, log).

Definition throw {A} (e : Exception) : Eff A := fun log => (Raise e, log).

(** A read: its answer, nothing recorded. *)
Definition lift {A} (answer : outcome A) : Eff A := fun log => (answer, log).

(** A write: recorded, then its answer. *)
Definition call {A} (c : Call) (answer : outcome A) : Eff A :=
  fun log => (answer, (log ++ [c])%list).

Definition bindE {A B} (m : Eff A) (k : A -> Eff B) : Eff B :=
  fun log =>
    match m log with
    | (Ret a, log') => k a log'
    | (Raise e, log') => (Raise e, log')
    end.

(** [try: m  except Exception as e: h e] *)
Definition try_exceptE {A} (m : Eff A) (h : Exception -> Eff A) : Eff A :=
  fun log =>
    match m log with
    | (Ret a, log') => (Ret a, log')
    | (Raise e, log') => h e log'
    end.

Notation "x <~ m ;; k" := (bindE m (fun x => k))
  (at level 61, m at next level, right associativity).

(** The run of a computation from an empty log. *)
Definition run {A} (m : Eff A) : outcome A * list Call := m [].

(** ** Handles that can be written to *)

Record Issue : Type := { issue_number : Z }.

Record MergeStatus : Type := { merged : bool }.

(** A pull request as [get_pull] hands it out. *)
Record PullHandle : Type := {
  base_ref : string;
  (** [pr.merge(merge_method, commit_title, commit_message)] *)
  merge : string -> string -> string -> outcome MergeStatus
}.

(** A repository object with the attributes and the writing calls the
    operations below use, on top of those read so far. *)
Record RemoteRepository : Type := {
  repo :> Repository;
  language : option string;
  private : bool;
  updated_at : datetime;
  (** [branch.commit.sha] *)
  commit_sha : Branch -> string;
  create_git_ref : string -> string -> outcome unit;
  create_file : string -> string -> string -> string -> outcome unit;
  create_pull : string -> string -> string -> string -> outcome PullRequest;
  create_issue : string -> string -> list string -> outcome Issue;
  get_pull : Z -> outcome PullHandle;
  (** [repo.get_branch(branch)] asked again in the same run, for the
      [n]-th time after the first: nothing makes the answers agree, the
      branch or the connection may have gone in between *)
  get_branch_again : nat -> string -> outcome Branch;
  (** [repo.get_branch(branch).remove_protection()], once the branch is
      in hand *)
  remove_protection : string -> outcome unit;
  (** [repo.get_branch(branch).edit_protection(...)], once the branch is in
      hand *)
  edit_protection : string -> outcome unit
}.

(** What a listing yields before it ends or a page of it fails. *)
Fixpoint yielded {A} (s : PageStream A) : list A :=
  match s with
  | Done => []
  | Item a rest => a :: yielded rest
  | Broken _ => []
  end.

(** The exception of the page that fails, when one does. *)
Fixpoint broken {A} (s : PageStream A) : option Exception :=
  match s with
  | Done => None
  | Item _ rest => broken rest
  | Broken e => Some e
  end.

(** The listing that yields [l] and ends. *)
Fixpoint pages {A} (l : list A) : PageStream A :=
  match l with
  | [] => Done
  | a :: rest => Item a (pages rest)
  end.

(** [self.org] with [get_repo]; [handle_listing] is what iterating
    [org.get_repos()] meets, page after page. *)
Record OrganizationHandle : Type := {
  handle_login : string;
  handle_user_teams : NamedUser -> outcome (PaginatedList Team);
  handle_listing : PageStream RemoteRepository;
  get_repo : string -> outcome RemoteRepository
}.

(** The repositories the listing yields. A loop over [org.get_repos()]
    sees these, then ends or meets the exception of the failed page. *)
Definition handle_repos (h : OrganizationHandle) : list RemoteRepository :=
  yielded (handle_listing h).

(** The handle as the reading operations see it. *)
Definition organization (h : OrganizationHandle) : Organization :=
  {| org_login := handle_login h;
     get_user_teams := handle_user_teams h;
     get_repos := map repo (handle_repos h) |}.

(** [os.environ] *)
Definition Environment : Type := string -> option string.

(** [env.get(key, default)] *)
Definition env_get (env : Environment) (key default : string) : string :=
  match env key with Some v => v | None => default end.

Module Operations.

Import BackstageAutomation.

Section WithYaml.

(** [yaml.dump] *)
Variable yaml_dump : PyVal -> string.

(** *** [create_catalog_info] *)

(** The list [tags]. *)
Definition catalog_tags (r : RemoteRepository) : list string :=
  let tags := [] in
  let tags := match language r with
              | Some (String c l) => append tags (lower (String c l))
              | _ => tags
              end in
  if is_nil (topics r) then tags else app tags (topics r).

(** The dictionary [catalog_content]. *)
Definition catalog_content (now : datetime) (h : OrganizationHandle)
  (r : RemoteRepository) (repo_name component_name : string) : PyVal :=
  let description :=
    or_else (description r) ("Auto-generated component for " ++ repo_name) in
  let component_type := _determine_component_type r in
  let lifecycle := _determine_lifecycle now r in
  let owner := _determine_owner (organization h) r in
  let tags := catalog_tags r in
  PDict
    [ (KStr "apiVersion", PStr "backstage.io/v1alpha1");
      (KStr "kind", PStr "Component");
      (KStr "metadata",
       PDict
         [ (KStr "name", PStr component_name);
           (KStr "description", PStr description);
           (KStr "annotations",
            PDict
              [ (KStr "github.com/project-slug",
                 PStr (handle_login h ++ "/" ++ repo_name));
                (KStr "github.com/project-visibility",
                 PStr (if negb (private r) then "public" else "private")) ]);
           (KStr "tags", PList (map PStr tags)) ]);
      (KStr "spec",
       PDict
         [ (KStr "type", PStr component_type);
           (KStr "lifecycle", PStr lifecycle);
           (KStr "owner", PStr owner);
           (KStr "system",
            PStr (match topics r with
                  | t :: _ => t
                  | [] => "default-system"
                  end)) ]) ].

Definition create_catalog_info (now : datetime) (h : OrganizationHandle)
  (repo_name component_name : string) : outcome string :=
  r <- get_repo h repo_name ;;
  Ret (yaml_dump (catalog_content now h r repo_name component_name)).

(** *** [create_api_entity] *)

(** The dictionary [api_content]. *)
Definition api_content (h : OrganizationHandle) (repo_name : string)
  (api_spec : ApiSpec) : PyVal :=
  PDict
    [ (KStr "apiVersion", PStr "backstage.io/v1alpha1");
      (KStr "kind", PStr "API");
      (KStr "metadata",
       PDict
         [ (KStr "name", PStr (repo_name ++ "-api"));
           (KStr "description", PStr ("API for " ++ repo_name));
           (KStr "annotations",
            PDict
              [ (KStr "github.com/project-slug",
                 PStr (handle_login h ++ "/" ++ repo_name));
                (KStr "backstage.io/source-location",
                 PStr ("url:https://github.com/" ++ handle_login h ++ "/" ++ repo_name
                         ++ "/blob/main/" ++ spec_path api_spec)) ]) ]);
      (KStr "spec",
       PDict
         [ (KStr "type", PStr (spec_type api_spec));
           (KStr "lifecycle", PStr "production");
           (KStr "owner", PStr "default-team");
           (KStr "definition", PStr (spec_content api_spec)) ]) ].

Definition create_api_entity (h : OrganizationHandle) (repo_name : string)
  (api_spec : ApiSpec) : string :=
  yaml_dump (api_content h repo_name api_spec).

(** *** [create_catalog_entities] *)

Definition create_catalog_entities (now : datetime) (h : OrganizationHandle)
  (repo_name component_name : string) : outcome (list string) :=
  repo <- get_repo h repo_name ;;
  let entities := [] in
  component_yaml <- create_catalog_info now h repo_name component_name ;;
  let entities := append entities component_yaml in
  let api_specs := _detect_api_specs repo in
  Ret (fold_left (fun entities api_spec =>
                    append entities (create_api_entity h repo_name api_spec))
         api_specs entities).

(** *** [create_pr_and_issue] *)

Definition workflow_content : string :=
"name: Publish to Backstage

on:
  push:
    branches:
      - main
    paths:
      - 'catalog-info.yaml'
  workflow_dispatch:

jobs:
  publish:
    uses: ${{ github.repository_owner }}/backstage-github/.github/workflows/publish-backstage-reusable.yml@main
    with:
      repository: ${{ github.event.repository.name }}
    secrets:
      AUTOMATION_TOKEN: ${{ secrets.AUTOMATION_TOKEN }}
      BACKSTAGE_URL: ${{ secrets.BACKSTAGE_URL }}
      GITHUB_API_URL: ${{ secrets.GITHUB_API_URL }}
".

Definition pr_body : string :=
"This PR adds Backstage integration:

1. Adds `catalog-info.yaml` containing:
   - Component registration
   - API entities (if OpenAPI/AsyncAPI/GraphQL specs are found)
2. Adds GitHub Actions workflow to automatically publish updates to Backstage

After merging this PR:
- The component and APIs will be automatically registered in Backstage
- API documentation will be available in Backstage (if API specs exist)
- Future updates to `catalog-info.yaml` will be automatically published
- You can manually trigger publishing using the Actions tab

Required setup:
1. Add `BACKSTAGE_URL` secret in repository settings
2. Ensure GitHub Actions has necessary permissions

Note: API entities are automatically generated from:
- OpenAPI/Swagger specifications
- AsyncAPI specifications
- GraphQL schemas".

Definition issue_body (pr_number : Z) : string :=
"Please review and merge PR #" ++ str_int pr_number ++ " for Backstage integration.

This PR adds:
1. Backstage component registration file (catalog-info.yaml)
2. Automated publishing workflow

Required actions:
1. Review the changes in PR #" ++ str_int pr_number ++ "
2. Add the `BACKSTAGE_URL` secret in repository settings
3. To force merge this PR (this will override branch protection):
   Add a comment with `/force-merge`

Note: Force merge should only be used after proper review and secret configuration.".

(** [f"backstage-integration-{int(time.time())}"] *)
Definition integration_branch (time : Z) : string :=
  "backstage-integration-" ++ str_int time.

(** The block that makes sure [.github/workflows] is there. *)
Definition ensure_workflows_directory (repo : RemoteRepository) (branch_name : string)
  : Eff unit :=
  try_exceptE
    (_ <~ lift (get_contents repo ".github/workflows") ;; ret tt)
    (fun _ =>
       _ <~ try_exceptE
              (_ <~ lift (get_contents repo ".github") ;; ret tt)
              (fun _ =>
                 call (CreateFile ".github/README.md" "Add .github directory"
                         "GitHub configuration files" branch_name)
                   (create_file repo ".github/README.md" "Add .github directory"
                      "GitHub configuration files" branch_name)) ;;
       call (CreateFile ".github/workflows/README.md" "Add workflows directory"
               "GitHub Actions workflow files" branch_name)
         (create_file repo ".github/workflows/README.md" "Add workflows directory"
            "GitHub Actions workflow files" branch_name)).

(** [time] is what [time.time()] reads, [now] what [datetime.now()] reads
    in the classification. *)
Definition create_pr_and_issue (time : Z) (now : datetime) (h : OrganizationHandle)
  (repo_name : string) : Eff (PullRequest * Issue) :=
  repo <~ lift (get_repo h repo_name) ;;
  let branch_name := integration_branch time in
  source <~ lift (get_branch repo base_branch) ;;
  _ <~ call (CreateGitRef ("refs/heads/" ++ branch_name) (commit_sha repo source))
         (create_git_ref repo ("refs/heads/" ++ branch_name) (commit_sha repo source)) ;;
  entities <~ lift (create_catalog_entities now h repo_name repo_name) ;;
  let combined_content := join (newline ++ "---" ++ newline) entities in
  _ <~ call (CreateFile "catalog-info.yaml" "Add Backstage catalog entities"
               combined_content branch_name)
         (create_file repo "catalog-info.yaml" "Add Backstage catalog entities"
            combined_content branch_name) ;;
  _ <~ ensure_workflows_directory repo branch_name ;;
  _ <~ call (CreateFile ".github/workflows/publish-backstage.yml"
               "Add Backstage publish workflow" workflow_content branch_name)
         (create_file repo ".github/workflows/publish-backstage.yml"
            "Add Backstage publish workflow" workflow_content branch_name) ;;
  pr <~ call (CreatePull "Add Backstage Integration" pr_body branch_name base_branch)
          (create_pull repo "Add Backstage Integration" pr_body branch_name base_branch) ;;
  issue <~ call (CreateIssue "Review and Merge Backstage Integration"
                   (issue_body (number pr)) ["backstage-integration"])
             (create_issue repo "Review and Merge Backstage Integration"
                (issue_body (number pr)) ["backstage-integration"]) ;;
  ret (pr, issue).

End WithYaml.

(** *** [force_merge_pr] *)

(** The inner [try] that reads the protection, with the first
    [repo.get_branch(branch)] of the run: its truthiness, [false] for the
    [None] the variable starts with. *)
Definition current_protection (repo : RemoteRepository) (branch : string) : Eff bool :=
  try_exceptE
    (b <~ lift (get_branch repo branch) ;; lift (get_protection b))
    (fun _ => ret false).

Definition force_merge_pr (h : OrganizationHandle) (repo_name : string) (pr_number : Z)
  : Eff bool :=
  repo <~ lift (get_repo h repo_name) ;;
  pr <~ lift (get_pull repo pr_number) ;;
  let branch := base_ref pr in
  try_exceptE
    (protection <~ current_protection repo branch ;;
     _ <~ (if protection
           then _ <~ lift (get_branch_again repo 1 branch) ;;
                call (RemoveProtection branch) (remove_protection repo branch)
           else ret tt) ;;
     merge_result <~
       call (MergePull pr_number "squash"
               ("Force merge PR #" ++ str_int pr_number ++ " [skip ci]")
               "Force merged via Backstage automation")
         (merge pr "squash" ("Force merge PR #" ++ str_int pr_number ++ " [skip ci]")
            "Force merged via Backstage automation") ;;
     _ <~ (if protection
           then _ <~ lift (get_branch_again repo 2 branch) ;;
                call (EditProtection branch true true true true [] [] [])
                  (edit_protection repo branch)
           else ret tt) ;;
     ret (merged merge_result))
    (fun _ => ret false).

(** *** [publish_to_backstage] and [publish_raw_to_backstage] *)

Record Response : Type := {
  status_code : Z;
  (** [response.json()], which raises on a body that is not JSON *)
  json : outcome unit;
  text : string
}.

(** [requests.post], [yaml.safe_load] and [open(path).read()]. *)
Record Web : Type := {
  post : string -> string -> list (string * string) -> Z -> outcome Response;
  safe_load : string -> outcome unit;
  read_text : string -> outcome string
}.

(** The body of the [try] once the document is in hand. *)
Definition validate_and_post (web : Web) (backstage_url document : string)
  (headers : list (string * string)) : Eff bool :=
  _ <~ lift (safe_load web document) ;;
  response <~ call (HttpPost (backstage_url ++ "/api/catalog/locations") document
                      headers 30)
                (post web (backstage_url ++ "/api/catalog/locations") document
                   headers 30) ;;
  if status_code response =? 200
  then _ <~ lift (json response) ;; ret true
  else ret false.

Definition publish_to_backstage (env : Environment) (web : Web)
  (backstage_url catalog_info : string) (backstage_token : option string)
  (token_type : string) : Eff bool :=
  let token := if nonempty backstage_token then backstage_token
               else env "BACKSTAGE_TOKEN" in
  match token with
  | Some (String c t) =>
      let token := String c t in
      let auth_type := env_get env "BACKSTAGE_TOKEN_TYPE" token_type in
      let headers :=
        [ ("Content-Type", "application/yaml");
          ("User-Agent", "Backstage-Automation");
          ("Authorization", auth_type ++ " " ++ token) ] in
      try_exceptE (validate_and_post web backstage_url catalog_info headers)
        (fun _ => ret false)
  | _ =>
      throw (Failure "Backstage API token is required. Set BACKSTAGE_TOKEN environment variable or pass token parameter.")
  end.

Definition publish_raw_to_backstage (web : Web) (backstage_url catalog_path : string)
  : Eff bool :=
  let headers :=
    [ ("Content-Type", "application/yaml");
      ("User-Agent", "Backstage-Automation") ] in
  try_exceptE
    (catalog_content <~ lift (read_text web catalog_path) ;;
     validate_and_post web backstage_url catalog_content headers)
    (fun _ => ret false).

End Operations.

(** ** [main] *)

Module Main.

Import BackstageAutomation Operations.

Section WithOutside.

Variable yaml_dump : PyVal -> string.

(** [Github(...).get_organization(org_name)]: the token, the base URL
    when one is given, the organisation name. *)
Variable connect : string -> option string -> string -> outcome OrganizationHandle.

(** [open(path, "w").write(content)] *)
Variable write_text : string -> string -> outcome unit.

(** What [time.time()] and [datetime.now()] read while the repository at
    a given position of the loop is processed. *)
Variables (clock : nat -> Z) (now : nat -> datetime).

(** [BackstageAutomation.__init__]: an empty API URL counts as none. *)
Definition init (github_token org_name : string) (github_api_url : option string)
  : outcome OrganizationHandle :=
  connect github_token
    (if nonempty github_api_url then github_api_url else None) org_name.

(** A variable that must be set and not empty. *)
Definition required (env : Environment) (key : string) : Eff string :=
  match env key with
  | Some (String c s) => ret (String c s)
  | _ => throw (Failure (key ++ " environment variable is required"))
  end.

Record RunCounters : Type := {
  processed : Z;
  skipped : Z;
  failed : Z
}.

(** The body of [for repo in repositories], for the repository at
    position [i]. *)
Definition process_repository (h : OrganizationHandle) (i : nat) (c : RunCounters)
  (repo : RemoteRepository) : Eff RunCounters :=
  try_exceptE
    (match get_contents repo "catalog-info.yaml" with
     | Ret _ =>
         ret {| processed := processed c; skipped := skipped c + 1; failed := failed c |}
     | Raise _ =>
         _ <~ create_pr_and_issue yaml_dump (clock i) (now i) h (name repo) ;;
         ret {| processed := processed c + 1; skipped := skipped c; failed := failed c |}
     end)
    (fun _ =>
       ret {| processed := processed c; skipped := skipped c; failed := failed c + 1 |}).

(** [for repo in repositories]: the listing is fetched page by page as the
    loop goes, outside the [try] of the body, so the exception of a failed
    page ends the loop and leaves it. *)
Fixpoint process_all (h : OrganizationHandle) (i : nat) (c : RunCounters)
  (repositories : PageStream RemoteRepository) : Eff RunCounters :=
  match repositories with
  | Done => ret c
  | Item repo rest =>
      c' <~ process_repository h i c repo ;;
      process_all h (S i) c' rest
  | Broken e => throw e
  end.

(** The list [summary] of a run; [stamp] is the formatted
    [datetime.now()]. *)
Definition run_summary (stamp org_name : string) (canary_repo : option string)
  (c : RunCounters) : list string :=
  [ "## Automation Summary (" ++ stamp ++ ")";
    "### Mode: " ++ (if nonempty canary_repo then "Canary Test" else "Full Organization");
    (match canary_repo with
     | Some (String a b) => "- Repository: " ++ String a b
     | _ => "- Organization: " ++ org_name
     end);
    "- Processed: " ++ str_int (processed c) ++ " repositories";
    "- Skipped: " ++ str_int (skipped c) ++ " repositories (already onboarded)";
    "- Failed: " ++ str_int (failed c) ++ " repositories" ].

(** The part of [main] after the automation object is made. The outer
    [except] prints and raises again, so an exception leaves [main] as it
    came. In check-only mode [generate_status_report] iterates the listing
    outside every [try] of its own: a failed page ends it before anything
    is written. *)
Definition run_automation (stamp org_name : string) (check_only : bool)
  (canary_repo : option string) (h : OrganizationHandle) : Eff unit :=
  if check_only then
    match broken (handle_listing h) with
    | Some e => throw e
    | None =>
        let status_report := fst (generate_status_report (organization h) stamp []) in
        call (WriteTextFile "status_report.txt" status_report)
          (write_text "status_report.txt" status_report)
    end
  else
    let finish (repositories : PageStream RemoteRepository) : Eff unit :=
      c <~ process_all h 0
             {| processed := 0; skipped := 0; failed := 0 |} repositories ;;
      let text := join newline (run_summary stamp org_name canary_repo c) in
      call (WriteTextFile "automation_summary.txt" text)
        (write_text "automation_summary.txt" text) in
    match canary_repo with
    | Some (String a b) =>
        match get_repo h (String a b) with
        | Ret r => finish (Item r Done)
        | Raise _ => ret tt
        end
    | _ => finish (handle_listing h)
    end.

Definition main (env : Environment) (stamp : string) : Eff unit :=
  github_token <~ required env "GITHUB_TOKEN" ;;
  org_name <~ required env "GITHUB_ORG" ;;
  backstage_url <~ required env "BACKSTAGE_URL" ;;
  let github_api_url := env "GITHUB_API_URL" in
  let check_only := String.eqb (lower (env_get env "CHECK_ONLY" "false")) "true" in
  let canary_repo := env "CANARY_REPO" in
  h <~ lift (init github_token org_name github_api_url) ;;
  run_automation stamp org_name check_only canary_repo h.

End WithOutside.

End Main.

(** ** The dashboard's status table ([app.py]) *)

Module App.

(** One dictionary of [repos_status]. *)
Record StatusRow : Type := {
  row_repository : string;
  row_language : string;
  row_status : string;
  row_has_catalog_info : string;
  row_pr_status : string;
  row_last_updated : string
}.

Definition set_status (row : StatusRow) (status : string) : StatusRow :=
  {| row_repository := row_repository row;
     row_language := row_language row;
     row_status := status;
     row_has_catalog_info := row_has_catalog_info row;
     row_pr_status := row_pr_status row;
     row_last_updated := row_last_updated row |}.

Definition set_has_catalog_info (row : StatusRow) (has : string) : StatusRow :=
  {| row_repository := row_repository row;
     row_language := row_language row;
     row_status := row_status row;
     row_has_catalog_info := has;
     row_pr_status := row_pr_status row;
     row_last_updated := row_last_updated row |}.

Definition set_pr_status (row : StatusRow) (pr_status : string) : StatusRow :=
  {| row_repository := row_repository row;
     row_language := row_language row;
     row_status := row_status row;
     row_has_catalog_info := row_has_catalog_info row;
     row_pr_status := pr_status;
     row_last_updated := row_last_updated row |}.

(** The loop over [open_prs] of the dashboard: the dictionary as the loop
    leaves it, or the exception of a failed page. *)
Fixpoint mark_in_progress (prs : PageStream PullRequest) (row : StatusRow)
  : outcome StatusRow :=
  match prs with
  | Done => Ret row
  | Item pr rest =>
      if contains "backstage-integration" (head_ref pr)
      then Ret (set_pr_status (set_status row "In Progress")
                  ("PR #" ++ str_int (number pr) ++ " Open"))
      else mark_in_progress rest row
  | Broken e => Raise e
  end.

(** The dictionary [status] of one repository; [strftime] is
    [updated_at.strftime("%Y-%m-%d")]. An exception of the inner block
    finds the dictionary as the statements before it left it. *)
Definition repo_status (strftime : datetime -> string) (repo : RemoteRepository)
  : StatusRow :=
  let status :=
    {| row_repository := name repo;
       row_language := or_else (language repo) "Unknown";
       row_status := "Not Onboarded";
       row_has_catalog_info := "No";
       row_pr_status := "N/A";
       row_last_updated := strftime (updated_at repo) |} in
  let status :=
    match get_contents repo "catalog-info.yaml" with
    | Ret _ => set_status (set_has_catalog_info status "Yes") "Onboarded"
    | Raise _ => status
    end in
  match (open_prs <- get_pulls repo ;; mark_in_progress (iter open_prs) status) with
  | Ret status' => status'
  | Raise e => set_status status ("Error: " ++ str_exn e)
  end.

(** One row for each repository the listing yields: the outer [except]
    shows the exception of a failed page, and the rows made so far are
    returned. *)
Definition get_repo_status (strftime : datetime -> string) (h : OrganizationHandle)
  : list StatusRow :=
  map (repo_status strftime) (handle_repos h).

(** [len(df[df["Status"] == status])] *)
Definition status_metric (status : string) (rows : list StatusRow) : Z :=
  Z.of_nat (List.length (filter (fun row => String.eqb (row_status row) status) rows)).

End App.

(** ** [SecureStorage.list_organizations] *)

Module Listing.

Import SecureStorage.

Section WithLibraries.

Context {L : Libraries}.

(** What follows [p] in [s], when [s] starts with [p]. *)
Fixpoint strip_prefix (p s : string) : option string :=
  match p, s with
  | EmptyString, _ => Some s
  | String a p', String b s' => if Ascii.eqb a b then strip_prefix p' s' else None
  | String _ _, EmptyString => None
  end.

(** The part of a name before its first ["/"]. *)
Fixpoint first_component (s : string) : string :=
  match s with
  | EmptyString => EmptyString
  | String c rest => if Ascii.eqb c "/" then EmptyString else String c (first_component rest)
  end.

(** The directory as a prefix of the paths below it. *)
Definition directory_prefix (dir : string) : string :=
  if (String.eqb dir "" || endswith dir "/")%bool then dir else dir ++ "/".

(** [os.listdir(dir)]: the names, each once, of what the paths of the
    file system show directly under [dir]. *)
Definition listdir (fs : FileSystem) (dir : string) : list string :=
  nodup string_dec
    (flat_map (fun entry : string * Token =>
                 match strip_prefix (directory_prefix dir) (fst entry) with
                 | Some (String c rest) => [first_component (String c rest)]
                 | _ => []
                 end) fs).

(** [file[:-4]] *)
Definition drop_last_four (file : string) : string :=
  substring 0 (String.length file - 4) file.

Definition list_organizations (storage_path : string) (fs : FileSystem) : list string :=
  fold_left (fun orgs file =>
               if endswith file ".enc" then app orgs [drop_last_four file] else orgs)
    (listdir fs storage_path) [].

End WithLibraries.

End Listing.

(** * Properties *)

(** ** Repositories to evaluate the code on *)

Module Fixtures.

Definition not_found {A} : outcome A := Raise (NotFound "404 Not Found").

Definition file_at (path : string) : ContentFile :=
  {| cf_name := path; cf_path := path; cf_type := "file"; cf_decoded := Ret "" |}.

Definition no_pages {A} : PaginatedList A :=
  {| totalCount := Ret 0; next := Raise (Failure "StopIteration"); iter := Done |}.

Definition unprotected_branch : outcome Branch :=
  Ret {| get_protection := Raise (NotFound "404 Branch not protected") |}.

(** The API's answers for a repository whose tree is the top-level files
    [files]: a path in the tree is returned, the root is listed, any other
    path is a 404. *)
Definition tree (files : list string) (path : string) : outcome Contents :=
  if String.eqb path "" then Ret (Listing (map file_at files))
  else if mem path files then Ret (File (file_at path))
  else not_found.

(** A young, empty-handed repository with the given tree. *)
Definition plain_repo (nm : string) (files : list string) : Repository :=
  {| name := nm;
     html_url := "https://github.com/acme/" ++ nm;
     description := None;
     homepage := None;
     topics := [];
     archived := false;
     created_at := 0;
     pushed_at := Some 0;
     stargazers_count := 0;
     forks_count := 0;
     get_contents := tree files;
     get_branch := fun _ => unprotected_branch;
     get_commits := Ret no_pages;
     get_contributors := Ret no_pages;
     get_pulls := Ret no_pages |}.

Definition days (n : Z) : Z := n * microseconds_per_day.

End Fixtures.

Import BackstageAutomation.

(** ** Component type *)

Section ComponentType.

Variable repo : Repository.

(** Some file of [files] is answered with a truthy object. *)
Definition has_any (files : list string) : bool :=
  existsb (fun f => match get_contents repo f with
                    | Ret c => truthy c
                    | Raise _ => false
                    end) files.

(** No lookup of [files] raises. *)
Definition all_return (files : list string) : Prop :=
  forall f, In f files -> exists c, get_contents repo f = Ret c.

Lemma any_contents_returns (files : list string) :
  all_return files -> any_contents repo files = Ret (has_any files).
Proof.
  induction files as [|f rest IH]; intros Hall; simpl.
  - reflexivity.
  - destruct (Hall f (or_introl eq_refl)) as [c Hc]. rewrite Hc. simpl.
    destruct (truthy c); [reflexivity|].
    apply IH. intros g Hg. apply Hall. now right.
Qed.

Lemma any_contents_first_raises (f : string) (rest : list string) (e : Exception) :
  get_contents repo f = Raise e -> any_contents repo (f :: rest) = Raise e.
Proof. intros H. simpl. now rewrite H. Qed.

(** Where every lookup returns (an absent file answered by a falsy value),
    the classification follows the precedence service, website, library,
    default service. *)
Lemma component_type_precedence_when_lookups_return :
  all_return (service_files ++ website_files ++ library_files) ->
  _determine_component_type repo =
    if has_any service_files then "service"
    else if has_any website_files then "website"
    else if has_any library_files then "library"
    else "service".
Proof.
  intros Hall. unfold _determine_component_type.
  rewrite !any_contents_returns
    by (intros f Hf; apply Hall; rewrite !in_app_iff; tauto).
  cbn [bind try_except].
  destruct (has_any service_files); [reflexivity|]. cbn [bind try_except].
  destruct (has_any website_files); [reflexivity|]. cbn [bind try_except].
  destruct (has_any library_files); reflexivity.
Qed.

(** A lookup of [Dockerfile] that raises, as the lookup of a file that is
    not in the repository does, ends the classification with the
    default. *)
Lemma component_type_first_lookup_raises (e : Exception) :
  get_contents repo "Dockerfile" = Raise e ->
  _determine_component_type repo = "service".
Proof.
  intros H. unfold _determine_component_type, service_files.
  now rewrite (any_contents_first_raises _ _ e H).
Qed.

(** A [Dockerfile] in the repository decides for service. *)
Lemma component_type_dockerfile (c : Contents) :
  get_contents repo "Dockerfile" = Ret c -> truthy c = true ->
  _determine_component_type repo = "service".
Proof.
  intros H Ht. unfold _determine_component_type, service_files. simpl.
  now rewrite H; simpl; rewrite Ht.
Qed.

End ComponentType.

(** A repository with [package.json] and nothing else. *)
Definition package_json_repo : Repository :=
  Fixtures.plain_repo "webapp" ["package.json"].

(** C1, evaluated where it fails: in a repository that holds
    [package.json] and no service indicator, the lookup of [Dockerfile]
    raises, the [except] clause answers, and the component type is
    ["service"], not ["website"]. *)
Theorem component_type_package_json_only :
  get_contents package_json_repo "package.json"
    = Ret (File (Fixtures.file_at "package.json"))
  /\ Forall (fun f => get_contents package_json_repo f = Raise (NotFound "404 Not Found"))
       service_files
  /\ _determine_component_type package_json_repo = "service".
Proof.
  split; [reflexivity|]. split; [|reflexivity].
  repeat constructor.
Qed.

(** ** Lifecycle *)

Section Lifecycle.

Variables (now : datetime) (repo : Repository).

Lemma lifecycle_archived :
  archived repo = true -> _determine_lifecycle now repo = "deprecated".
Proof. intros H. unfold _determine_lifecycle. now rewrite H. Qed.

Lemma lifecycle_protected (b : Branch) :
  archived repo = false ->
  get_branch repo base_branch = Ret b -> get_protection b = Ret true ->
  _determine_lifecycle now repo = "production".
Proof.
  intros Ha Hb Hp. unfold _determine_lifecycle.
  rewrite Ha, Hb. cbn [bind]. now rewrite Hp.
Qed.

(** The branch lookup or the protection lookup raises: the [except] clause
    answers, whatever the age and the history. *)
Lemma lifecycle_protection_lookup_raises :
  archived repo = false ->
  (exists e, get_branch repo base_branch = Raise e)
  \/ (exists b e, get_branch repo base_branch = Ret b /\ get_protection b = Raise e) ->
  _determine_lifecycle now repo = "production".
Proof.
  intros Ha [[e He] | (b & e & Hb & He)]; unfold _determine_lifecycle; rewrite Ha.
  - now rewrite He.
  - rewrite Hb. cbn [bind]. now rewrite He.
Qed.

(** The rest of the chain is reached only through a protection lookup
    that returns a falsy object. *)
Lemma lifecycle_unprotected_chain (b : Branch) (commits : PaginatedList unit) :
  archived repo = false ->
  get_branch repo base_branch = Ret b -> get_protection b = Ret false ->
  get_commits repo = Ret commits ->
  _determine_lifecycle now repo =
    if days_between now (created_at repo) <? 90 then "experimental"
    else match totalCount commits with
         | Ret n => if ((100 <? n) && is_set (pushed_at repo))%bool
                    then "production" else "development"
         | Raise _ => "production"
         end.
Proof.
  intros Ha Hb Hp Hc. unfold _determine_lifecycle.
  rewrite Ha, Hb. cbn [bind]. rewrite Hp. cbn [bind]. rewrite Hc. cbn [bind].
  destruct (days_between now (created_at repo) <? 90); [reflexivity|].
  destruct (totalCount commits) as [n|e]; cbn [bind try_except]; [|reflexivity].
  now destruct ((100 <? n) && is_set (pushed_at repo))%bool.
Qed.

Lemma lifecycle_values :
  In (_determine_lifecycle now repo)
     ["deprecated"; "production"; "experimental"; "development"].
Proof.
  unfold _determine_lifecycle.
  destruct (archived repo); [simpl; tauto|].
  destruct (get_branch repo base_branch) as [b|]; [|simpl; tauto].
  cbn [bind]. destruct (get_protection b) as [[|]|]; try (simpl; tauto).
  cbn [bind]. destruct (get_commits repo) as [c|]; [|simpl; tauto].
  cbn [bind]. destruct (_ <? 90); [simpl; tauto|].
  destruct (totalCount c) as [n|]; [|simpl; tauto].
  cbn [bind]. destruct (_ && _)%bool; simpl; tauto.
Qed.

End Lifecycle.

(** A repository created ten days before [now], five commits, not
    archived, its main branch without protection. *)
Definition young_repo (now : datetime) : Repository :=
  {| name := "prototype";
     html_url := "https://github.com/acme/prototype";
     description := None;
     homepage := None;
     topics := [];
     archived := false;
     created_at := now - Fixtures.days 10;
     pushed_at := Some (now - Fixtures.days 1);
     stargazers_count := 0;
     forks_count := 0;
     get_contents := Fixtures.tree ["README.md"];
     get_branch := fun _ => Fixtures.unprotected_branch;
     get_commits := Ret {| totalCount := Ret 5; next := Ret tt; iter := Done |};
     get_contributors := Ret Fixtures.no_pages;
     get_pulls := Ret Fixtures.no_pages |}.

(** C2, evaluated where it fails: for a repository that is not archived,
    ten days old, with five commits and no branch protection, the
    protection lookup raises (as [force_merge_pr] expects of a branch
    without protection), the [except] clause answers, and the lifecycle is
    ["production"], not ["experimental"]. *)
Theorem lifecycle_young_unprotected (now : datetime) :
  archived (young_repo now) = false
  /\ days_between now (created_at (young_repo now)) = 10
  /\ _determine_lifecycle now (young_repo now) = "production".
Proof.
  split; [reflexivity|]. split; [|reflexivity].
  unfold days_between, young_repo, created_at, Fixtures.days.
  replace (now - (now - 10 * microseconds_per_day)) with (10 * microseconds_per_day) by lia.
  now rewrite Z.div_mul.
Qed.

(** ** Owner *)

Example findall_teams_codeowners :
  findall_teams "* @alice @acme/platform-team docs/ @acme/docs_2"
    = ["@acme/platform-team"; "@acme/docs_2"].
Proof. reflexivity. Qed.

Example findall_teams_no_team :
  findall_teams "*.py @alice @/x @org/ bob@example.com" = [].
Proof. reflexivity. Qed.

Section Owner.

Variables (org : Organization) (repo : Repository).


(** The team lookup of the top contributor returns a list with no team:
    the [if] is not taken, nothing is returned inside the [try], and the
    function ends at its fallback. *)
Lemma owner_team_lookup_empty
  (contributors : PaginatedList NamedUser) (n : Z) (top : NamedUser)
  (teams : PaginatedList Team) (m : Z) :
  codeowners_team repo = None ->
  get_contributors repo = Ret contributors ->
  totalCount contributors = Ret n -> 0 < n ->
  next contributors = Ret top ->
  get_user_teams org top = Ret teams ->
  totalCount teams = Ret m -> m <= 0 ->
  _determine_owner org repo = "default-team".
Proof.
  intros Hc Hg Hn Hpos Ht Hu Hm Hle. unfold _determine_owner.
  rewrite Hc, Hg. cbn [bind]. rewrite Hn. cbn [bind].
  destruct (Z.ltb_spec 0 n); [|lia].
  rewrite Ht. cbn [bind]. unfold contributor_team.
  rewrite Hu. cbn [bind]. rewrite Hm. cbn [bind].
  destruct (Z.ltb_spec 0 m); [lia|]. reflexivity.
Qed.

(** The team lookup raises: the owner is the contributor. *)
Lemma owner_team_lookup_raises
  (contributors : PaginatedList NamedUser) (n : Z) (top : NamedUser) (e : Exception) :
  codeowners_team repo = None ->
  get_contributors repo = Ret contributors ->
  totalCount contributors = Ret n -> 0 < n ->
  next contributors = Ret top ->
  get_user_teams org top = Raise e ->
  _determine_owner org repo = "user:" ++ login top.
Proof.
  intros Hc Hg Hn Hpos Ht Hu. unfold _determine_owner.
  rewrite Hc, Hg. cbn [bind]. rewrite Hn. cbn [bind].
  destruct (Z.ltb_spec 0 n); [|lia].
  rewrite Ht. cbn [bind]. unfold contributor_team.
  now rewrite Hu.
Qed.

(** A team found for the top contributor is the owner. *)
Lemma owner_team_found
  (contributors : PaginatedList NamedUser) (n : Z) (top : NamedUser)
  (teams : PaginatedList Team) (m : Z) (t : Team) :
  codeowners_team repo = None ->
  get_contributors repo = Ret contributors ->
  totalCount contributors = Ret n -> 0 < n ->
  next contributors = Ret top ->
  get_user_teams org top = Ret teams ->
  totalCount teams = Ret m -> 0 < m -> next teams = Ret t ->
  _determine_owner org repo = team_name t.
Proof.
  intros Hc Hg Hn Hpos Ht Hu Hm Hlt Hnx. unfold _determine_owner.
  rewrite Hc, Hg. cbn [bind]. rewrite Hn. cbn [bind].
  destruct (Z.ltb_spec 0 n); [|lia].
  rewrite Ht. cbn [bind]. unfold contributor_team.
  rewrite Hu. cbn [bind]. rewrite Hm. cbn [bind].
  destruct (Z.ltb_spec 0 m); [|lia]. now rewrite Hnx.
Qed.

End Owner.

Definition alice : NamedUser := {| login := "alice" |}.

(** A repository without CODEOWNERS whose one contributor is [alice]. *)
Definition alice_repo : Repository :=
  {| name := "tool";
     html_url := "https://github.com/acme/tool";
     description := None;
     homepage := None;
     topics := [];
     archived := false;
     created_at := 0;
     pushed_at := Some 0;
     stargazers_count := 0;
     forks_count := 0;
     get_contents := Fixtures.tree ["README.md"];
     get_branch := fun _ => Fixtures.unprotected_branch;
     get_commits := Ret Fixtures.no_pages;
     get_contributors := Ret {| totalCount := Ret 1; next := Ret alice; iter := Item alice Done |};
     get_pulls := Ret Fixtures.no_pages |}.

(** An organisation that answers the team lookup with an empty list. *)
Definition org_without_teams : Organization :=
  {| org_login := "acme";
     get_user_teams := fun _ => Ret Fixtures.no_pages;
     get_repos := [alice_repo] |}.

(** The same organisation with a team lookup that raises. *)
Definition org_with_failing_teams : Organization :=
  {| org_login := "acme";
     get_user_teams := fun _ => Raise (Failure "403 Forbidden");
     get_repos := [alice_repo] |}.

(** C5, evaluated where it fails: no CODEOWNERS team, a top contributor
    [alice], a team lookup that succeeds with an empty result. The owner
    is ["default-team"], not ["user:alice"]; ["user:alice"] is what the
    code answers when the team lookup raises. *)
Theorem owner_contributor_without_team :
  codeowners_team alice_repo = None
  /\ (teams <- get_user_teams org_without_teams alice ;; totalCount teams) = Ret 0
  /\ _determine_owner org_without_teams alice_repo = "default-team"
  /\ _determine_owner org_with_failing_teams alice_repo = "user:alice".
Proof. repeat split. Qed.

(** ** Status aggregation *)

Definition marked (pr : PullRequest) : bool :=
  contains "backstage-integration" (head_ref pr).

(** [pr] is the first marked pull request of the stream, reached without
    a failed page. *)
Inductive first_marked : PageStream PullRequest -> PullRequest -> Prop :=
| first_here pr rest : marked pr = true -> first_marked (Item pr rest) pr
| first_later q rest pr :
    marked q = false -> first_marked rest pr -> first_marked (Item q rest) pr.

(** The stream ends without a failed page and without a marked pull
    request. *)
Inductive none_marked : PageStream PullRequest -> Prop :=
| none_done : none_marked Done
| none_later q rest : marked q = false -> none_marked rest -> none_marked (Item q rest).

(** A page of the stream fails with [e] before a marked pull request is
    seen. *)
Inductive fails_unmarked : PageStream PullRequest -> Exception -> Prop :=
| fails_here e : fails_unmarked (Broken e) e
| fails_later q rest e :
    marked q = false -> fails_unmarked rest e -> fails_unmarked (Item q rest) e.

Create HintDb status.
#[local] Hint Constructors first_marked none_marked fails_unmarked : status.

Lemma find_integration_pr_some (prs : PageStream PullRequest) (pr : PullRequest) :
  find_integration_pr prs = Ret (Some pr) <-> first_marked prs pr.
Proof.
  split.
  - induction prs as [|q rest IH|e]; simpl; try discriminate.
    fold (marked q). destruct (marked q) eqn:Hq.
    + intros [= <-]. auto with status.
    + auto with status.
  - induction 1 as [q rest Hq | q rest p Hq _ IH]; simpl; fold (marked q); now rewrite Hq.
Qed.

Lemma find_integration_pr_none (prs : PageStream PullRequest) :
  find_integration_pr prs = Ret None <-> none_marked prs.
Proof.
  split.
  - induction prs as [|q rest IH|e]; simpl; try discriminate; auto with status.
    fold (marked q). destruct (marked q) eqn:Hq; [discriminate | auto with status].
  - induction 1 as [| q rest Hq _ IH]; simpl; [reflexivity|].
    fold (marked q). now rewrite Hq.
Qed.

Lemma find_integration_pr_raise (prs : PageStream PullRequest) (e : Exception) :
  find_integration_pr prs = Raise e <-> fails_unmarked prs e.
Proof.
  split.
  - induction prs as [|q rest IH|e']; simpl; try discriminate.
    + fold (marked q). destruct (marked q) eqn:Hq; [discriminate | auto with status].
    + intros [= <-]. auto with status.
  - induction 1 as [| q rest e' Hq _ IH]; simpl; [reflexivity|].
    fold (marked q). now rewrite Hq.
Qed.

(** The counters after one more repository of each outcome. *)
Definition count_onboarded (c : Counters) : Counters :=
  {| total := total c + 1; onboarded := onboarded c + 1;
     in_progress := in_progress c; not_onboarded := not_onboarded c |}.
Definition count_in_progress (c : Counters) : Counters :=
  {| total := total c + 1; onboarded := onboarded c;
     in_progress := in_progress c + 1; not_onboarded := not_onboarded c |}.
Definition count_not_onboarded (c : Counters) : Counters :=
  {| total := total c + 1; onboarded := onboarded c;
     in_progress := in_progress c; not_onboarded := not_onboarded c + 1 |}.
Definition count_error (c : Counters) : Counters :=
  {| total := total c + 1; onboarded := onboarded c;
     in_progress := in_progress c; not_onboarded := not_onboarded c |}.

(** The pull-request lookup of a repository fails with [e]: the call
    raises, or a page of its result does before a marked pull request. *)
Definition pulls_fail (repo : Repository) (e : Exception) : Prop :=
  get_pulls repo = Raise e
  \/ exists prs, get_pulls repo = Ret prs /\ fails_unmarked (iter prs) e.

Lemma status_loop_app (pre post : list Repository) (st : ReportState) :
  status_loop (pre ++ post) st = status_loop post (status_loop pre st).
Proof. apply fold_left_app. Qed.

Lemma status_step_shape (st : ReportState) (repo : Repository) :
  total (fst (status_step st repo)) = total (fst st) + 1
  /\ exists line, snd (status_step st repo) = (snd st ++ [line])%list.
Proof.
  destruct st as [c report]. unfold status_step.
  destruct (get_contents repo "catalog-info.yaml").
  - split; [reflexivity | eexists; reflexivity].
  - destruct (bind _ _) as [[pr|]|e']; (split; [reflexivity | eexists; reflexivity]).
Qed.

Lemma status_loop_shape (repos : list Repository) (st : ReportState) :
  total (fst (status_loop repos st)) = total (fst st) + len repos
  /\ exists lines, snd (status_loop repos st) = (snd st ++ lines)%list
                   /\ List.length lines = List.length repos.
Proof.
  revert st. induction repos as [|r rest IH]; intros st.
  - unfold len. simpl. split; [lia|]. exists []. now rewrite app_nil_r.
  - change (status_loop (r :: rest) st) with (status_loop rest (status_step st r)).
    destruct (IH (status_step st r)) as [Ht (lines & Hl & Hlen)].
    destruct (status_step_shape st r) as [Ht1 [line Hl1]].
    split.
    + rewrite Ht, Ht1. unfold len. simpl List.length. lia.
    + exists (line :: lines). split; [|simpl; congruence].
      rewrite Hl, Hl1, <- app_assoc. reflexivity.
Qed.

(** C3, as amended: the status of a repository resolves in the order
    descriptor lookup returns: Onboarded, first and final; else the first
    open pull request whose branch name contains [backstage-integration]:
    InProgress with its number; else NotOnboarded. A failure of the
    pull-request lookup gives the Error line with its message and leaves
    the three counters alone. A descriptor lookup that raises, for
    whatever reason, only sends the resolution on to the pull requests.
    Every repository of the list adds one to the total and one line to the
    details, so no outcome of one repository stops the loop. *)
Theorem status_resolution_order (repo : Repository) (c : Counters) (report : list string) :
  (forall d, get_contents repo "catalog-info.yaml" = Ret d ->
     status_step (c, report) repo
     = (count_onboarded c, append report ("✅ " ++ name repo ++ ": Onboarded")))
  /\ (forall e prs pr,
        get_contents repo "catalog-info.yaml" = Raise e ->
        get_pulls repo = Ret prs -> first_marked (iter prs) pr ->
        status_step (c, report) repo
        = (count_in_progress c,
           append report ("🔄 " ++ name repo ++ ": In Progress (PR #"
                            ++ str_int (number pr) ++ ")")))
  /\ (forall e prs,
        get_contents repo "catalog-info.yaml" = Raise e ->
        get_pulls repo = Ret prs -> none_marked (iter prs) ->
        status_step (c, report) repo
        = (count_not_onboarded c, append report ("❌ " ++ name repo ++ ": Not Onboarded")))
  /\ (forall e e',
        get_contents repo "catalog-info.yaml" = Raise e ->
        pulls_fail repo e' ->
        status_step (c, report) repo
        = (count_error c, append report ("⚠️ " ++ name repo ++ ": Error - " ++ str_exn e')))
  /\ (forall repos st,
        total (fst (status_loop repos st)) = total (fst st) + len repos
        /\ exists lines, snd (status_loop repos st) = (snd st ++ lines)%list
                         /\ List.length lines = List.length repos).
Proof.
  repeat split.
  - intros d Hd. unfold status_step. now rewrite Hd.
  - intros e prs pr He Hp Hf. unfold status_step. rewrite He, Hp. cbn [bind].
    apply find_integration_pr_some in Hf. now rewrite Hf.
  - intros e prs He Hp Hn. unfold status_step. rewrite He, Hp. cbn [bind].
    apply find_integration_pr_none in Hn. now rewrite Hn.
  - intros e e' He [Hp | (prs & Hp & Hf)]; unfold status_step; rewrite He, Hp.
    + reflexivity.
    + cbn [bind]. apply find_integration_pr_raise in Hf. now rewrite Hf.
  - apply status_loop_shape.
  - apply status_loop_shape.
Qed.

(** Two repositories without a descriptor: one with an open pull request
    from branch [backstage-integration-1700000000], one without pull
    requests. *)
Definition integration_pr : PullRequest :=
  {| number := 42; head_ref := "backstage-integration-1700000000" |}.

Definition repo_in_progress : Repository :=
  {| name := "billing";
     html_url := "https://github.com/acme/billing";
     description := None;
     homepage := None;
     topics := [];
     archived := false;
     created_at := 0;
     pushed_at := Some 0;
     stargazers_count := 0;
     forks_count := 0;
     get_contents := Fixtures.tree ["README.md"];
     get_branch := fun _ => Fixtures.unprotected_branch;
     get_commits := Ret Fixtures.no_pages;
     get_contributors := Ret Fixtures.no_pages;
     get_pulls := Ret {| totalCount := Ret 2; next := Raise (Failure "not an iterator");
                         iter := Item {| number := 7; head_ref := "fix-typo" |}
                                   (Item integration_pr Done) |} |}.

(** The scenario of the two repositories, through the in-progress and
    the not-onboarded case of the resolution. *)
Lemma status_resolution_order_witness :
  status_loop [repo_in_progress; Fixtures.plain_repo "legacy" ["README.md"]]
    (zero_counters, [])
  = ({| total := 2; onboarded := 0; in_progress := 1; not_onboarded := 1 |},
     ["🔄 billing: In Progress (PR #42)"; "❌ legacy: Not Onboarded"]).
Proof.
  unfold status_loop. cbn [fold_left].
  destruct (status_resolution_order repo_in_progress zero_counters [])
    as (_ & Hin & _).
  rewrite (Hin (NotFound "404 Not Found") _ integration_pr eq_refl eq_refl).
  - destruct (status_resolution_order (Fixtures.plain_repo "legacy" ["README.md"])
                (count_in_progress zero_counters)
                (append [] ("🔄 " ++ name repo_in_progress ++ ": In Progress (PR #"
                              ++ str_int (number integration_pr) ++ ")")))
      as (_ & _ & Hnot & _).
    rewrite (Hnot (NotFound "404 Not Found") _ eq_refl eq_refl).
    + reflexivity.
    + constructor.
  - apply first_later; [reflexivity|]. apply first_here. reflexivity.
Defined.

(** A repository whose every content lookup fails in transport, and that
    has no open pull request. *)
Definition flaky_repo : Repository :=
  {| name := "flaky";
     html_url := "https://github.com/acme/flaky";
     description := None;
     homepage := None;
     topics := [];
     archived := false;
     created_at := 0;
     pushed_at := Some 0;
     stargazers_count := 0;
     forks_count := 0;
     get_contents := fun _ => Raise (Failure "503 Service Unavailable");
     get_branch := fun _ => Fixtures.unprotected_branch;
     get_commits := Ret Fixtures.no_pages;
     get_contributors := Ret Fixtures.no_pages;
     get_pulls := Ret Fixtures.no_pages |}.

(** C3 as stated fails: the descriptor lookup of [flaky_repo] fails, and
    the repository is counted and listed as Not Onboarded, with no Error
    line. *)
Lemma status_lookup_failure_counterexample :
  get_contents flaky_repo "catalog-info.yaml" = Raise (Failure "503 Service Unavailable")
  /\ status_loop [flaky_repo] (zero_counters, [])
     = ({| total := 1; onboarded := 0; in_progress := 0; not_onboarded := 1 |},
        ["❌ flaky: Not Onboarded"]).
Proof. split; reflexivity. Qed.

(** The counters never read [self.status_report]. *)
Lemma status_step_counters (c : Counters) (r1 r2 : list string) (repo : Repository) :
  fst (status_step (c, r1) repo) = fst (status_step (c, r2) repo).
Proof.
  unfold status_step.
  destruct (get_contents repo "catalog-info.yaml"); [reflexivity|].
  now destruct (bind _ _) as [[pr|]|e'].
Qed.

Lemma status_loop_counters (repos : list Repository) (c : Counters) (r1 r2 : list string) :
  fst (status_loop repos (c, r1)) = fst (status_loop repos (c, r2)).
Proof.
  revert c r1 r2. induction repos as [|repo rest IH]; intros c r1 r2; [reflexivity|].
  change (fst (status_loop rest (status_step (c, r1) repo))
          = fst (status_loop rest (status_step (c, r2) repo))).
  pose proof (status_step_counters c r1 r2 repo) as H.
  destruct (status_step (c, r1) repo) as [c1 s1], (status_step (c, r2) repo) as [c2 s2].
  simpl in H. subst c2. apply IH.
Qed.

(** The lines a run adds to [self.status_report] do not depend on what the
    list held. *)
Lemma status_loop_lines (repos : list Repository) (c : Counters) (r : list string) :
  snd (status_loop repos (c, r)) = (r ++ snd (status_loop repos (c, [])))%list.
Proof.
  revert c r. induction repos as [|repo rest IH]; intros c r.
  - simpl. now rewrite app_nil_r.
  - change (status_loop (repo :: rest) (c, r))
      with (status_loop rest (status_step (c, r) repo)).
    change (status_loop (repo :: rest) (c, []))
      with (status_loop rest (status_step (c, []) repo)).
    assert (exists c' line, status_step (c, r) repo = (c', r ++ [line])%list
                            /\ status_step (c, []) repo = (c', [line])) as (c' & line & H1 & H2).
    { unfold status_step.
      destruct (get_contents repo "catalog-info.yaml");
        [|destruct (bind _ _) as [[pr|]|e']]; do 2 eexists; split; reflexivity. }
    rewrite H1, H2, (IH c' (r ++ [line])%list), (IH c' [line]), <- app_assoc.
    reflexivity.
Qed.

(** C8: a second run of the status aggregation over the same
    repositories, answering as in the first run, ends with the same total,
    Onboarded, InProgress and NotOnboarded counters as the first, and
    writes the same four count lines. (The detail lines are another
    matter: [self.status_report] keeps those of the first run.) *)
Theorem status_counts_idempotent (org : Organization) (stamp : string)
  (self_status_report : list string) :
  let after_first_run := snd (generate_status_report org stamp self_status_report) in
  status_counts org after_first_run = status_counts org self_status_report
  /\ summary_head stamp (status_counts org after_first_run)
     = summary_head stamp (status_counts org self_status_report).
Proof.
  cbv zeta. unfold status_counts, generate_status_report. cbn [snd].
  assert (H : fst (status_loop (get_repos org)
                     (zero_counters,
                      snd (status_loop (get_repos org) (zero_counters, self_status_report))))
              = fst (status_loop (get_repos org) (zero_counters, self_status_report)))
    by apply status_loop_counters.
  now rewrite H.
Qed.

Example sort_by_score_desc_stable :
  map a_name
    (sort_by_score_desc
       (map (fun ns : string * Z =>
               {| a_name := fst ns; a_score := snd ns; a_reasons := []; a_url := "";
                  a_description := ""; a_updated_at := 0; a_stars := 0; a_forks := 0 |})
          [("a", 40); ("b", 50); ("c", 40); ("d", 60)]))
  = ["d"; "b"; "a"; "c"].
Proof. reflexivity. Qed.

(** The detail list of the second run repeats that of the first. *)
Lemma status_report_accumulates (org : Organization) (stamp : string) :
  let first := snd (generate_status_report org stamp []) in
  snd (generate_status_report org stamp first) = (first ++ first)%list.
Proof.
  cbv zeta. unfold generate_status_report. cbn [snd].
  apply status_loop_lines.
Qed.

(** ** API specification scan *)

(** The references of the specification files of [files], in their
    order, up to the first one whose content cannot be read. *)
Fixpoint readable_specs (files : list ContentFile) : list ApiSpec :=
  match files with
  | [] => []
  | f :: rest =>
      if is_spec_file f then
        match spec_entry f with
        | Ret entry => entry :: readable_specs rest
        | Raise _ => []
        end
      else readable_specs rest
  end.

(** A top-level specification file whose content cannot be read. *)
Definition unreadable_spec (c : ContentFile) : bool :=
  (negb (String.eqb (cf_type c) "dir") && is_spec_file c
   && match spec_entry c with Ret _ => false | Raise _ => true end)%bool.

(** What a top-level directory adds to the result: nothing unless it is
    named [docs], [api] or [specs]; nothing when its listing fails; else
    the references of its specification files up to the first one that
    cannot be read. *)
Definition directory_specs (repo : Repository) (d : ContentFile) : list ApiSpec :=
  if mem (lower (cf_name d)) ["docs"; "api"; "specs"] then
    match (c <- get_contents repo (cf_path d) ;; entries c) with
    | Ret subcontents => readable_specs subcontents
    | Raise _ => []
    end
  else [].

(** What one top-level entry adds to the result. *)
Definition entry_specs (repo : Repository) (c : ContentFile) : list ApiSpec :=
  if String.eqb (cf_type c) "dir" then directory_specs repo c else readable_specs [c].

Section SpecScan.

Variable repo : Repository.

Lemma scan_subcontents_extends (subs : list ContentFile) (acc : list ApiSpec) :
  exists more, fst (scan_subcontents subs acc) = (acc ++ more)%list.
Proof.
  revert acc. induction subs as [|s rest IH]; intros acc; simpl.
  - exists []. now rewrite app_nil_r.
  - destruct (is_spec_file s); [|apply IH].
    destruct (spec_entry s) as [entry|e].
    + destruct (IH (append acc entry)) as [more Hm]. exists (entry :: more).
      rewrite Hm. unfold append. now rewrite <- app_assoc.
    + exists []. now rewrite app_nil_r.
Qed.

Lemma scan_directory_extends (d : ContentFile) (acc : list ApiSpec) :
  exists more, scan_directory repo d acc = (acc ++ more)%list.
Proof.
  unfold scan_directory.
  destruct (mem _ _); [|exists []; now rewrite app_nil_r].
  destruct (bind _ _) as [subs|e]; [apply scan_subcontents_extends|].
  exists []. now rewrite app_nil_r.
Qed.

Lemma scan_contents_extends (contents : list ContentFile) (acc : list ApiSpec) :
  exists more, fst (scan_contents repo contents acc) = (acc ++ more)%list.
Proof.
  revert acc. induction contents as [|c rest IH]; intros acc; simpl.
  - exists []. now rewrite app_nil_r.
  - destruct (String.eqb (cf_type c) "dir").
    + destruct (scan_directory_extends c acc) as [m1 H1]. rewrite H1.
      destruct (IH (acc ++ m1)%list) as [m2 H2]. exists (m1 ++ m2)%list.
      now rewrite H2, <- app_assoc.
    + destruct (is_spec_file c); [|apply IH].
      destruct (spec_entry c) as [entry|e].
      * destruct (IH (append acc entry)) as [more Hm]. exists (entry :: more).
        rewrite Hm. unfold append. now rewrite <- app_assoc.
      * exists []. now rewrite app_nil_r.
Qed.

(** The scan of a list is the scan of its front, then of its back unless
    the front ended in an exception. *)
Lemma scan_contents_app (pre post : list ContentFile) (acc : list ApiSpec) :
  scan_contents repo (pre ++ post) acc =
    match scan_contents repo pre acc with
    | (acc', None) => scan_contents repo post acc'
    | (acc', Some e) => (acc', Some e)
    end.
Proof.
  revert acc. induction pre as [|c rest IH]; intros acc; simpl.
  - reflexivity.
  - destruct (String.eqb (cf_type c) "dir"); [apply IH|].
    destruct (is_spec_file c); [|apply IH].
    destruct (spec_entry c); [apply IH | reflexivity].
Qed.

Lemma scan_subcontents_app (pre post : list ContentFile) (acc : list ApiSpec) :
  scan_subcontents (pre ++ post) acc =
    match scan_subcontents pre acc with
    | (acc', None) => scan_subcontents post acc'
    | (acc', Some e) => (acc', Some e)
    end.
Proof.
  revert acc. induction pre as [|c rest IH]; intros acc; simpl.
  - reflexivity.
  - destruct (is_spec_file c); [|apply IH].
    destruct (spec_entry c); [apply IH | reflexivity].
Qed.

Lemma scan_subcontents_readable (subs : list ContentFile) (acc : list ApiSpec) :
  fst (scan_subcontents subs acc) = (acc ++ readable_specs subs)%list.
Proof.
  revert acc. induction subs as [|s rest IH]; intros acc; simpl.
  - now rewrite app_nil_r.
  - destruct (is_spec_file s); [|apply IH].
    destruct (spec_entry s) as [entry|e]; simpl.
    + rewrite IH. unfold append. now rewrite <- app_assoc.
    + now rewrite app_nil_r.
Qed.

Lemma scan_directory_specs (d : ContentFile) (acc : list ApiSpec) :
  scan_directory repo d acc = (acc ++ directory_specs repo d)%list.
Proof.
  unfold scan_directory, directory_specs.
  destruct (mem _ _); [|now rewrite app_nil_r].
  destruct (bind _ _) as [subs|e]; [apply scan_subcontents_readable|].
  now rewrite app_nil_r.
Qed.

(** A scan that meets no unreadable top-level specification file goes
    through every entry. *)
Lemma scan_contents_readable (contents : list ContentFile) (acc : list ApiSpec) :
  existsb unreadable_spec contents = false ->
  scan_contents repo contents acc
  = ((acc ++ flat_map (entry_specs repo) contents)%list, None).
Proof.
  revert acc. induction contents as [|c rest IH]; intros acc H.
  - simpl. now rewrite app_nil_r.
  - cbn [existsb] in H. apply orb_false_iff in H. destruct H as [Hc Hrest].
    cbn [scan_contents flat_map]. unfold entry_specs at 1. unfold unreadable_spec in Hc.
    destruct (String.eqb (cf_type c) "dir").
    + rewrite scan_directory_specs, (IH _ Hrest). now rewrite <- app_assoc.
    + cbn [readable_specs]. destruct (is_spec_file c).
      * destruct (spec_entry c) as [entry|e]; [|discriminate].
        rewrite (IH _ Hrest). unfold append. now rewrite <- app_assoc.
      * rewrite (IH _ Hrest). reflexivity.
Qed.

Lemma scan_contents_unreadable (bad : ContentFile) (post : list ContentFile)
  (acc : list ApiSpec) :
  unreadable_spec bad = true -> fst (scan_contents repo (bad :: post) acc) = acc.
Proof.
  unfold unreadable_spec. intros H. cbn [scan_contents].
  destruct (String.eqb (cf_type bad) "dir"); [discriminate|].
  destruct (is_spec_file bad); [|discriminate].
  now destruct (spec_entry bad).
Qed.

(** C4, as amended. A failure of the top-level listing gives the empty
    list. After that nothing collected is dropped: the result is what the
    top-level entries add, one after the other, up to the first top-level
    specification file whose content cannot be read, which ends the scan.
    A [docs], [api] or [specs] directory whose listing fails adds nothing,
    one with a file that cannot be read adds the references before that
    file, and in both cases the scan goes on with the entries after the
    directory. *)
Theorem detect_api_specs_on_failure :
  (forall e, (c <- get_contents repo "" ;; entries c) = Raise e ->
     _detect_api_specs repo = [])
  /\ (forall contents,
        (c <- get_contents repo "" ;; entries c) = Ret contents ->
        existsb unreadable_spec contents = false ->
        _detect_api_specs repo = flat_map (entry_specs repo) contents)
  /\ (forall pre bad post,
        (c <- get_contents repo "" ;; entries c) = Ret (pre ++ bad :: post)%list ->
        existsb unreadable_spec pre = false -> unreadable_spec bad = true ->
        _detect_api_specs repo = flat_map (entry_specs repo) pre)
  /\ (forall pre d post,
        (c <- get_contents repo "" ;; entries c) = Ret (pre ++ d :: post)%list ->
        String.eqb (cf_type d) "dir" = true ->
        existsb unreadable_spec (pre ++ post) = false ->
        _detect_api_specs repo
        = (flat_map (entry_specs repo) pre ++ directory_specs repo d
             ++ flat_map (entry_specs repo) post)%list).
Proof.
  split; [|split; [|split]].
  - intros e He. unfold _detect_api_specs. now rewrite He.
  - intros contents Hl Hok. unfold _detect_api_specs.
    now rewrite Hl, (scan_contents_readable contents [] Hok).
  - intros pre bad post Hl Hpre Hbad.
    unfold _detect_api_specs. rewrite Hl, scan_contents_app.
    rewrite (scan_contents_readable pre [] Hpre).
    now rewrite scan_contents_unreadable.
  - intros pre d post Hl Hd Hok. unfold _detect_api_specs. rewrite Hl.
    rewrite existsb_app in Hok. apply orb_false_iff in Hok. destruct Hok as [Hpre Hpost].
    rewrite scan_contents_readable.
    + cbn [fst app]. rewrite flat_map_app. cbn [flat_map].
      unfold entry_specs at 2. now rewrite Hd.
    + rewrite existsb_app. cbn [existsb]. unfold unreadable_spec at 2.
      rewrite Hpre, Hd, Hpost. reflexivity.
Qed.

End SpecScan.

(** A repository with two specification files at the top level; the
    content of the second cannot be fetched. *)
Definition openapi_file : ContentFile :=
  {| cf_name := "openapi.yaml"; cf_path := "openapi.yaml"; cf_type := "file";
     cf_decoded := Ret "openapi: 3.0.0" |}.

Definition unreadable_file : ContentFile :=
  {| cf_name := "swagger.json"; cf_path := "swagger.json"; cf_type := "file";
     cf_decoded := Raise (Failure "502 Bad Gateway") |}.

Definition half_readable_repo : Repository :=
  {| name := "gateway";
     html_url := "https://github.com/acme/gateway";
     description := None;
     homepage := None;
     topics := [];
     archived := false;
     created_at := 0;
     pushed_at := Some 0;
     stargazers_count := 0;
     forks_count := 0;
     get_contents := fun path =>
       if String.eqb path "" then Ret (Listing [openapi_file; unreadable_file])
       else Fixtures.not_found;
     get_branch := fun _ => Fixtures.unprotected_branch;
     get_commits := Ret Fixtures.no_pages;
     get_contributors := Ret Fixtures.no_pages;
     get_pulls := Ret Fixtures.no_pages |}.

(** C4 as stated fails: the scan of [half_readable_repo] meets a failure,
    and returns the reference collected before it. *)
Lemma detect_api_specs_partial_counterexample :
  snd (scan_contents half_readable_repo [openapi_file; unreadable_file] [])
    = Some (Failure "502 Bad Gateway")
  /\ _detect_api_specs half_readable_repo
     = [ {| spec_path := "openapi.yaml"; spec_type := "openapi";
            spec_content := "openapi: 3.0.0" |} ].
Proof. split; reflexivity. Qed.

(** A repository whose [docs] directory cannot be listed and whose
    [specs] directory holds three specification files, the second of
    which cannot be read; a specification file follows at the top
    level. *)
Definition docs_directory : ContentFile :=
  {| cf_name := "docs"; cf_path := "docs"; cf_type := "dir";
     cf_decoded := Raise (Failure "'decoded_content' of a directory") |}.

Definition specs_directory : ContentFile :=
  {| cf_name := "Specs"; cf_path := "Specs"; cf_type := "dir";
     cf_decoded := Raise (Failure "'decoded_content' of a directory") |}.

Definition asyncapi_file : ContentFile :=
  {| cf_name := "events.asyncapi.yaml"; cf_path := "Specs/events.asyncapi.yaml";
     cf_type := "file"; cf_decoded := Ret "asyncapi: 2.6.0" |}.

Definition unreadable_schema : ContentFile :=
  {| cf_name := "schema.graphql"; cf_path := "Specs/schema.graphql"; cf_type := "file";
     cf_decoded := Raise (Failure "502 Bad Gateway") |}.

Definition late_file : ContentFile :=
  {| cf_name := "v2.openapi.json"; cf_path := "Specs/v2.openapi.json"; cf_type := "file";
     cf_decoded := Ret "{}" |}.

Definition failing_directories_repo : Repository :=
  {| name := "events";
     html_url := "https://github.com/acme/events";
     description := None;
     homepage := None;
     topics := [];
     archived := false;
     created_at := 0;
     pushed_at := Some 0;
     stargazers_count := 0;
     forks_count := 0;
     get_contents := fun path =>
       if String.eqb path ""
       then Ret (Listing [docs_directory; specs_directory; openapi_file])
       else if String.eqb path "Specs"
       then Ret (Listing [asyncapi_file; unreadable_schema; late_file])
       else Raise (Failure "503 Service Unavailable");
     get_branch := fun _ => Fixtures.unprotected_branch;
     get_commits := Ret Fixtures.no_pages;
     get_contributors := Ret Fixtures.no_pages;
     get_pulls := Ret Fixtures.no_pages |}.

(** Neither failing directory stops the scan of [failing_directories_repo]:
    the result is what [Specs] gave before its unreadable file, then the
    top-level file that follows. *)
Lemma detect_api_specs_on_failure_witness :
  _detect_api_specs failing_directories_repo
  = [ {| spec_path := "Specs/events.asyncapi.yaml"; spec_type := "asyncapi";
         spec_content := "asyncapi: 2.6.0" |};
      {| spec_path := "openapi.yaml"; spec_type := "openapi";
         spec_content := "openapi: 3.0.0" |} ].
Proof.
  destruct (detect_api_specs_on_failure failing_directories_repo) as (_ & _ & _ & H).
  apply (H [docs_directory] specs_directory [openapi_file]); reflexivity.
Defined.

(** ** Priority score *)

(** What one [if cond: score += p] adds. *)
Definition points (cond : bool) (p : Z) : Z := if cond then p else 0.

(** The top-level file names, when the listing can be had. *)
Definition listed_files (repo : Repository) : outcome (list string) :=
  c <- get_contents repo "" ;; file_names c.

(** What an award of the guarded block adds: nothing when the listing
    fails. *)
Definition when_listed (repo : Repository) (p : list string -> Z) : Z :=
  match listed_files repo with
  | Ret files => p files
  | Raise _ => 0
  end.

(** What the ten awards of the source add, in the order of the source:
    the accounting of the code, not the table of the specification. *)
Definition rule_points (now : datetime) (repo : Repository) (pushed : datetime) : list Z :=
  [ points (days_between now pushed <=? 30) 30;
    points (180 <=? days_between now (created_at repo)) 20;
    points (0 <? stargazers_count repo) (Z.min (stargazers_count repo * 2) 50);
    points (0 <? forks_count repo) (Z.min (forks_count repo * 5) 50);
    when_listed repo (fun files => points (negb (is_nil (doc_matches files))) 30);
    when_listed repo (fun _ => points (description_has_keyword repo) 20);
    when_listed repo (fun _ => points (topics_have_keyword repo) 20);
    points (nonempty (description repo)) 10;
    points (nonempty (homepage repo)) 10;
    points (negb (is_nil (topics repo))) (Z.min (len (topics repo) * 5) 20) ].

Definition sum (l : list Z) : Z := fold_right Z.add 0 l.

Lemma sum_permutation (l l' : list Z) : Permutation l l' -> sum l = sum l'.
Proof.
  induction 1 as [| x l l' _ IH | x y l | l l' l'' _ IH1 _ IH2]; simpl.
  - reflexivity.
  - now rewrite IH.
  - lia.
  - congruence.
Qed.

Lemma award_score (cond : bool) (p : Z) (reason : string) (t : Tally) :
  fst (award cond p reason t) = fst t + points cond p.
Proof. unfold award, points. destruct cond; simpl; lia. Qed.

Lemma developer_indicators_score (repo : Repository) (t : Tally) :
  fst (developer_indicators repo t)
  = fst t
    + when_listed repo (fun files => points (negb (is_nil (doc_matches files))) 30)
    + when_listed repo (fun _ => points (description_has_keyword repo) 20)
    + when_listed repo (fun _ => points (topics_have_keyword repo) 20).
Proof.
  unfold developer_indicators, when_listed, listed_files.
  destruct (get_contents repo "") as [c|e]; cbn [bind try_except]; [|lia].
  destruct (file_names c) as [files|e]; cbn [bind try_except]; [|lia].
  now rewrite !award_score.
Qed.

(** The score of an analysis is the sum of what the ten awards add. *)
Lemma analyze_score (now : datetime) (repo : Repository) (pushed : datetime) :
  pushed_at repo = Some pushed ->
  exists res, analyze_repository_priority now repo = Ret res
              /\ a_score res = sum (rule_points now repo pushed)
              /\ a_name res = name repo.
Proof.
  intros Hp. unfold analyze_repository_priority. rewrite Hp. cbn [the_datetime bind].
  eexists. split; [reflexivity|]. split; [|reflexivity]. cbn [a_score].
  rewrite !award_score, developer_indicators_score, !award_score.
  unfold rule_points, sum. cbn [fold_right fst]. lia.
Qed.

Lemma analyze_returns_iff (now : datetime) (repo : Repository) :
  (exists res, analyze_repository_priority now repo = Ret res)
  <-> exists pushed, pushed_at repo = Some pushed.
Proof.
  split.
  - intros [res H]. destruct (pushed_at repo) as [p|] eqn:Hp; [now exists p|].
    unfold analyze_repository_priority in H. rewrite Hp in H. discriminate.
  - intros [p Hp]. destruct (analyze_score now repo p Hp) as (res & H & _).
    now exists res.
Qed.

Lemma days_between_ago (now n : Z) : days_between now (now - Fixtures.days n) = n.
Proof.
  unfold days_between, Fixtures.days.
  replace (now - (now - n * microseconds_per_day)) with (n * microseconds_per_day) by lia.
  now apply Z.div_mul.
Qed.

(** Pushed five days before [now], created four hundred days before, five
    stars, one fork, the description "REST client SDK", a README, no
    homepage, no topics. *)
Definition sdk_repo (now : datetime) : Repository :=
  {| name := "rest-client";
     html_url := "https://github.com/acme/rest-client";
     description := Some "REST client SDK";
     homepage := None;
     topics := [];
     archived := false;
     created_at := now - Fixtures.days 400;
     pushed_at := Some (now - Fixtures.days 5);
     stargazers_count := 5;
     forks_count := 1;
     get_contents := Fixtures.tree ["README.md"; "src"];
     get_branch := fun _ => Fixtures.unprotected_branch;
     get_commits := Ret Fixtures.no_pages;
     get_contributors := Ret Fixtures.no_pages;
     get_pulls := Ret Fixtures.no_pages |}.

Lemma sdk_repo_points (now : datetime) :
  rule_points now (sdk_repo now) (now - Fixtures.days 5)
  = [30; 20; 10; 5; 30; 20; 0; 10; 0; 0].
Proof.
  unfold rule_points. cbn [created_at sdk_repo].
  rewrite !days_between_ago. reflexivity.
Qed.

(** *** The table of the specification

    One function per rule of the table, each of the signal the table
    names and of nothing else. *)

(** pushed within 30 days: +30 *)
Definition recency_points (days_since_push : Z) : Z :=
  if days_since_push <=? 30 then 30 else 0.

(** created at least 180 days ago: +20 *)
Definition age_points (days_since_creation : Z) : Z :=
  if 180 <=? days_since_creation then 20 else 0.

(** stargazers: +2 each, cap 50 *)
Definition star_points (stars : Z) : Z := Z.min (2 * stars) 50.

(** forks: +5 each, cap 50 *)
Definition fork_points (forks : Z) : Z := Z.min (5 * forks) 50.

(** The name contains one of the indicator names, whatever the case of
    the letters. *)
Definition indicator_file (file : string) : bool :=
  existsb (fun indicator => contains (lower indicator) (lower file)) dev_files.

(** has any doc/API indicator file: +30 *)
Definition indicator_points (files : list string) : Z :=
  if existsb indicator_file files then 30 else 0.

(** The text contains an API/SDK keyword. *)
Definition has_keyword (text : string) : bool :=
  existsb (fun keyword => contains keyword (lower text)) api_keywords.

(** description contains an API/SDK keyword: +20 *)
Definition description_keyword_points (description : option string) : Z :=
  match description with
  | Some text => if has_keyword text then 20 else 0
  | None => 0
  end.

(** any topic contains an API/SDK keyword: +20 *)
Definition topic_keyword_points (topics : list string) : Z :=
  if existsb has_keyword topics then 20 else 0.

(** has description: +10 *)
Definition description_points (description : option string) : Z :=
  if nonempty description then 10 else 0.

(** has homepage: +10 *)
Definition homepage_points (homepage : option string) : Z :=
  if nonempty homepage then 10 else 0.

(** topic count: +5 each, cap 20 *)
Definition topic_count_points (topics : list string) : Z :=
  Z.min (5 * len topics) 20.

(** The three rules the source evaluates inside the block that lists the
    repository root. *)
Definition guarded_points (files : list string) (description : option string)
  (topics : list string) : list Z :=
  [ indicator_points files;
    description_keyword_points description;
    topic_keyword_points topics ].

(** The seven rules outside that block. *)
Definition unguarded_points (days_since_push days_since_creation stars forks : Z)
  (description homepage : option string) (topics : list string) : list Z :=
  [ recency_points days_since_push;
    age_points days_since_creation;
    star_points stars;
    fork_points forks;
    description_points description;
    homepage_points homepage;
    topic_count_points topics ].

(** The ten rules of the table. *)
Definition table_points (days_since_push days_since_creation stars forks : Z)
  (files : list string) (description homepage : option string) (topics : list string)
  : list Z :=
  (unguarded_points days_since_push days_since_creation stars forks description homepage
     topics
   ++ guarded_points files description topics)%list.

Lemma sum_app (l l' : list Z) : sum (l ++ l') = sum l + sum l'.
Proof. induction l as [|x l IH]; simpl; [reflexivity | rewrite IH; lia]. Qed.

Lemma doc_matches_indicator (files : list string) :
  negb (is_nil (doc_matches files)) = existsb indicator_file files.
Proof.
  unfold doc_matches. induction files as [|f rest IH]; [reflexivity|].
  cbn [filter existsb]. fold (indicator_file f).
  destruct (indicator_file f); [reflexivity | exact IH].
Qed.

Lemma description_keyword_table (repo : Repository) :
  points (description_has_keyword repo) 20
  = description_keyword_points (description repo).
Proof.
  unfold description_has_keyword, description_keyword_points, points.
  destruct (description repo) as [[|c r]|]; reflexivity.
Qed.

Lemma topic_keyword_table (repo : Repository) :
  points (topics_have_keyword repo) 20 = topic_keyword_points (topics repo).
Proof. reflexivity. Qed.

Lemma unguarded_table (now : datetime) (repo : Repository) (pushed : datetime) :
  0 <= stargazers_count repo -> 0 <= forks_count repo ->
  sum (unguarded_points (days_between now pushed) (days_between now (created_at repo))
         (stargazers_count repo) (forks_count repo) (description repo) (homepage repo)
         (topics repo))
  = points (days_between now pushed <=? 30) 30
    + points (180 <=? days_between now (created_at repo)) 20
    + points (0 <? stargazers_count repo) (Z.min (stargazers_count repo * 2) 50)
    + points (0 <? forks_count repo) (Z.min (forks_count repo * 5) 50)
    + points (nonempty (description repo)) 10
    + points (nonempty (homepage repo)) 10
    + points (negb (is_nil (topics repo))) (Z.min (len (topics repo) * 5) 20).
Proof.
  intros Hs Hf. unfold unguarded_points, sum, points, recency_points, age_points,
    star_points, fork_points, description_points, homepage_points, topic_count_points.
  cbn [fold_right].
  destruct (Z.ltb_spec 0 (stargazers_count repo)), (Z.ltb_spec 0 (forks_count repo));
    destruct (topics repo) as [|t ts]; cbn [is_nil negb];
    try (replace (len (@nil string)) with 0 by reflexivity); lia.
Qed.

(** The score against the table: all ten rules when the root is listed,
    the seven unguarded ones when it is not. *)
Lemma analyze_score_table (now : datetime) (repo : Repository) (pushed : datetime) :
  pushed_at repo = Some pushed ->
  0 <= stargazers_count repo -> 0 <= forks_count repo ->
  exists res,
    analyze_repository_priority now repo = Ret res
    /\ a_score res
       = sum (unguarded_points (days_between now pushed)
                (days_between now (created_at repo)) (stargazers_count repo)
                (forks_count repo) (description repo) (homepage repo) (topics repo))
         + match listed_files repo with
           | Ret files => sum (guarded_points files (description repo) (topics repo))
           | Raise _ => 0
           end.
Proof.
  intros Hp Hs Hf.
  destruct (analyze_score now repo pushed Hp) as (res & Hres & Hscore & _).
  exists res. split; [exact Hres|]. rewrite Hscore, (unguarded_table now repo pushed Hs Hf).
  unfold rule_points, sum at 1, when_listed. cbn [fold_right].
  rewrite description_keyword_table, topic_keyword_table.
  destruct (listed_files repo) as [files|e].
  - unfold guarded_points, sum, indicator_points. cbn [fold_right].
    rewrite <- doc_matches_indicator. unfold points. lia.
  - lia.
Qed.

(** C6, as amended. The score is the sum of rules of the table, added in
    any order, each rule giving what its own signal earns whatever the
    other signals are: all ten rules when the listing of the repository
    root is read, and only the seven rules outside the guarded block when
    that listing fails, whatever the description and the topics then say.
    The repository of the scenario, whose README is listed, scores 125. *)
Theorem priority_score_additive :
  (forall now repo pushed files pts,
      pushed_at repo = Some pushed ->
      0 <= stargazers_count repo -> 0 <= forks_count repo ->
      listed_files repo = Ret files ->
      Permutation pts
        (table_points (days_between now pushed) (days_between now (created_at repo))
           (stargazers_count repo) (forks_count repo) files (description repo)
           (homepage repo) (topics repo)) ->
      exists res, analyze_repository_priority now repo = Ret res
                  /\ a_score res = sum pts)
  /\ (forall now repo pushed e pts,
        pushed_at repo = Some pushed ->
        0 <= stargazers_count repo -> 0 <= forks_count repo ->
        listed_files repo = Raise e ->
        Permutation pts
          (unguarded_points (days_between now pushed)
             (days_between now (created_at repo)) (stargazers_count repo)
             (forks_count repo) (description repo) (homepage repo) (topics repo)) ->
        exists res, analyze_repository_priority now repo = Ret res
                    /\ a_score res = sum pts)
  /\ (forall now,
        exists res, analyze_repository_priority now (sdk_repo now) = Ret res
                    /\ a_score res = 30 + 20 + 10 + 5 + 30 + 20 + 10
                    /\ a_score res = 125).
Proof.
  split; [|split].
  - intros now repo pushed files pts Hp Hs Hf Hl Hperm.
    destruct (analyze_score_table now repo pushed Hp Hs Hf) as (res & Hres & Hscore).
    exists res. split; [exact Hres|]. rewrite Hscore, Hl.
    rewrite (sum_permutation _ _ Hperm). unfold table_points. now rewrite sum_app.
  - intros now repo pushed e pts Hp Hs Hf Hl Hperm.
    destruct (analyze_score_table now repo pushed Hp Hs Hf) as (res & Hres & Hscore).
    exists res. split; [exact Hres|]. rewrite Hscore, Hl.
    rewrite (sum_permutation _ _ Hperm). lia.
  - intros now.
    destruct (analyze_score now (sdk_repo now) _ eq_refl) as (res & Hres & Hs & _).
    exists res. split; [assumption|]. rewrite Hs, sdk_repo_points. split; reflexivity.
Qed.

(** The scenario at clock reading 0, the ten rules of the table added last
    to first. *)
Lemma priority_score_additive_witness :
  exists res, analyze_repository_priority 0 (sdk_repo 0) = Ret res
              /\ a_score res = sum [0; 20; 30; 0; 0; 10; 5; 10; 20; 30].
Proof.
  apply (proj1 priority_score_additive 0 (sdk_repo 0) (0 - Fixtures.days 5)
           ["README.md"; "src"]).
  - reflexivity.
  - cbn. lia.
  - cbn. lia.
  - reflexivity.
  - cbn [created_at sdk_repo]. rewrite !days_between_ago.
    apply Permutation_sym, (Permutation_rev [30; 20; 10; 5; 10; 0; 0; 30; 20; 0]).
Defined.

(** The repository of the scenario when the listing of its root fails. *)
Definition unlisted_sdk_repo : Repository :=
  {| name := "rest-client";
     html_url := "https://github.com/acme/rest-client";
     description := Some "REST client SDK";
     homepage := None;
     topics := [];
     archived := false;
     created_at := 0 - Fixtures.days 400;
     pushed_at := Some (0 - Fixtures.days 5);
     stargazers_count := 5;
     forks_count := 1;
     get_contents := fun _ => Raise (Failure "503 Service Unavailable");
     get_branch := fun _ => Fixtures.unprotected_branch;
     get_commits := Ret Fixtures.no_pages;
     get_contributors := Ret Fixtures.no_pages;
     get_pulls := Ret Fixtures.no_pages |}.

(** C6 as stated fails: the rule of the description keyword is not
    independent of the listing. The description of [unlisted_sdk_repo]
    earns its 20 points by the table, which gives 95 without any
    indicator file; the code gives 75. *)
Lemma priority_score_listing_counterexample :
  description_keyword_points (description unlisted_sdk_repo) = 20
  /\ sum (table_points 5 400 5 1 [] (description unlisted_sdk_repo)
            (homepage unlisted_sdk_repo) (topics unlisted_sdk_repo)) = 95
  /\ exists res, analyze_repository_priority 0 unlisted_sdk_repo = Ret res
                 /\ a_score res = 75.
Proof.
  split; [reflexivity|]. split; [reflexivity|].
  eexists. split; reflexivity.
Qed.

Lemma points_bounds (cond : bool) (p : Z) : 0 <= p -> 0 <= points cond p <= p.
Proof. unfold points. destruct cond; lia. Qed.

(** A contribution of [k] points each, capped, awarded for a positive
    count. *)
Lemma capped_points_bounds (n k cap : Z) (cond : bool) :
  0 < k -> 0 <= cap -> (cond = true -> 0 <= n) ->
  0 <= points cond (Z.min (n * k) cap) <= cap.
Proof.
  intros Hk Hc Hn. unfold points. destruct cond; [|lia].
  specialize (Hn eq_refl). nia.
Qed.

Lemma when_listed_bounds (repo : Repository) (p : list string -> Z) (cap : Z) :
  (forall files, 0 <= p files <= cap) -> 0 <= cap -> 0 <= when_listed repo p <= cap.
Proof.
  intros H Hc. unfold when_listed. destruct (listed_files repo); [apply H | lia].
Qed.

(** Every feature at or above its cap. *)
Definition popular_repo (now : datetime) : Repository :=
  {| name := "platform-api";
     html_url := "https://github.com/acme/platform-api";
     description := Some "Developer toolkit";
     homepage := Some "https://platform.acme.example";
     topics := ["api"; "sdk"; "http"; "rest"];
     archived := false;
     created_at := now - Fixtures.days 180;
     pushed_at := Some (now - Fixtures.days 30);
     stargazers_count := 25;
     forks_count := 10;
     get_contents := Fixtures.tree ["docs"; "main.py"];
     get_branch := fun _ => Fixtures.unprotected_branch;
     get_commits := Ret Fixtures.no_pages;
     get_contributors := Ret Fixtures.no_pages;
     get_pulls := Ret Fixtures.no_pages |}.

(** C10: the score of every analysis that is returned lies between 0 and
    260, the sum of the ten contributions at their caps. *)
Theorem priority_score_bounds (now : datetime) (repo : Repository) (res : Analysis) :
  analyze_repository_priority now repo = Ret res ->
  0 <= a_score res <= 260
  /\ 260 = 30 + 20 + 50 + 50 + 30 + 20 + 20 + 10 + 10 + 20.
Proof.
  intros H. split; [|reflexivity].
  destruct (proj1 (analyze_returns_iff now repo) (ex_intro _ res H)) as [pushed Hp].
  destruct (analyze_score now repo pushed Hp) as (res' & H' & Hs & _).
  rewrite H in H'. injection H' as <-. rewrite Hs.
  unfold rule_points, sum. cbn [fold_right].
  pose proof (points_bounds (days_between now pushed <=? 30) 30).
  pose proof (points_bounds (180 <=? days_between now (created_at repo)) 20).
  pose proof (capped_points_bounds (stargazers_count repo) 2 50
                (0 <? stargazers_count repo)) as Hstars.
  pose proof (capped_points_bounds (forks_count repo) 5 50
                (0 <? forks_count repo)) as Hforks.
  pose proof (capped_points_bounds (len (topics repo)) 5 20
                (negb (is_nil (topics repo)))) as Htopics.
  pose proof (when_listed_bounds repo
                (fun files => points (negb (is_nil (doc_matches files))) 30) 30
                (fun files => points_bounds _ 30 ltac:(lia))).
  pose proof (when_listed_bounds repo
                (fun _ => points (description_has_keyword repo) 20) 20
                (fun _ => points_bounds _ 20 ltac:(lia))).
  pose proof (when_listed_bounds repo
                (fun _ => points (topics_have_keyword repo) 20) 20
                (fun _ => points_bounds _ 20 ltac:(lia))).
  pose proof (points_bounds (nonempty (description repo)) 10).
  pose proof (points_bounds (nonempty (homepage repo)) 10).
  assert (0 <= len (topics repo)) by (unfold len; lia).
  specialize (Hstars ltac:(lia) ltac:(lia) ltac:(lia)).
  specialize (Hforks ltac:(lia) ltac:(lia) ltac:(lia)).
  specialize (Htopics ltac:(lia) ltac:(lia) ltac:(lia)).
  lia.
Qed.

(** [popular_repo] reaches the bound. *)
Lemma priority_score_bounds_witness :
  exists res, analyze_repository_priority 0 (popular_repo 0) = Ret res
              /\ a_score res = 260
              /\ 0 <= a_score res <= 260.
Proof.
  eexists. split; [reflexivity|]. split; [reflexivity|].
  apply (priority_score_bounds 0 (popular_repo 0)). reflexivity.
Defined.

(** ** Priority report *)

(** The descriptor lookup of the repository returns: what the code takes
    for a repository that has a descriptor. A descriptor that is committed
    but whose lookup fails counts as absent. *)
Definition has_descriptor (repo : Repository) : bool :=
  match get_contents repo "catalog-info.yaml" with
  | Ret _ => true
  | Raise _ => false
  end.



(** Where an entry of the list comes from. *)
Definition selected (now : datetime) (repos : list Repository) (a : Analysis) : Prop :=
  exists repo, In repo repos /\ has_descriptor repo = false
               /\ analyze_repository_priority now repo = Ret a
               /\ 30 < a_score a.

Lemma priority_loop_selected (now : datetime) (repos : list Repository)
  (acc : list Analysis) (a : Analysis) :
  In a (fold_left (priority_step now) repos acc) -> In a acc \/ selected now repos a.
Proof.
  revert acc. induction repos as [|r rest IH]; intros acc H; [now left|].
  simpl in H. apply IH in H. destruct H as [H | (repo & Hin & Hrest)].
  - unfold priority_step in H.
    destruct (get_contents r "catalog-info.yaml") as [d|e] eqn:Hd; [now left|].
    destruct (analyze_repository_priority now r) as [res|e'] eqn:Hres; [|now left].
    destruct (Z.ltb_spec 30 (a_score res)); [|now left].
    unfold append in H. apply in_app_or in H. destruct H as [H | [<- | []]]; [now left|].
    right. exists r. unfold has_descriptor. rewrite Hd.
    repeat split; auto. now left.
  - right. exists repo. split; [now right | exact Hrest].
Qed.

Lemma insert_desc_in (x a : Analysis) (l : list Analysis) :
  In a (insert_desc x l) -> a = x \/ In a l.
Proof.
  induction l as [|y rest IH]; simpl.
  - intros [<- | []]. now left.
  - destruct (a_score y <=? a_score x); simpl.
    + intros [<- | H]; [now left | now right].
    + intros [<- | H]; [right; now left|].
      destruct (IH H); [now left | right; now right].
Qed.

Lemma sort_by_score_desc_in (a : Analysis) (l : list Analysis) :
  In a (sort_by_score_desc l) -> In a l.
Proof.
  induction l as [|x rest IH]; simpl; [tauto|].
  intros H. apply insert_desc_in in H. destruct H as [-> | H]; [now left|].
  right. now apply IH.
Qed.

Lemma firstn_in {A} (n : nat) (l : list A) (a : A) : In a (firstn n l) -> In a l.
Proof.
  intros H. rewrite <- (firstn_skipn n l). apply in_or_app. now left.
Qed.
















(** ** Secure storage *)

Section PyValInduction.

Variable P : PyVal -> Prop.
Hypothesis HNone : P PNone.
Hypothesis HBool : forall b, P (PBool b).
Hypothesis HInt : forall n, P (PInt n).
Hypothesis HStr : forall s, P (PStr s).
Hypothesis HList : forall items, Forall P items -> P (PList items).
Hypothesis HDict :
  forall items, Forall (fun kv : PyKey * PyVal => P (snd kv)) items -> P (PDict items).


End PyValInduction.

Lemma PyKey_eqb_eq (a b : PyKey) : PyKey_eqb a b = true <-> a = b.
Proof.
  destruct a as [s|n], b as [t|m]; simpl; split; try discriminate.
  - intros H. apply String.eqb_eq in H. now subst.
  - intros [= ->]. apply String.eqb_refl.
  - intros H. apply Z.eqb_eq in H. now subst.
  - intros [= ->]. apply Z.eqb_refl.
Qed.



Lemma existsb_app_false {A} (f : A -> bool) (l l' : list A) :
  existsb f l = false -> existsb f l' = false -> existsb f (l ++ l') = false.
Proof. intros H H'. now rewrite existsb_app, H, H'. Qed.




(** A stand-in for the libraries: the text is the document, the token is
    the text with its nonce. *)
#[local] Instance plain_libraries : Libraries :=
  {| Text := Json;
     Token := nat * Json;
     Nonce := nat;
     json_write := fun j => j;
     json_read := fun t => Ret t;
     fernet_encrypt := fun n t => (n, t);
     fernet_decrypt := fun k => Ret (snd k) |}.

#[local] Instance plain_libraries_lawful : Lawful plain_libraries.
Proof. split; reflexivity. Qed.

Section SecureStorageProperties.

Import SecureStorage.

Context {L : Libraries} {HL : Lawful L}.

Variable storage_path : string.


Lemma read_other_after_write (fs : FileSystem) (path path' : string) (data : Token) :
  path' <> path -> read_file (write_file fs path' data) path = read_file fs path.
Proof.
  intros H. unfold write_file. simpl.
  destruct (String.eqb_spec path' path); [contradiction | reflexivity].
Qed.




(** Saving under another path leaves the answer for this organisation. *)
Lemma load_after_other_save (nonce : Nonce) (fs : FileSystem)
  (org_name other : string) (config : PyVal) :
  file_path storage_path other <> file_path storage_path org_name ->
  load_org_config storage_path
    (save_org_config storage_path nonce fs other config) org_name
  = load_org_config storage_path fs org_name.
Proof.
  intros H. unfold load_org_config, save_org_config.
  now rewrite read_other_after_write.
Qed.


End SecureStorageProperties.

(** The configuration the dashboard saves. *)
Definition dashboard_config : PyVal :=
  PDict [ (KStr "github_token", PStr "ghp_0123456789");
          (KStr "backstage_url", PStr "https://backstage.acme.example");
          (KStr "github_api_url", PNone) ].




(** An organisation name that is an absolute path names the file by
    itself: saved under ["/srv/secure_storage/acme"], the configuration is
    what ["acme"], never saved, loads. *)
Example load_absolute_name_alias :
  SecureStorage.load_org_config (L := plain_libraries) "/srv/secure_storage"
    (SecureStorage.save_org_config "/srv/secure_storage" 7%nat []
       "/srv/secure_storage/acme" dashboard_config)
    "acme"
  = Ret (Some dashboard_config).
Proof. reflexivity. Qed.

(** * Further properties of the classification *)

Lemma any_contents_false (repo : Repository) (files : list string) :
  any_contents repo files = Ret false ->
  Forall (fun f => exists c, get_contents repo f = Ret c /\ truthy c = false) files.
Proof.
  induction files as [|f rest IH]; simpl; intros H; [constructor|].
  destruct (get_contents repo f) as [c|e] eqn:Hc; [|discriminate].
  cbn [bind] in H. destruct (truthy c) eqn:Ht; [discriminate|].
  constructor; [now exists c | now apply IH].
Qed.

(** The component type is ["website"] or ["library"] only for a
    repository each of whose four service-indicator lookups returned,
    without raising, an object that is falsy. *)
Theorem component_type_other_than_service (repo : Repository) :
  _determine_component_type repo <> "service" ->
  Forall (fun f => exists c, get_contents repo f = Ret c /\ truthy c = false)
    service_files
  /\ (_determine_component_type repo = "website"
      \/ _determine_component_type repo = "library").
Proof.
  unfold _determine_component_type.
  destruct (any_contents repo service_files) as [[|]|e] eqn:Hs;
    cbn [bind try_except]; try congruence.
  intros H. split; [now apply any_contents_false|].
  destruct (any_contents repo website_files) as [[|]|e];
    cbn [bind try_except] in *; try congruence; [now left|].
  destruct (any_contents repo library_files) as [[|]|e];
    cbn [bind try_except] in *; try congruence. now right.
Qed.

(** A repository whose API never raises: a path that is not there is
    answered with an empty listing. *)
Definition quiet_repo (files : list string) : Repository :=
  {| name := "quiet";
     html_url := "https://github.com/acme/quiet";
     description := None;
     homepage := None;
     topics := [];
     archived := false;
     created_at := 0;
     pushed_at := Some 0;
     stargazers_count := 0;
     forks_count := 0;
     get_contents := fun path =>
       if mem path files then Ret (File (Fixtures.file_at path)) else Ret (Listing []);
     get_branch := fun _ => Ret {| get_protection := Ret false |};
     get_commits := Ret {| totalCount := Ret 5; next := Ret tt; iter := Done |};
     get_contributors := Ret Fixtures.no_pages;
     get_pulls := Ret Fixtures.no_pages |}.

Lemma component_type_other_than_service_witness :
  _determine_component_type (quiet_repo ["package.json"]) = "website"
  /\ Forall (fun f => exists c, get_contents (quiet_repo ["package.json"]) f = Ret c
                                /\ truthy c = false)
       service_files.
Proof.
  split; [reflexivity|].
  apply (component_type_other_than_service (quiet_repo ["package.json"])).
  vm_compute. discriminate.
Defined.

(** The lifecycle is ["experimental"] or ["development"] only for a
    repository that is not archived and whose protection lookup on the
    main branch returned, without raising, a falsy object. *)
Theorem lifecycle_experimental_or_development (now : datetime) (repo : Repository) :
  _determine_lifecycle now repo = "experimental"
  \/ _determine_lifecycle now repo = "development" ->
  archived repo = false
  /\ exists b, get_branch repo base_branch = Ret b /\ get_protection b = Ret false.
Proof.
  unfold _determine_lifecycle.
  destruct (archived repo); cbn [try_except]; [intros [H|H]; discriminate|].
  destruct (get_branch repo base_branch) as [b|e]; cbn [bind try_except];
    [|intros [H|H]; discriminate].
  destruct (get_protection b) as [[|]|e] eqn:Hp; cbn [bind try_except];
    try (intros [H|H]; discriminate).
  intros _. split; [reflexivity|]. now exists b.
Qed.

Lemma lifecycle_experimental_or_development_witness :
  _determine_lifecycle (Fixtures.days 10) (quiet_repo []) = "experimental"
  /\ exists b, get_branch (quiet_repo []) base_branch = Ret b
               /\ get_protection b = Ret false.
Proof.
  split; [reflexivity|].
  apply (lifecycle_experimental_or_development (Fixtures.days 10) (quiet_repo [])).
  left. reflexivity.
Defined.

(** The owner when CODEOWNERS names no team and there is a top
    contributor. A team lookup that returns at least one team gives that
    team's name; a team lookup that returns none gives ["default-team"];
    and the contributor, as [user:<login>], is the owner only when the
    team lookup, its count or its first team raises. *)
Theorem owner_from_top_contributor (org : Organization) (repo : Repository)
  (contributors : PaginatedList NamedUser) (n : Z) (top : NamedUser) :
  codeowners_team repo = None ->
  get_contributors repo = Ret contributors ->
  totalCount contributors = Ret n -> 0 < n ->
  next contributors = Ret top ->
  _determine_owner org repo
  = match get_user_teams org top with
    | Raise _ => "user:" ++ login top
    | Ret teams =>
        match totalCount teams with
        | Raise _ => "user:" ++ login top
        | Ret m =>
            if 0 <? m
            then match next teams with
                 | Ret t => team_name t
                 | Raise _ => "user:" ++ login top
                 end
            else "default-team"
        end
    end.
Proof.
  intros Hc Hg Hn Hpos Ht. unfold _determine_owner.
  rewrite Hc, Hg. cbn [bind]. rewrite Hn. cbn [bind].
  destruct (Z.ltb_spec 0 n); [|lia].
  rewrite Ht. cbn [bind]. unfold contributor_team.
  destruct (get_user_teams org top) as [teams|e]; cbn [bind try_except]; [|reflexivity].
  destruct (totalCount teams) as [m|e]; cbn [bind try_except]; [|reflexivity].
  destruct (0 <? m); [|reflexivity].
  destruct (next teams); reflexivity.
Qed.

Lemma owner_from_top_contributor_witness :
  _determine_owner org_without_teams alice_repo = "default-team".
Proof.
  apply (owner_from_top_contributor org_without_teams alice_repo
           {| totalCount := Ret 1; next := Ret alice; iter := Item alice Done |}
           1 alice); first [reflexivity | lia].
Defined.

(** ** Strings *)

Lemma string_app_assoc (a b c : string) : (a ++ b) ++ c = a ++ (b ++ c).
Proof. induction a as [|x a IH]; simpl; [reflexivity | now rewrite IH]. Qed.

Lemma string_app_nil_r (a : string) : a ++ "" = a.
Proof. induction a as [|x a IH]; simpl; [reflexivity | now rewrite IH]. Qed.

Lemma string_length_app (a b : string) :
  String.length (a ++ b) = (String.length a + String.length b)%nat.
Proof. induction a as [|x a IH]; simpl; [reflexivity | now rewrite IH]. Qed.

(** ** The owner read from CODEOWNERS *)

Fixpoint all_chars (p : ascii -> bool) (s : string) : bool :=
  match s with
  | EmptyString => true
  | String c rest => (p c && all_chars p rest)%bool
  end.













(** * Further properties of the status report *)

(** The pull-request lookup of a repository, as the loop body runs it. *)
Definition integration_pr_lookup (repo : Repository) : outcome (option PullRequest) :=
  open_prs <- get_pulls repo ;; find_integration_pr (iter open_prs).

(** The four ways the body of the loop can end for a repository. *)
Definition ends_onboarded (repo : Repository) : bool := has_descriptor repo.
Definition ends_in_progress (repo : Repository) : bool :=
  (negb (has_descriptor repo)
   && match integration_pr_lookup repo with Ret (Some _) => true | _ => false end)%bool.
Definition ends_not_onboarded (repo : Repository) : bool :=
  (negb (has_descriptor repo)
   && match integration_pr_lookup repo with Ret None => true | _ => false end)%bool.
Definition ends_in_error (repo : Repository) : bool :=
  (negb (has_descriptor repo)
   && match integration_pr_lookup repo with Raise _ => true | _ => false end)%bool.

Definition count (p : Repository -> bool) (repos : list Repository) : Z :=
  len (filter p repos).

Lemma count_cons (p : Repository -> bool) (r : Repository) (rest : list Repository) :
  count p (r :: rest) = (if p r then 1 else 0) + count p rest.
Proof. unfold count, len. simpl. destruct (p r); simpl List.length; lia. Qed.

Lemma status_step_counts (c : Counters) (report : list string) (r : Repository) :
  let c' := fst (status_step (c, report) r) in
  total c' = total c + 1
  /\ onboarded c' = onboarded c + (if ends_onboarded r then 1 else 0)
  /\ in_progress c' = in_progress c + (if ends_in_progress r then 1 else 0)
  /\ not_onboarded c' = not_onboarded c + (if ends_not_onboarded r then 1 else 0).
Proof.
  cbv zeta.
  unfold ends_onboarded, ends_in_progress, ends_not_onboarded, has_descriptor,
    integration_pr_lookup, status_step.
  destruct (get_contents r "catalog-info.yaml") as [d|e].
  - simpl. repeat split; lia.
  - destruct (bind (get_pulls r) _) as [[pr|]|e']; simpl; repeat split; lia.
Qed.

Lemma status_loop_counts (repos : list Repository) (c : Counters) (report : list string) :
  let c' := fst (status_loop repos (c, report)) in
  total c' = total c + len repos
  /\ onboarded c' = onboarded c + count ends_onboarded repos
  /\ in_progress c' = in_progress c + count ends_in_progress repos
  /\ not_onboarded c' = not_onboarded c + count ends_not_onboarded repos.
Proof.
  revert c report. induction repos as [|r rest IH]; intros c report.
  - cbv zeta. unfold count, len. simpl. lia.
  - cbv zeta. change (status_loop (r :: rest) (c, report))
      with (status_loop rest (status_step (c, report) r)).
    rewrite !count_cons.
    replace (len (r :: rest)) with (1 + len rest) by (unfold len; simpl List.length; lia).
    pose proof (status_step_counts c report r) as Hstep. cbv zeta in Hstep.
    destruct (status_step (c, report) r) as [c1 r1]. cbn [fst] in Hstep.
    destruct (IH c1 r1) as (H1 & H2 & H3 & H4).
    destruct Hstep as (S1 & S2 & S3 & S4).
    rewrite H1, H2, H3, H4, S1, S2, S3, S4. repeat split; lia.
Qed.

Lemma ends_exactly_one (repo : Repository) :
  (if ends_onboarded repo then 1 else 0) + (if ends_in_progress repo then 1 else 0)
  + (if ends_not_onboarded repo then 1 else 0) + (if ends_in_error repo then 1 else 0) = 1.
Proof.
  unfold ends_onboarded, ends_in_progress, ends_not_onboarded, ends_in_error.
  destruct (has_descriptor repo); simpl; [reflexivity|].
  destruct (integration_pr_lookup repo) as [[pr|]|e]; reflexivity.
Qed.

Lemma counts_partition (repos : list Repository) :
  count ends_onboarded repos + count ends_in_progress repos
  + count ends_not_onboarded repos + count ends_in_error repos = len repos.
Proof.
  induction repos as [|r rest IH]; [reflexivity|].
  rewrite !count_cons. pose proof (ends_exactly_one r).
  replace (len (r :: rest)) with (1 + len rest) by (unfold len; simpl List.length; lia).
  lia.
Qed.

(** The counters of a status report: the total is the number of
    repositories, each of the three counters is the number of
    repositories that ended that way, and what the three leave of the total
    is the number of repositories reported with an Error line. *)
Theorem status_counts_partition (org : Organization) (self_status_report : list string) :
  let c := status_counts org self_status_report in
  total c = len (get_repos org)
  /\ onboarded c = count ends_onboarded (get_repos org)
  /\ in_progress c = count ends_in_progress (get_repos org)
  /\ not_onboarded c = count ends_not_onboarded (get_repos org)
  /\ total c - (onboarded c + in_progress c + not_onboarded c)
     = count ends_in_error (get_repos org).
Proof.
  cbv zeta. unfold status_counts.
  destruct (status_loop_counts (get_repos org) zero_counters self_status_report)
    as (H1 & H2 & H3 & H4).
  cbv zeta in H1, H2, H3, H4. rewrite H1, H2, H3, H4.
  pose proof (counts_partition (get_repos org)).
  cbn [zero_counters total onboarded in_progress not_onboarded]. lia.
Qed.

(** * Further properties of the priority report *)

From Stdlib Require Import Sorting.Sorted.

(** Scores from high to low. *)
Definition descending (l : list Analysis) : Prop :=
  StronglySorted (fun a b => a_score b <= a_score a) l.

Lemma insert_desc_perm (x : Analysis) (l : list Analysis) :
  Permutation (insert_desc x l) (x :: l).
Proof.
  induction l as [|y rest IH]; simpl; [reflexivity|].
  destruct (a_score y <=? a_score x); [reflexivity|].
  rewrite IH. apply perm_swap.
Qed.

Lemma sort_by_score_desc_perm (l : list Analysis) :
  Permutation (sort_by_score_desc l) l.
Proof.
  induction l as [|x rest IH]; simpl; [reflexivity|].
  rewrite insert_desc_perm. now constructor.
Qed.

Lemma insert_desc_descending (x : Analysis) (l : list Analysis) :
  descending l -> descending (insert_desc x l).
Proof.
  unfold descending. induction 1 as [|y rest Hs IH Hy]; simpl.
  - repeat constructor.
  - destruct (Z.leb_spec (a_score y) (a_score x)).
    + constructor; [now constructor|].
      constructor; [assumption|].
      eapply Forall_impl; [|exact Hy]. simpl. intros; lia.
    + constructor; [assumption|].
      eapply Permutation_Forall; [symmetry; apply insert_desc_perm|].
      constructor; [lia | assumption].
Qed.

Lemma sort_by_score_desc_descending (l : list Analysis) :
  descending (sort_by_score_desc l).
Proof.
  induction l as [|x rest IH]; simpl; [constructor | now apply insert_desc_descending].
Qed.

Lemma descending_split (n : nat) (l : list Analysis) :
  descending l ->
  descending (firstn n l)
  /\ forall a b, In a (firstn n l) -> In b (skipn n l) -> a_score b <= a_score a.
Proof.
  unfold descending. revert n. induction l as [|x rest IH]; intros n Hs.
  - rewrite firstn_nil, skipn_nil. split; [constructor | intros a b []].
  - destruct n as [|n]; [split; [constructor | intros a b []]|].
    inversion Hs as [|? ? Hrest Hx]; subst.
    destruct (IH n Hrest) as [Hf Hsplit]. simpl. split.
    + constructor; [assumption|].
      rewrite Forall_forall in *. intros a Ha. apply Hx. eapply firstn_in; eauto.
    + intros a b [<- | Ha] Hb; [|now apply Hsplit].
      rewrite Forall_forall in Hx. apply Hx.
      rewrite <- (firstn_skipn n rest). apply in_or_app. now right.
Qed.

Lemma priority_entries_selected (now : datetime) (org : Organization) (a : Analysis) :
  In a (priority_entries now org) -> selected now (get_repos org) a.
Proof.
  intros Ha. unfold priority_entries in Ha.
  apply firstn_in in Ha. apply sort_by_score_desc_in in Ha.
  unfold analysis_loop in Ha.
  apply (priority_loop_selected now (get_repos org) []) in Ha.
  destruct Ha as [[] | Ha]. exact Ha.
Qed.

(** The entries of the priority report: at most ten, highest score
    first, each scoring above 30; together with the analyses left out they
    are the analyses the loop collected, and no analysis left out scores
    more than an entry. *)
Theorem priority_entries_ranked (now : datetime) (org : Organization) :
  (List.length (priority_entries now org) <= 10)%nat
  /\ descending (priority_entries now org)
  /\ Forall (fun a => 30 < a_score a) (priority_entries now org)
  /\ exists left_out,
       Permutation (priority_entries now org ++ left_out)
         (analysis_loop now (get_repos org))
       /\ forall a b, In a (priority_entries now org) -> In b left_out ->
                      a_score b <= a_score a.
Proof.
  unfold priority_entries.
  set (sorted := sort_by_score_desc (analysis_loop now (get_repos org))).
  destruct (descending_split 10 sorted (sort_by_score_desc_descending _)) as [Hd Hs].
  split; [|split; [exact Hd|split]].
  - rewrite length_firstn. lia.
  - apply Forall_forall. intros a Ha.
    apply priority_entries_selected in Ha. now destruct Ha as (r & _ & _ & _ & H).
  - exists (skipn 10 sorted). split; [|exact Hs].
    rewrite firstn_skipn. apply sort_by_score_desc_perm.
Qed.

Lemma insert_desc_same_score (k : Z) (x : Analysis) (l : list Analysis) :
  filter (fun a => a_score a =? k) (insert_desc x l)
  = filter (fun a => a_score a =? k) (x :: l).
Proof.
  induction l as [|y rest IH]; [reflexivity|].
  cbn [insert_desc]. destruct (Z.leb_spec (a_score y) (a_score x)); [reflexivity|].
  cbn [filter] in *. rewrite IH.
  destruct (Z.eqb_spec (a_score x) k), (Z.eqb_spec (a_score y) k);
    try reflexivity. lia.
Qed.

(** The sort is stable: analyses with the same score come out in the
    order the loop collected them. *)
Theorem sort_by_score_desc_stable_order (k : Z) (l : list Analysis) :
  filter (fun a => a_score a =? k) (sort_by_score_desc l)
  = filter (fun a => a_score a =? k) l.
Proof.
  induction l as [|x rest IH]; [reflexivity|].
  cbn [sort_by_score_desc fold_right]. rewrite insert_desc_same_score.
  cbn [filter]. fold (sort_by_score_desc rest). now rewrite IH.
Qed.

(** * Further properties of the priority score *)

Lemma award_reasons (cond : bool) (p : Z) (reason : string) (t : Tally) :
  snd (award cond p reason t) = if cond then append (snd t) reason else snd t.
Proof. unfold award. now destruct cond. Qed.

(** The score is positive exactly when a reason has been recorded. *)
Definition balanced (t : Tally) : Prop :=
  (fst t = 0 /\ snd t = []) \/ (0 < fst t /\ snd t <> []).

Lemma award_balanced (cond : bool) (p : Z) (reason : string) (t : Tally) :
  (cond = true -> 0 < p) -> balanced t -> balanced (award cond p reason t).
Proof.
  intros Hp Ht. unfold award. destruct cond; [|exact Ht].
  right. simpl. specialize (Hp eq_refl). split.
  - destruct Ht as [[-> _] | [H _]]; lia.
  - unfold append. intros H. now apply app_eq_nil in H as [_ H].
Qed.

Lemma developer_indicators_balanced (repo : Repository) (t : Tally) :
  balanced t -> balanced (developer_indicators repo t).
Proof.
  intros Ht. unfold developer_indicators.
  destruct (get_contents repo "") as [c|e]; cbn [bind try_except]; [|exact Ht].
  destruct (file_names c) as [files|e]; cbn [bind try_except]; [|exact Ht].
  repeat apply award_balanced; try (intros _; lia). exact Ht.
Qed.

(** An analysis scores 0 exactly when it gives no reason; any reason
    comes with a positive score. *)
Theorem priority_score_zero_iff_no_reason (now : datetime) (repo : Repository)
  (res : Analysis) :
  analyze_repository_priority now repo = Ret res ->
  (a_score res = 0 <-> a_reasons res = []) /\ (0 < a_score res <-> a_reasons res <> []).
Proof.
  unfold analyze_repository_priority.
  destruct (pushed_at repo) as [pushed|]; cbn [the_datetime bind]; [|discriminate].
  intros [= <-]. cbn [a_score a_reasons].
  match goal with |- context [fst ?t] => assert (Hb : balanced t) end.
  { apply award_balanced.
    { intros Hc. destruct (topics repo) as [|t ts]; [discriminate|].
      unfold len. simpl List.length. lia. }
    apply award_balanced; [intros _; lia|].
    apply award_balanced; [intros _; lia|].
    apply developer_indicators_balanced.
    apply award_balanced; [intros Hc; apply Z.ltb_lt in Hc; lia|].
    apply award_balanced; [intros Hc; apply Z.ltb_lt in Hc; lia|].
    apply award_balanced; [intros _; lia|].
    apply award_balanced; [intros _; lia|].
    now left. }
  destruct Hb as [[H1 H2] | [H1 H2]]; rewrite ?H1, ?H2; split; split;
    intros; try congruence; try lia.
Qed.

Lemma priority_score_zero_iff_no_reason_witness :
  exists res, analyze_repository_priority (Fixtures.days 100) (quiet_repo []) = Ret res
              /\ a_score res = 0 /\ a_reasons res = [].
Proof.
  eexists. split; [reflexivity|].
  split; [reflexivity|].
  apply (proj1 (priority_score_zero_iff_no_reason (Fixtures.days 100) (quiet_repo []) _
                  eq_refl)).
  reflexivity.
Defined.

(** The same repository with another number of stars. *)
Definition with_stars (repo : Repository) (stars : Z) : Repository :=
  {| name := name repo;
     html_url := html_url repo;
     description := description repo;
     homepage := homepage repo;
     topics := topics repo;
     archived := archived repo;
     created_at := created_at repo;
     pushed_at := pushed_at repo;
     stargazers_count := stars;
     forks_count := forks_count repo;
     get_contents := get_contents repo;
     get_branch := get_branch repo;
     get_commits := get_commits repo;
     get_contributors := get_contributors repo;
     get_pulls := get_pulls repo |}.

Lemma star_points_monotone (s s' : Z) :
  s <= s' ->
  points (0 <? s) (Z.min (s * 2) 50) <= points (0 <? s') (Z.min (s' * 2) 50).
Proof.
  intros H. unfold points.
  destruct (Z.ltb_spec 0 s), (Z.ltb_spec 0 s'); lia.
Qed.

(** More stars never lower the score, each star up to twenty-five is worth
    two points, and from twenty-five stars on the score stays the same. *)
Theorem priority_score_in_stars (now : datetime) (repo : Repository) (s s' : Z)
  (res res' : Analysis) :
  analyze_repository_priority now (with_stars repo s) = Ret res ->
  analyze_repository_priority now (with_stars repo s') = Ret res' ->
  s <= s' ->
  a_score res <= a_score res'
  /\ (0 <= s -> s' <= 25 -> a_score res' = a_score res + 2 * (s' - s))
  /\ (25 <= s -> a_score res' = a_score res).
Proof.
  intros H H' Hle.
  destruct (proj1 (analyze_returns_iff now (with_stars repo s)) (ex_intro _ res H))
    as [pushed Hp].
  destruct (analyze_score now (with_stars repo s) pushed Hp) as (r & Hr & Hs & _).
  destruct (analyze_score now (with_stars repo s') pushed Hp) as (r' & Hr' & Hs' & _).
  rewrite H in Hr. rewrite H' in Hr'. injection Hr as <-. injection Hr' as <-.
  rewrite Hs, Hs'. unfold rule_points, sum, when_listed, listed_files.
  cbn [fold_right with_stars created_at stargazers_count forks_count description
         homepage topics get_contents].
  unfold description_has_keyword, topics_have_keyword.
  cbn [with_stars description topics].
  pose proof (star_points_monotone s s' Hle) as Hm.
  assert (0 <= s -> s' <= 25 ->
          points (0 <? s') (Z.min (s' * 2) 50)
          = points (0 <? s) (Z.min (s * 2) 50) + 2 * (s' - s)).
  { intros. unfold points. destruct (Z.ltb_spec 0 s), (Z.ltb_spec 0 s'); lia. }
  assert (25 <= s -> points (0 <? s') (Z.min (s' * 2) 50)
                     = points (0 <? s) (Z.min (s * 2) 50)).
  { intros. unfold points. destruct (Z.ltb_spec 0 s), (Z.ltb_spec 0 s'); lia. }
  repeat split; intros; lia.
Qed.

Lemma priority_score_in_stars_witness :
  exists res res',
    analyze_repository_priority 0 (with_stars (sdk_repo 0) 10) = Ret res
    /\ analyze_repository_priority 0 (with_stars (sdk_repo 0) 20) = Ret res'
    /\ a_score res = 135 /\ a_score res' = 155
    /\ a_score res <= a_score res'.
Proof.
  do 2 eexists. split; [reflexivity|]. split; [reflexivity|].
  split; [reflexivity|]. split; [reflexivity|].
  apply (priority_score_in_stars 0 (sdk_repo 0) 10 20 _ _ eq_refl eq_refl). lia.
Defined.

(** * Further properties of the API specification scan *)

Lemma substring_all (s : string) : substring 0 (String.length s) s = s.
Proof. induction s as [|c s IH]; simpl; [reflexivity | now rewrite IH]. Qed.

Lemma substring_split (s : string) (k : nat) :
  (k <= String.length s)%nat ->
  substring 0 k s ++ substring k (String.length s - k) s = s.
Proof.
  revert k. induction s as [|c s IH]; intros k Hk.
  - simpl in Hk. assert (k = 0)%nat as -> by lia. reflexivity.
  - destruct k as [|k].
    + simpl. now rewrite substring_all.
    + simpl in Hk. simpl. rewrite IH by lia. reflexivity.
Qed.

Lemma endswith_app (s suffix : string) :
  endswith s suffix = true -> exists pre, s = pre ++ suffix.
Proof.
  unfold endswith. intros H. apply andb_true_iff in H. destruct H as [Hle Heq].
  apply Nat.leb_le in Hle. apply String.eqb_eq in Heq.
  exists (substring 0 (String.length s - String.length suffix) s).
  pose proof (substring_split s (String.length s - String.length suffix)) as H.
  replace (String.length s - (String.length s - String.length suffix))%nat
    with (String.length suffix) in H by lia.
  rewrite Heq in H. symmetry. apply H. lia.
Qed.

Lemma prefix_app (a b : string) : String.prefix a (a ++ b) = true.
Proof.
  induction a as [|c a IH]; simpl; [now destruct b|].
  destruct (ascii_dec c c); [exact IH | contradiction].
Qed.

Lemma contains_cons (needle : string) (c : ascii) (s : string) :
  contains needle (String c s)
  = if String.prefix needle (String c s) then true else contains needle s.
Proof. reflexivity. Qed.

Lemma contains_app_l (needle pre s : string) :
  contains needle s = true -> contains needle (pre ++ s) = true.
Proof.
  intros H. induction pre as [|c pre IH]; [exact H|].
  change (String c pre ++ s) with (String c (pre ++ s)).
  rewrite contains_cons, IH. now destruct (String.prefix needle _).
Qed.

Lemma contains_prefix (needle s : string) :
  String.prefix needle s = true -> contains needle s = true.
Proof.
  intros H. destruct s as [|c s].
  - unfold contains. now rewrite H.
  - now rewrite contains_cons, H.
Qed.

(** Every name pattern of a specification file names its protocol
    family. *)
Definition names_family (s : string) : bool :=
  (contains "openapi" s || contains "swagger" s
   || contains "asyncapi" s || contains "graphql" s)%bool.

Lemma spec_file_names_family (c : ContentFile) :
  is_spec_file c = true -> names_family (lower (cf_name c)) = true.
Proof.
  unfold is_spec_file. intros H. apply existsb_exists in H.
  destruct H as (pat & Hin & Hend).
  apply endswith_app in Hend. destruct Hend as [pre ->].
  assert (Hpat : names_family pat = true).
  { unfold spec_patterns in Hin. simpl in Hin.
    repeat (destruct Hin as [<- | Hin]; [reflexivity|]). contradiction. }
  unfold names_family in *.
  repeat (apply orb_true_iff in Hpat; destruct Hpat as [Hpat | Hpat]);
    rewrite (contains_app_l _ pre _ Hpat); now rewrite ?orb_true_r.
Qed.

(** For a file that the scan takes for a specification, the fall-back
    answer of [_determine_api_type] is never used: the type is
    ["openapi"] exactly when the lowered name contains [openapi] or
    [swagger], else ["asyncapi"] when it contains [asyncapi], else
    ["graphql"], and then the name contains [graphql]. *)
Theorem api_type_of_spec_file (c : ContentFile) :
  is_spec_file c = true ->
  let n := lower (cf_name c) in
  (_determine_api_type (cf_name c) = "openapi"
   <-> (contains "openapi" n || contains "swagger" n)%bool = true)
  /\ (_determine_api_type (cf_name c) = "asyncapi"
      <-> (contains "openapi" n || contains "swagger" n)%bool = false
          /\ contains "asyncapi" n = true)
  /\ (_determine_api_type (cf_name c) = "graphql"
      <-> (contains "openapi" n || contains "swagger" n)%bool = false
          /\ contains "asyncapi" n = false /\ contains "graphql" n = true)
  /\ In (_determine_api_type (cf_name c)) ["openapi"; "asyncapi"; "graphql"].
Proof.
  intros H. apply spec_file_names_family in H. cbv zeta.
  unfold names_family in H. unfold _determine_api_type.
  destruct (contains "openapi" (lower (cf_name c)) || contains "swagger" (lower (cf_name c)))%bool
    eqn:H1.
  { repeat split; intros; try discriminate; try tauto;
      try (destruct H0; discriminate). simpl; tauto. }
  destruct (contains "asyncapi" (lower (cf_name c))) eqn:H2.
  { repeat split; intros; try discriminate; try tauto;
      try (destruct H0 as (_ & ? & _); discriminate). simpl; tauto. }
  simpl in H. rewrite H.
  repeat split; intros; try discriminate; try tauto;
    try (destruct H0; discriminate). simpl; tauto.
Qed.

Lemma api_type_of_spec_file_witness :
  _determine_api_type "Payments.AsyncAPI.yml" = "asyncapi"
  /\ In (_determine_api_type "Payments.AsyncAPI.yml") ["openapi"; "asyncapi"; "graphql"].
Proof.
  split; [reflexivity|].
  apply (api_type_of_spec_file
           {| cf_name := "Payments.AsyncAPI.yml"; cf_path := "docs/Payments.AsyncAPI.yml";
              cf_type := "file"; cf_decoded := Ret "asyncapi: 2.6.0" |}).
  reflexivity.
Defined.

Lemma api_type_values (filename : string) :
  In (_determine_api_type filename) ["openapi"; "asyncapi"; "graphql"].
Proof.
  unfold _determine_api_type.
  destruct (_ || _)%bool; [simpl; tauto|].
  destruct (contains "asyncapi" _); [simpl; tauto|].
  destruct (contains "graphql" _); simpl; tauto.
Qed.

(** The entry was made from file [f]. *)
Definition entry_of (f : ContentFile) (spec : ApiSpec) : Prop :=
  is_spec_file f = true /\ spec_entry f = Ret spec.

Lemma scan_subcontents_sound (subs : list ContentFile) (acc : list ApiSpec) (spec : ApiSpec) :
  In spec (fst (scan_subcontents subs acc)) ->
  In spec acc \/ exists f, In f subs /\ entry_of f spec.
Proof.
  revert acc. induction subs as [|s rest IH]; intros acc H; [now left|].
  simpl in H. destruct (is_spec_file s) eqn:Hs.
  - destruct (spec_entry s) as [entry|e] eqn:He; [|now left].
    destruct (IH _ H) as [Hin | (f & Hf & Hent)].
    + unfold append in Hin. apply in_app_or in Hin. destruct Hin as [Hin | [<- | []]].
      * now left.
      * right. exists s. split; [now left | now split].
    + right. exists f. split; [now right | exact Hent].
  - destruct (IH _ H) as [Hin | (f & Hf & Hent)]; [now left|].
    right. exists f. split; [now right | exact Hent].
Qed.

(** The files listed under a directory entry that the scan looks
    into. *)
Definition looked_into (repo : Repository) (d : ContentFile) (f : ContentFile) : Prop :=
  String.eqb (cf_type d) "dir" = true
  /\ mem (lower (cf_name d)) ["docs"; "api"; "specs"] = true
  /\ exists subs, (c <- get_contents repo (cf_path d) ;; entries c) = Ret subs
                  /\ In f subs.

Lemma scan_contents_sound (repo : Repository) (contents : list ContentFile)
  (acc : list ApiSpec) (spec : ApiSpec) :
  In spec (fst (scan_contents repo contents acc)) ->
  In spec acc
  \/ exists f, entry_of f spec
               /\ ((In f contents /\ String.eqb (cf_type f) "dir" = false)
                   \/ exists d, In d contents /\ looked_into repo d f).
Proof.
  revert acc. induction contents as [|c rest IH]; intros acc H; [now left|].
  simpl in H. destruct (String.eqb (cf_type c) "dir") eqn:Hty.
  - destruct (IH _ H) as [Hin | (f & Hent & Hwhere)].
    + unfold scan_directory in Hin.
      destruct (mem (lower (cf_name c)) ["docs"; "api"; "specs"]) eqn:Hm; [|now left].
      destruct (bind (get_contents repo (cf_path c)) _) as [subs|e] eqn:Hl; [|now left].
      destruct (scan_subcontents_sound _ _ _ Hin) as [Hacc | (f & Hf & Hent)];
        [now left|].
      right. exists f. split; [exact Hent|]. right. exists c.
      split; [now left|]. repeat split; try assumption. now exists subs.
    + right. exists f. split; [exact Hent|].
      destruct Hwhere as [[Hf Hnd] | (d & Hd & Hl)];
        [left; split; [now right | exact Hnd] | right; exists d; split; [now right | exact Hl]].
  - assert (Hrest : forall acc',
               In spec (fst (scan_contents repo rest acc')) ->
               In spec acc'
               \/ exists f, entry_of f spec
                            /\ ((In f (c :: rest) /\ String.eqb (cf_type f) "dir" = false)
                                \/ exists d, In d (c :: rest) /\ looked_into repo d f)).
    { intros acc' H'. destruct (IH _ H') as [Hin | (f & Hent & Hwhere)]; [now left|].
      right. exists f. split; [exact Hent|].
      destruct Hwhere as [[Hf Hnd] | (d & Hd & Hl)];
        [left; split; [now right | exact Hnd] | right; exists d; split; [now right | exact Hl]]. }
    destruct (is_spec_file c) eqn:Hs; [|now apply Hrest].
    destruct (spec_entry c) as [entry|e] eqn:He; [|now left].
    destruct (Hrest _ H) as [Hin | Hex]; [|now right].
    unfold append in Hin. apply in_app_or in Hin. destruct Hin as [Hin | [<- | []]];
      [now left|].
    right. exists c. split; [now split|]. left. split; [now left | exact Hty].
Qed.

(** Every reference the scan returns was made from a file whose lowered
    name ends in one of the patterns and whose content could be read: a
    top-level entry that is not a directory, or an entry listed directly
    under a top-level directory named docs, api or specs. Its path is the
    file's path, its content the file's content and its type one of the
    three families. *)
Theorem detect_api_specs_sound (repo : Repository) (spec : ApiSpec) :
  In spec (_detect_api_specs repo) ->
  exists top f,
    (c <- get_contents repo "" ;; entries c) = Ret top
    /\ is_spec_file f = true
    /\ ((In f top /\ String.eqb (cf_type f) "dir" = false)
        \/ exists d, In d top /\ looked_into repo d f)
    /\ spec_path spec = cf_path f
    /\ cf_decoded f = Ret (spec_content spec)
    /\ In (spec_type spec) ["openapi"; "asyncapi"; "graphql"].
Proof.
  unfold _detect_api_specs.
  destruct (bind (get_contents repo "") _) as [top|e] eqn:Hl; [|intros []].
  intros H. apply scan_contents_sound in H.
  destruct H as [[] | (f & [Hs He] & Hwhere)].
  exists top, f. split; [reflexivity|]. split; [exact Hs|]. split; [exact Hwhere|].
  unfold spec_entry in He.
  destruct (cf_decoded f) as [content|e]; cbn [bind] in He; [|discriminate].
  injection He as <-. cbn [spec_path spec_content spec_type].
  repeat split. apply api_type_values.
Qed.

Lemma detect_api_specs_sound_witness :
  exists top f,
    (c <- get_contents half_readable_repo "" ;; entries c) = Ret top
    /\ is_spec_file f = true
    /\ ((In f top /\ String.eqb (cf_type f) "dir" = false)
        \/ exists d, In d top /\ looked_into half_readable_repo d f)
    /\ "openapi.yaml" = cf_path f
    /\ cf_decoded f = Ret "openapi: 3.0.0"
    /\ In "openapi" ["openapi"; "asyncapi"; "graphql"].
Proof.
  apply (detect_api_specs_sound half_readable_repo
           {| spec_path := "openapi.yaml"; spec_type := "openapi";
              spec_content := "openapi: 3.0.0" |}).
  left. reflexivity.
Defined.

(** * Properties of the operations that write *)

Import Operations.

(** A computation that only adds to the log it is given. *)
Definition frames {A} (m : Eff A) : Prop :=
  forall log, m log = (fst (m []), (log ++ snd (m []))%list).

Lemma frames_ret {A} (a : A) : frames (ret a).
Proof. intros log. unfold ret. simpl. now rewrite app_nil_r. Qed.

Lemma frames_throw {A} (e : Exception) : frames (@throw A e).
Proof. intros log. unfold throw. simpl. now rewrite app_nil_r. Qed.

Lemma frames_lift {A} (o : outcome A) : frames (lift o).
Proof. intros log. unfold lift. simpl. now rewrite app_nil_r. Qed.

Lemma frames_call {A} (c : Call) (o : outcome A) : frames (call c o).
Proof. intros log. reflexivity. Qed.

Lemma frames_bindE {A B} (m : Eff A) (k : A -> Eff B) :
  frames m -> (forall a, frames (k a)) -> frames (bindE m k).
Proof.
  intros Hm Hk log. unfold bindE. rewrite (Hm log).
  destruct (m []) as [[a|e] l0]; simpl.
  - rewrite (Hk a (log ++ l0)%list), (Hk a l0). simpl. now rewrite app_assoc.
  - reflexivity.
Qed.

Lemma frames_try_exceptE {A} (m : Eff A) (h : Exception -> Eff A) :
  frames m -> (forall e, frames (h e)) -> frames (try_exceptE m h).
Proof.
  intros Hm Hh log. unfold try_exceptE. rewrite (Hm log).
  destruct (m []) as [[a|e] l0]; simpl.
  - reflexivity.
  - rewrite (Hh e (log ++ l0)%list), (Hh e l0). simpl. now rewrite app_assoc.
Qed.

Create HintDb frames.
#[local] Hint Resolve frames_ret frames_throw frames_lift frames_call : frames.

Ltac frames :=
  repeat first
    [ apply frames_bindE; [|intros ?]
    | apply frames_try_exceptE; [|intros ?]
    | solve [auto with frames]
    | match goal with |- frames (if ?b then _ else _) => destruct b end
    | match goal with |- frames (match ?x with _ => _ end) => destruct x end ].

(** ** [force_merge_pr] *)

Section ForceMerge.

Variables (h : OrganizationHandle) (repo_name : string) (pr_number : Z).
Variables (repo : RemoteRepository) (pr : PullHandle).

Hypothesis repo_found : get_repo h repo_name = Ret repo.
Hypothesis pull_found : get_pull repo pr_number = Ret pr.

Definition removal : Call := RemoveProtection (base_ref pr).

Definition merging : Call :=
  MergePull pr_number "squash" ("Force merge PR #" ++ str_int pr_number ++ " [skip ci]")
    "Force merged via Backstage automation".

Definition restoring : Call :=
  EditProtection (base_ref pr) true true true true [] [] [].

(** The branch of the pull request is protected: the first lookup returns
    a truthy object. *)
Definition protected : Prop :=
  exists b, get_branch repo (base_ref pr) = Ret b /\ get_protection b = Ret true.

(** The branch was read a second time and the call that removes its
    protection returned. *)
Definition removed : Prop :=
  (exists b, get_branch_again repo 1 (base_ref pr) = Ret b)
  /\ exists u, remove_protection repo (base_ref pr) = Ret u.

(** The branch was read a third time and the call that puts its
    protection back returned. *)
Definition restored : Prop :=
  (exists b, get_branch_again repo 2 (base_ref pr) = Ret b)
  /\ exists u, edit_protection repo (base_ref pr) = Ret u.

(** The run on a branch found without protection. *)
Definition plain_merge : outcome bool * list Call :=
  match merge pr "squash" ("Force merge PR #" ++ str_int pr_number ++ " [skip ci]")
          "Force merged via Backstage automation" with
  | Ret status => (Ret (merged status), [merging])
  | Raise _ => (Ret false, [merging])
  end.

Lemma force_merge_unfold :
  run (force_merge_pr h repo_name pr_number)
  = match get_branch repo (base_ref pr) with
    | Ret b =>
        match get_protection b with
        | Ret true =>
            match get_branch_again repo 1 (base_ref pr) with
            | Ret _ =>
                match remove_protection repo (base_ref pr) with
                | Ret _ =>
                    match merge pr "squash"
                            ("Force merge PR #" ++ str_int pr_number ++ " [skip ci]")
                            "Force merged via Backstage automation" with
                    | Ret status =>
                        match get_branch_again repo 2 (base_ref pr) with
                        | Ret _ =>
                            match edit_protection repo (base_ref pr) with
                            | Ret _ =>
                                (Ret (merged status), [removal; merging; restoring])
                            | Raise _ => (Ret false, [removal; merging; restoring])
                            end
                        | Raise _ => (Ret false, [removal; merging])
                        end
                    | Raise _ => (Ret false, [removal; merging])
                    end
                | Raise _ => (Ret false, [removal])
                end
            | Raise _ => (Ret false, [])
            end
        | _ => plain_merge
        end
    | Raise _ => plain_merge
    end.
Proof.
  unfold run, force_merge_pr, current_protection, plain_merge, bindE, try_exceptE, lift,
    call, ret.
  rewrite repo_found, pull_found.
  fold removal merging restoring.
  destruct (get_branch repo (base_ref pr)) as [b|e]; cbn [app].
  - destruct (get_protection b) as [[|]|e]; cbn [app].
    + destruct (get_branch_again repo 1 (base_ref pr)); cbn [app]; [|reflexivity].
      destruct (remove_protection repo (base_ref pr)); cbn [app]; [|reflexivity].
      destruct (merge pr _ _ _); cbn [app]; [|reflexivity].
      destruct (get_branch_again repo 2 (base_ref pr)); cbn [app]; [|reflexivity].
      destruct (edit_protection repo (base_ref pr)); reflexivity.
    + destruct (merge pr _ _ _); reflexivity.
    + destruct (merge pr _ _ _); reflexivity.
  - destruct (merge pr _ _ _); reflexivity.
Qed.

End ForceMerge.

(** Hypotheses taken apart, and the ones that cannot hold found. *)
Ltac take_apart :=
  repeat match goal with
         | H : _ /\ _ |- _ => destruct H
         | H : exists _, _ |- _ => destruct H
         | H : _ \/ _ |- _ => destruct H
         | H : In _ _ |- _ => simpl in H
         | H : False |- _ => destruct H
         | H : Raise _ = Ret _ |- _ => discriminate H
         | H : Ret _ = Raise _ |- _ => discriminate H
         | H : @eq (list Call) _ _ |- _ => discriminate H
         | H : @eq Call _ _ |- _ => discriminate H
         | H : Ret false = Ret true |- _ => discriminate H
         end.

(** A premise that holds is put to use. *)
Ltac use_protection :=
  try match goal with
      | H : ?P -> _ |- _ =>
          let HP := fresh in
          assert (HP : P) by eauto; specialize (H HP); take_apart
      end.

(** After the repository and the pull request are found, [force_merge_pr]
    never raises. Each of its three readings of the branch may fail on its
    own. Its calls are none, the merge alone, or the removal of the
    protection followed, as far as each call is reached, by the merge and
    by the call that puts the protection back. The removal is called when
    the branch is found protected and can be read again; the merge is
    called unless a protection was found and not removed; the protection
    is put back only if it was removed, the merge call returned, the
    branch could be read a third time and the call returned; and the
    answer is [True] exactly when the merge reports the pull request
    merged and, on a protected branch, the protection was removed and put
    back. *)
Theorem force_merge_pr_calls (h : OrganizationHandle) (repo_name : string)
  (pr_number : Z) (repo : RemoteRepository) (pr : PullHandle) :
  get_repo h repo_name = Ret repo -> get_pull repo pr_number = Ret pr ->
  let result := fst (run (force_merge_pr h repo_name pr_number)) in
  let calls := snd (run (force_merge_pr h repo_name pr_number)) in
  let merge_answer :=
    merge pr "squash" ("Force merge PR #" ++ str_int pr_number ++ " [skip ci]")
      "Force merged via Backstage automation" in
  (exists b, result = Ret b)
  /\ In calls [ [];
                [merging pr_number];
                [removal pr];
                [removal pr; merging pr_number];
                [removal pr; merging pr_number; restoring pr] ]
  /\ (In (removal pr) calls
      <-> protected repo pr
          /\ exists b, get_branch_again repo 1 (base_ref pr) = Ret b)
  /\ (In (merging pr_number) calls <-> (protected repo pr -> removed repo pr))
  /\ (In (restoring pr) calls
      <-> protected repo pr /\ removed repo pr
          /\ (exists s, merge_answer = Ret s)
          /\ exists b, get_branch_again repo 2 (base_ref pr) = Ret b)
  /\ (In (restoring pr) calls /\ (exists u, edit_protection repo (base_ref pr) = Ret u)
      <-> protected repo pr /\ removed repo pr
          /\ (exists s, merge_answer = Ret s) /\ restored repo pr)
  /\ (result = Ret true
      <-> merge_answer = Ret {| merged := true |}
          /\ (protected repo pr -> removed repo pr /\ restored repo pr)).
Proof.
  intros Hr Hp. cbv zeta. rewrite (force_merge_unfold h repo_name pr_number repo pr Hr Hp).
  unfold protected, removed, restored, plain_merge.
  destruct (get_branch repo (base_ref pr)) as [b|e] eqn:Hb.
  2:{ destruct (merge pr _ _ _) as [[[|]]|e'] eqn:Hm; cbn [fst snd merged];
        (split; [eexists; reflexivity|]); (split; [simpl; tauto|]);
        repeat split; intros; take_apart; try (simpl; tauto); try congruence. }
  destruct (get_protection b) as [[|]|e] eqn:Hprot.
  2,3: destruct (merge pr _ _ _) as [[[|]]|e'] eqn:Hm; cbn [fst snd merged];
         (split; [eexists; reflexivity|]); (split; [simpl; tauto|]);
         repeat split; intros; take_apart; try (simpl; tauto); try congruence.
  destruct (get_branch_again repo 1 (base_ref pr)) as [b1|e1] eqn:Hb1.
  2:{ cbn [fst snd]. split; [eexists; reflexivity|]. split; [simpl; tauto|].
      repeat split; intros; take_apart; try (simpl; tauto); try congruence;
        use_protection. }
  destruct (remove_protection repo (base_ref pr)) as [u|e2] eqn:Hrem.
  2:{ cbn [fst snd]. split; [eexists; reflexivity|]. split; [simpl; tauto|].
      repeat split; intros; take_apart; try (simpl; tauto); try congruence; eauto;
        use_protection. }
  destruct (merge pr _ _ _) as [[[|]]|e3] eqn:Hm.
  3:{ cbn [fst snd]. split; [eexists; reflexivity|]. split; [simpl; tauto|].
      repeat split; intros; take_apart; try (simpl; tauto); try congruence; eauto. }
  all: destruct (get_branch_again repo 2 (base_ref pr)) as [b2|e4] eqn:Hb2;
    [destruct (edit_protection repo (base_ref pr)) as [u'|e5] eqn:Hed|];
    cbn [fst snd merged];
    (split; [eexists; reflexivity|]); (split; [simpl; tauto|]);
    repeat split; intros; take_apart; try (simpl; tauto); try congruence; eauto;
    use_protection.
Qed.

(** The merge raises after the protection was removed: the answer is
    [False], the call that puts the protection back is not made, and the
    branch stays unprotected. The removal is reached when the branch can
    be read again; when it cannot, nothing is called at all. *)
Theorem force_merge_pr_failed_merge (h : OrganizationHandle) (repo_name : string)
  (pr_number : Z) (repo : RemoteRepository) (pr : PullHandle) (u : unit) (e : Exception) :
  get_repo h repo_name = Ret repo -> get_pull repo pr_number = Ret pr ->
  protected repo pr ->
  remove_protection repo (base_ref pr) = Ret u ->
  merge pr "squash" ("Force merge PR #" ++ str_int pr_number ++ " [skip ci]")
    "Force merged via Backstage automation" = Raise e ->
  run (force_merge_pr h repo_name pr_number)
  = match get_branch_again repo 1 (base_ref pr) with
    | Ret _ => (Ret false, [removal pr; merging pr_number])
    | Raise _ => (Ret false, [])
    end.
Proof.
  intros Hr Hp (b & Hb & Hprot) Hrem Hm.
  rewrite (force_merge_unfold h repo_name pr_number repo pr Hr Hp).
  now rewrite Hb, Hprot, Hrem, Hm.
Qed.

(** A repository that accepts every write, on top of what [r] answers to
    reads; pull request 12 targets [main] and its merge conflicts. *)
Definition conflicting_pull : PullHandle :=
  {| base_ref := "main";
     merge := fun _ _ _ => Raise (Failure "405 Pull Request is not mergeable") |}.

Definition writable (r : Repository) : RemoteRepository :=
  {| repo := r;
     language := Some "Python";
     private := false;
     updated_at := 0;
     commit_sha := fun _ => "5f2c1e0";
     create_git_ref := fun _ _ => Ret tt;
     create_file := fun _ _ _ _ => Ret tt;
     create_pull := fun _ _ head _ => Ret {| number := 12; head_ref := head |};
     create_issue := fun _ _ _ => Ret {| issue_number := 13 |};
     get_pull := fun n => if n =? 12 then Ret conflicting_pull
                          else Raise (NotFound "404 Not Found");
     get_branch_again := fun _ => get_branch r;
     remove_protection := fun _ => Ret tt;
     edit_protection := fun _ => Ret tt |}.

(** A repository whose main branch is protected. *)
Definition protected_repo : Repository :=
  {| name := "ledger";
     html_url := "https://github.com/acme/ledger";
     description := Some "Ledger service";
     homepage := None;
     topics := ["finance"];
     archived := false;
     created_at := 0;
     pushed_at := Some 0;
     stargazers_count := 3;
     forks_count := 0;
     get_contents := Fixtures.tree ["README.md"];
     get_branch := fun _ => Ret {| get_protection := Ret true |};
     get_commits := Ret Fixtures.no_pages;
     get_contributors := Ret Fixtures.no_pages;
     get_pulls := Ret Fixtures.no_pages |}.

(** An organisation handle over the given repositories, found by
    name. *)
Definition handle_of (repos : list RemoteRepository) : OrganizationHandle :=
  {| handle_login := "acme";
     handle_user_teams := fun _ => Ret Fixtures.no_pages;
     handle_listing := pages repos;
     get_repo := fun nm =>
       match find (fun r : RemoteRepository => String.eqb (name r) nm) repos with
       | Some r => Ret r
       | None => Raise (NotFound "404 Not Found")
       end |}.

Lemma force_merge_pr_failed_merge_witness :
  run (force_merge_pr (handle_of [writable protected_repo]) "ledger" 12)
  = (Ret false,
     [ RemoveProtection "main";
       MergePull 12 "squash" "Force merge PR #12 [skip ci]"
         "Force merged via Backstage automation" ]).
Proof.
  apply (force_merge_pr_failed_merge (handle_of [writable protected_repo]) "ledger" 12
           (writable protected_repo) conflicting_pull tt
           (Failure "405 Pull Request is not mergeable")); try reflexivity.
  eexists. split; reflexivity.
Defined.

Lemma force_merge_pr_calls_witness :
  In (snd (run (force_merge_pr (handle_of [writable protected_repo]) "ledger" 12)))
     [ [];
       [merging 12];
       [removal conflicting_pull];
       [removal conflicting_pull; merging 12];
       [removal conflicting_pull; merging 12; restoring conflicting_pull] ].
Proof.
  apply (force_merge_pr_calls (handle_of [writable protected_repo]) "ledger" 12
           (writable protected_repo) conflicting_pull eq_refl eq_refl).
Defined.

(** ** [publish_to_backstage] and [publish_raw_to_backstage] *)

(** The request [validate_and_post] sends. *)
Definition catalog_request (backstage_url document : string)
  (headers : list (string * string)) : Call :=
  HttpPost (backstage_url ++ "/api/catalog/locations") document headers 30.

(** The request was answered with status 200 and a body that is JSON. *)
Definition accepted (web : Web) (backstage_url document : string)
  (headers : list (string * string)) : Prop :=
  exists response v,
    post web (backstage_url ++ "/api/catalog/locations") document headers 30
    = Ret response
    /\ status_code response = 200 /\ json response = Ret v.

Lemma validate_and_post_run (web : Web) (backstage_url document : string)
  (headers : list (string * string)) :
  let result := fst (run (validate_and_post web backstage_url document headers)) in
  let calls := snd (run (validate_and_post web backstage_url document headers)) in
  (calls = [] \/ calls = [catalog_request backstage_url document headers])
  /\ (calls = [] <-> exists e, safe_load web document = Raise e)
  /\ (result = Ret true
      <-> (exists u, safe_load web document = Ret u)
          /\ accepted web backstage_url document headers).
Proof.
  cbv zeta. unfold run, validate_and_post, accepted, catalog_request, bindE, lift, call, ret.
  destruct (safe_load web document) as [u|e]; cbn [fst snd app].
  2:{ split; [now left|]. split; [split; eauto|].
      split; [discriminate | intros [[u Hu] _]; discriminate]. }
  destruct (post web _ document headers 30) as [response|e] eqn:Hpost; cbn [fst snd app].
  2:{ split; [now right|]. split; [split; [discriminate | intros [e' H]; discriminate]|].
      split; [discriminate | intros [_ (r & v & H & _)]; discriminate]. }
  destruct (Z.eqb_spec (status_code response) 200) as [H200|H200].
  - destruct (json response) as [v|e] eqn:Hj; cbn [fst snd].
    + split; [now right|]. split; [split; [discriminate | intros [e' H]; discriminate]|].
      split; [intros _; split; eauto | reflexivity].
    + split; [now right|]. split; [split; [discriminate | intros [e' H]; discriminate]|].
      split; [discriminate|]. intros [_ (r & v & [= <-] & _ & Hv)]. congruence.
  - cbn [fst snd]. split; [now right|].
    split; [split; [discriminate | intros [e' H]; discriminate]|].
    split; [discriminate|]. intros [_ (r & v & [= <-] & Hs & _)]. contradiction.
Qed.

(** Without a token, from the argument or from [BACKSTAGE_TOKEN],
    [publish_to_backstage] raises before anything is validated or
    sent. *)
Theorem publish_to_backstage_without_token (env : Environment) (web : Web)
  (backstage_url catalog_info : string) (backstage_token : option string)
  (token_type : string) :
  nonempty backstage_token = false -> nonempty (env "BACKSTAGE_TOKEN") = false ->
  run (publish_to_backstage env web backstage_url catalog_info backstage_token token_type)
  = (Raise (Failure "Backstage API token is required. Set BACKSTAGE_TOKEN environment variable or pass token parameter."),
     []).
Proof.
  intros Ha He. unfold publish_to_backstage. rewrite Ha.
  destruct (env "BACKSTAGE_TOKEN") as [[|c t]|]; try reflexivity. discriminate.
Qed.

Definition no_environment : Environment := fun _ => None.

(** A catalog endpoint that accepts what it is sent. *)
Definition accepting_web : Web :=
  {| post := fun _ _ _ _ => Ret {| status_code := 200; json := Ret tt; text := "{}" |};
     safe_load := fun _ => Ret tt;
     read_text := fun _ => Ret "kind: Component" |}.

Lemma publish_to_backstage_without_token_witness :
  run (publish_to_backstage no_environment accepting_web "https://backstage.acme.example"
         "kind: Component" (Some "") "Bearer")
  = (Raise (Failure "Backstage API token is required. Set BACKSTAGE_TOKEN environment variable or pass token parameter."),
     []).
Proof.
  apply (publish_to_backstage_without_token no_environment accepting_web); reflexivity.
Defined.

(** With a token, [publish_to_backstage] never raises. The token is the
    argument when that is not empty, else [BACKSTAGE_TOKEN]; the token
    type is [BACKSTAGE_TOKEN_TYPE] when that is set, else the argument. A
    document that is not YAML is not sent; otherwise one request goes to
    [/api/catalog/locations] with the three headers, and the answer is
    [True] exactly when the request was answered with status 200 and a
    JSON body. *)
Theorem publish_to_backstage_request (env : Environment) (web : Web)
  (backstage_url catalog_info : string) (backstage_token : option string)
  (token_type token : string) :
  (if nonempty backstage_token then backstage_token else env "BACKSTAGE_TOKEN")
  = Some token ->
  token <> "" ->
  let headers :=
    [ ("Content-Type", "application/yaml");
      ("User-Agent", "Backstage-Automation");
      ("Authorization", env_get env "BACKSTAGE_TOKEN_TYPE" token_type ++ " " ++ token) ] in
  let published :=
    run (publish_to_backstage env web backstage_url catalog_info backstage_token
           token_type) in
  (exists b, fst published = Ret b)
  /\ (snd published = []
      \/ snd published = [catalog_request backstage_url catalog_info headers])
  /\ (snd published = [] <-> exists e, safe_load web catalog_info = Raise e)
  /\ (fst published = Ret true
      <-> (exists u, safe_load web catalog_info = Ret u)
          /\ accepted web backstage_url catalog_info headers).
Proof.
  intros Htok Hne. cbv zeta. unfold publish_to_backstage. rewrite Htok.
  destruct token as [|c t]; [contradiction|].
  set (headers := [ ("Content-Type", "application/yaml");
                    ("User-Agent", "Backstage-Automation");
                    ("Authorization", _) ]).
  destruct (validate_and_post_run web backstage_url catalog_info headers)
    as (Hcalls & Hnone & Htrue).
  cbv zeta in Hcalls, Hnone, Htrue. unfold run, try_exceptE in *.
  destruct (validate_and_post web backstage_url catalog_info headers [])
    as [[b|e] calls]; unfold ret; cbn [fst snd] in *.
  - split; [now exists b|]. split; [exact Hcalls|]. split; [exact Hnone | exact Htrue].
  - split; [now exists false|]. split; [exact Hcalls|]. split; [exact Hnone|].
    split; [discriminate|]. intros H. apply Htrue in H. discriminate.
Qed.

Lemma publish_to_backstage_request_witness :
  run (publish_to_backstage
         (fun key => if String.eqb key "BACKSTAGE_TOKEN" then Some "from-environment"
                     else if String.eqb key "BACKSTAGE_TOKEN_TYPE" then Some "Token"
                     else None)
         accepting_web "https://backstage.acme.example" "kind: Component"
         (Some "from-argument") "Bearer")
  = (Ret true,
     [ HttpPost "https://backstage.acme.example/api/catalog/locations" "kind: Component"
         [ ("Content-Type", "application/yaml");
           ("User-Agent", "Backstage-Automation");
           ("Authorization", "Token from-argument") ] 30 ])
  /\ exists b,
       fst (run (publish_to_backstage
                   (fun key => if String.eqb key "BACKSTAGE_TOKEN"
                               then Some "from-environment"
                               else if String.eqb key "BACKSTAGE_TOKEN_TYPE"
                                    then Some "Token"
                                    else None)
                   accepting_web "https://backstage.acme.example" "kind: Component"
                   (Some "from-argument") "Bearer"))
       = Ret b.
Proof.
  split; [reflexivity|].
  eapply (publish_to_backstage_request _ accepting_web "https://backstage.acme.example"
            "kind: Component" (Some "from-argument") "Bearer" "from-argument");
    [reflexivity | discriminate].
Defined.

(** [publish_raw_to_backstage] never raises and never sends an
    [Authorization] header. Nothing is sent exactly when the file cannot
    be read or its text is not YAML; the text of any other file is sent,
    in one request and with the two fixed headers; and the answer is
    [True] exactly when that request was answered with status 200 and a
    JSON body. *)
Theorem publish_raw_to_backstage_request (web : Web) (backstage_url catalog_path : string) :
  let headers :=
    [ ("Content-Type", "application/yaml");
      ("User-Agent", "Backstage-Automation") ] in
  let published := run (publish_raw_to_backstage web backstage_url catalog_path) in
  (exists b, fst published = Ret b)
  /\ (snd published = []
      <-> (exists e, read_text web catalog_path = Raise e)
          \/ exists document e,
               read_text web catalog_path = Ret document
               /\ safe_load web document = Raise e)
  /\ (forall document u,
        read_text web catalog_path = Ret document ->
        safe_load web document = Ret u ->
        snd published = [catalog_request backstage_url document headers])
  /\ (fst published = Ret true
      <-> exists document u,
            read_text web catalog_path = Ret document
            /\ safe_load web document = Ret u
            /\ accepted web backstage_url document headers).
Proof.
  cbv zeta. unfold publish_raw_to_backstage, run, try_exceptE, bindE, lift.
  destruct (read_text web catalog_path) as [document|e].
  2:{ cbn [fst snd ret]. split; [eauto|]. split.
      - split; [intros _; left; eauto | reflexivity].
      - split; [discriminate|].
        split; [discriminate | intros (d & u & H & _); discriminate]. }
  set (headers := [ ("Content-Type", "application/yaml");
                    ("User-Agent", "Backstage-Automation") ]).
  destruct (validate_and_post_run web backstage_url document headers)
    as (Hcalls & Hnone & Htrue).
  cbv zeta in Hcalls, Hnone, Htrue. unfold run in *.
  assert (Hsent : forall d u, Ret document = Ret d -> safe_load web d = Ret u ->
                    snd (validate_and_post web backstage_url document headers [])
                    = [catalog_request backstage_url d headers]).
  { intros d u [= <-] Hu. destruct Hcalls as [Hnil | Hone]; [|exact Hone].
    apply Hnone in Hnil. destruct Hnil as [e He]. congruence. }
  assert (Hempty : snd (validate_and_post web backstage_url document headers []) = []
                   <-> (exists e, @Ret string document = Raise e)
                       \/ exists d e, Ret document = Ret d /\ safe_load web d = Raise e).
  { rewrite Hnone. split.
    - intros [e He]. right. exists document, e. auto.
    - intros [[e He] | (d & e & [= <-] & He)]; [discriminate | eauto]. }
  destruct (validate_and_post web backstage_url document headers [])
    as [[b|e] calls]; cbn [fst snd ret] in *.
  - split; [eauto|]. split; [exact Hempty|]. split; [exact Hsent|].
    rewrite Htrue. split.
    + intros [[u Hu] Ha]. exists document, u. auto.
    + intros (d & u & [= <-] & Hu & Ha). eauto.
  - split; [eauto|]. split; [exact Hempty|]. split; [exact Hsent|].
    split; [discriminate|]. intros (d & u & [= <-] & Hu & Ha).
    assert (H : Raise e = Ret true) by (apply Htrue; eauto). discriminate.
Qed.

(** ** [create_catalog_entities] *)



(** ** [create_pr_and_issue] *)

Section CreatePr.

Variable yaml_dump : PyVal -> string.
Variables (time : Z) (now : datetime) (h : OrganizationHandle) (repo_name : string).
Variable repo : RemoteRepository.

Definition branch_call (source : Branch) : Call :=
  CreateGitRef ("refs/heads/" ++ integration_branch time) (commit_sha repo source).

Definition catalog_call (content : string) : Call :=
  CreateFile "catalog-info.yaml" "Add Backstage catalog entities" content
    (integration_branch time).

Definition github_readme_call : Call :=
  CreateFile ".github/README.md" "Add .github directory" "GitHub configuration files"
    (integration_branch time).

Definition workflows_readme_call : Call :=
  CreateFile ".github/workflows/README.md" "Add workflows directory"
    "GitHub Actions workflow files" (integration_branch time).

Definition workflow_call : Call :=
  CreateFile ".github/workflows/publish-backstage.yml" "Add Backstage publish workflow"
    workflow_content (integration_branch time).

Definition pull_call : Call :=
  CreatePull "Add Backstage Integration" pr_body (integration_branch time) base_branch.

Definition issue_call (pr_number : Z) : Call :=
  CreateIssue "Review and Merge Backstage Integration" (issue_body pr_number)
    ["backstage-integration"].

(** The placeholder files, by what the default branch already holds. *)
Definition directory_calls : list Call :=
  match get_contents repo ".github/workflows" with
  | Ret _ => []
  | Raise _ =>
      match get_contents repo ".github" with
      | Ret _ => [workflows_readme_call]
      | Raise _ => [github_readme_call; workflows_readme_call]
      end
  end.

(** All the calls of a run in which every call returns. *)
Definition script (source : Branch) (content : string) (pr_number : Z) : list Call :=
  ([branch_call source; catalog_call content] ++ directory_calls
     ++ [workflow_call; pull_call; issue_call pr_number])%list.

Definition starts {A} (front whole : list A) : Prop :=
  exists back, whole = (front ++ back)%list.

Lemma starts_refl {A} (l : list A) : starts l l.
Proof. exists []. now rewrite app_nil_r. Qed.

Lemma starts_nil {A} (l : list A) : starts [] l.
Proof. now exists l. Qed.

Lemma starts_cons {A} (x : A) (l l' : list A) : starts l l' -> starts (x :: l) (x :: l').
Proof. intros [back ->]. now exists back. Qed.

Lemma starts_app {A} (p l l' : list A) : starts l l' -> starts (p ++ l) (p ++ l').
Proof. intros [back ->]. exists back. now rewrite app_assoc. Qed.

Lemma ensure_workflows_directory_frames :
  frames (ensure_workflows_directory repo (integration_branch time)).
Proof. unfold ensure_workflows_directory. frames. Qed.

Lemma ensure_workflows_directory_run :
  let result := fst (run (ensure_workflows_directory repo (integration_branch time))) in
  let calls := snd (run (ensure_workflows_directory repo (integration_branch time))) in
  (result = Ret tt /\ calls = directory_calls)
  \/ ((exists e, result = Raise e) /\ starts calls directory_calls).
Proof.
  cbv zeta. unfold run, ensure_workflows_directory, directory_calls, try_exceptE, bindE,
    lift, call, ret.
  fold github_readme_call workflows_readme_call.
  destruct (get_contents repo ".github/workflows"); cbn [fst snd app]; [now left|].
  destruct (get_contents repo ".github"); cbn [fst snd app].
  - destruct (create_file repo ".github/workflows/README.md" _ _ _) as [[]|e'];
      cbn [fst snd]; [now left|].
    right. split; [eauto | apply starts_refl].
  - destruct (create_file repo ".github/README.md" _ _ _) as [[]|e']; cbn [fst snd app].
    + destruct (create_file repo ".github/workflows/README.md" _ _ _) as [[]|e'];
        cbn [fst snd]; [now left|].
      right. split; [eauto | apply starts_refl].
    + right. split; [eauto|]. now exists [workflows_readme_call].
Qed.

Lemma bindE_lift {A B} (x : outcome A) (k : A -> Eff B) (log : list Call) :
  bindE (lift x) k log
  = match x with Ret a => k a log | Raise e => (Raise e, log) end.
Proof. unfold bindE, lift. now destruct x. Qed.

Lemma bindE_call {A B} (c : Call) (x : outcome A) (k : A -> Eff B) (log : list Call) :
  bindE (call c x) k log
  = match x with
    | Ret a => k a (log ++ [c])%list
    | Raise e => (Raise e, (log ++ [c])%list)
    end.
Proof. unfold bindE, call. now destruct x. Qed.

Lemma bindE_frames {A B} (m : Eff A) (k : A -> Eff B) (log : list Call) :
  frames m ->
  bindE m k log
  = match fst (run m) with
    | Ret a => k a (log ++ snd (run m))%list
    | Raise e => (Raise e, (log ++ snd (run m))%list)
    end.
Proof. intros Hm. unfold bindE, run. rewrite (Hm log). now destruct (fst (m [])). Qed.

Hypothesis repo_found : get_repo h repo_name = Ret repo.

(** The calls of [create_pr_and_issue] are a front part of the script: the
    branch, the catalog file, the placeholders that are needed, the
    workflow file, the pull request, the issue that quotes its number.
    The run returns exactly when the whole script was issued and every call
    returned; otherwise it raises and what was done stays done. *)
Lemma create_pr_and_issue_run :
  let result := fst (run (create_pr_and_issue yaml_dump time now h repo_name)) in
  let calls := snd (run (create_pr_and_issue yaml_dump time now h repo_name)) in
  (exists e, result = Raise e /\ calls = [])
  \/ exists source entities,
       get_branch repo base_branch = Ret source
       /\ (create_catalog_entities yaml_dump now h repo_name repo_name = Ret entities
           \/ calls = [branch_call source])
       /\ let content := join (newline ++ "---" ++ newline) entities in
          ((exists e, result = Raise e)
           /\ (forall n, starts calls (script source content n))
           /\ ~ In pull_call calls)
          \/ (exists pr,
                create_pull repo "Add Backstage Integration" pr_body
                  (integration_branch time) base_branch = Ret pr
                /\ calls = script source content (number pr)
                /\ match create_issue repo "Review and Merge Backstage Integration"
                           (issue_body (number pr)) ["backstage-integration"] with
                   | Ret issue => result = Ret (pr, issue)
                   | Raise e => result = Raise e
                   end)
          \/ ((exists e, result = Raise e)
              /\ exists n, calls = removelast (script source content n)).
Proof.
  cbv zeta. unfold run, create_pr_and_issue.
  rewrite bindE_lift, repo_found. cbv beta iota zeta.
  rewrite bindE_lift.
  destruct (get_branch repo base_branch) as [source|e]; [|left; exists e; now split].
  right. exists source.
  rewrite bindE_call. cbn [app]. fold (branch_call source).
  destruct (create_git_ref repo ("refs/heads/" ++ integration_branch time)
              (commit_sha repo source)) as [[]|e].
  2:{ exists []. split; [reflexivity|]. split; [now right|]. left. cbn [fst snd].
      split; [eauto|]. split.
      - intros n. apply starts_cons, starts_nil.
      - intros [H|[]]. discriminate. }
  rewrite bindE_lift.
  destruct (create_catalog_entities yaml_dump now h repo_name repo_name) as [entities|e].
  2:{ exists []. split; [reflexivity|]. split; [now right|]. left. cbn [fst snd].
      split; [eauto|]. split.
      - intros n. apply starts_cons, starts_nil.
      - intros [H|[]]. discriminate. }
  exists entities. split; [reflexivity|]. split; [now left|]. cbv zeta.
  set (content := join (newline ++ "---" ++ newline) entities).
  rewrite bindE_call. cbn [app]. fold (catalog_call content).
  destruct (create_file repo "catalog-info.yaml" "Add Backstage catalog entities"
              content (integration_branch time)) as [[]|e].
  2:{ left. cbn [fst snd]. split; [eauto|]. split.
      - intros n. do 2 apply starts_cons. apply starts_nil.
      - intros [H|[H|[]]]; discriminate. }
  rewrite (bindE_frames _ _ _ ensure_workflows_directory_frames).
  pose proof ensure_workflows_directory_run as Hdir. cbv zeta in Hdir.
  destruct (run (ensure_workflows_directory repo (integration_branch time)))
    as [[[]|e] dirs]; cbn [fst snd] in *.
  2:{ destruct Hdir as [[H _] | [_ Hst]]; [discriminate|].
      left. split; [eauto|]. split.
      - intros n. unfold script. apply (starts_app [_; _]).
        destruct Hst as [back ->]. exists (back ++ [workflow_call; pull_call; issue_call n])%list.
        now rewrite app_assoc.
      - intros Hin. apply in_app_or in Hin. destruct Hin as [[H|[H|[]]] | Hin];
          try discriminate.
        destruct Hst as [back Hb]. assert (Hin' : In pull_call directory_calls)
          by (rewrite Hb; apply in_or_app; now left).
        unfold directory_calls in Hin'.
        destruct (get_contents repo ".github/workflows"); [destruct Hin'|].
        destruct (get_contents repo ".github"); simpl in Hin'; intuition discriminate. }
  destruct Hdir as [[_ ->] | [[e He] _]]; [|discriminate].
  rewrite bindE_call. fold workflow_call.
  destruct (create_file repo ".github/workflows/publish-backstage.yml"
              "Add Backstage publish workflow" workflow_content
              (integration_branch time)) as [[]|e].
  2:{ left. cbn [fst snd]. split; [eauto|]. split.
      - intros n. unfold script. rewrite <- app_assoc. apply (starts_app [_; _]).
        apply starts_app. apply starts_cons, starts_nil.
      - intros Hin. rewrite <- app_assoc in Hin.
        apply in_app_or in Hin. destruct Hin as [[H|[H|[]]] | Hin]; try discriminate.
        apply in_app_or in Hin. destruct Hin as [Hin | [H|[]]]; [|discriminate].
        unfold directory_calls in Hin.
        destruct (get_contents repo ".github/workflows"); [destruct Hin|].
        destruct (get_contents repo ".github"); simpl in Hin; intuition discriminate. }
  rewrite bindE_call. fold pull_call.
  destruct (create_pull repo "Add Backstage Integration" pr_body
              (integration_branch time) base_branch) as [pr|e] eqn:Hpull.
  2:{ right. right. cbn [fst snd]. split; [eauto|]. exists 0. unfold script.
      change ([workflow_call; pull_call; issue_call 0])
        with ([workflow_call; pull_call] ++ [issue_call 0])%list.
      rewrite !app_assoc. rewrite removelast_last.
      rewrite <- !app_assoc. reflexivity. }
  right. left. exists pr. split; [reflexivity|].
  rewrite bindE_call. fold (issue_call (number pr)).
  destruct (create_issue repo "Review and Merge Backstage Integration"
              (issue_body (number pr)) ["backstage-integration"]);
    cbn [fst snd ret]; unfold ret, script; cbn [fst snd];
    (split; [|reflexivity]); rewrite <- !app_assoc; reflexivity.
Qed.

End CreatePr.

(** What a call of the onboarding may touch: the new branch, a file on
    it, a pull request from it into the base branch, an issue. *)
Definition on_integration_branch (branch : string) (c : Call) : Prop :=
  match c with
  | CreateGitRef ref _ => ref = "refs/heads/" ++ branch
  | CreateFile _ _ _ b => b = branch
  | CreatePull _ _ head base => head = branch /\ base = BackstageAutomation.base_branch
  | CreateIssue _ _ labels => labels = ["backstage-integration"]
  | _ => False
  end.

Lemma script_on_integration_branch (time : Z) (repo : RemoteRepository)
  (source : Branch) (content : string) (n : Z) :
  Forall (on_integration_branch (integration_branch time))
    (script time repo source content n).
Proof.
  unfold script, directory_calls.
  destruct (get_contents repo ".github/workflows");
    [|destruct (get_contents repo ".github")];
    repeat constructor.
Qed.

Lemma Forall_starts {A} (P : A -> Prop) (front whole : list A) :
  starts front whole -> Forall P whole -> Forall P front.
Proof. intros [back ->] H. now apply Forall_app in H. Qed.

Lemma starts_removelast {A} (l : list A) : starts (removelast l) l.
Proof.
  destruct l as [|x l] using rev_ind; [apply starts_nil|].
  rewrite removelast_last. now exists [x].
Qed.

(** Whatever the repository answers, the calls of [create_pr_and_issue]
    are the script cut somewhere: they come in the script's order, with
    none left out before the last one issued. Every file goes to the new
    branch, which is never the base branch; the base branch appears only
    as the base of the pull request; and the pull request is not asked for
    before the catalog file and the workflow file have been committed. *)
Theorem create_pr_and_issue_calls (yaml_dump : PyVal -> string) (time : Z)
  (now : datetime) (h : OrganizationHandle) (repo_name : string)
  (repo : RemoteRepository) :
  get_repo h repo_name = Ret repo ->
  let calls := snd (run (create_pr_and_issue yaml_dump time now h repo_name)) in
  (calls = [] \/ exists source content n,
                   starts calls (script time repo source content n))
  /\ Forall (on_integration_branch (integration_branch time)) calls
  /\ integration_branch time <> BackstageAutomation.base_branch
  /\ (In (pull_call time) calls ->
      exists content, In (catalog_call time content) calls /\ In (workflow_call time) calls).
Proof.
  intros Hr. cbv zeta.
  pose proof (create_pr_and_issue_run yaml_dump time now h repo_name repo Hr) as H.
  cbv zeta in H.
  set (calls := snd (run (create_pr_and_issue yaml_dump time now h repo_name))) in *.
  assert (Hscript : calls = [] \/ exists source content n,
                       starts calls (script time repo source content n)
                       /\ (In (pull_call time) calls ->
                           calls = script time repo source content n
                           \/ calls = removelast (script time repo source content n))).
  { destruct H as [(e & _ & ->) | (source & entities & _ & _ & H)]; [now left|].
    right. exists source, (join (newline ++ "---" ++ newline) entities).
    destruct H as [(_ & Hst & Hno) | [(pr & _ & -> & _) | (_ & n & ->)]].
    - exists 0. split; [apply Hst | contradiction].
    - exists (number pr). split; [apply starts_refl | now left].
    - exists n. split; [apply starts_removelast | now right]. }
  split; [|split; [|split]].
  - destruct Hscript as [-> | (s & c & n & Hst & _)]; [now left | right; eauto].
  - destruct Hscript as [-> | (s & c & n & Hst & _)]; [constructor|].
    eapply Forall_starts; [exact Hst | apply script_on_integration_branch].
  - unfold integration_branch, BackstageAutomation.base_branch. simpl. discriminate.
  - intros Hin. destruct Hscript as [Hnil | (s & c & n & _ & Hfull)];
      [rewrite Hnil in Hin; destruct Hin|].
    exists c. destruct (Hfull Hin) as [-> | ->].
    + unfold script. split.
      * right. now left.
      * apply in_or_app. right. apply in_or_app. right. now left.
    + unfold script.
      change ([workflow_call time; pull_call time; issue_call n])
        with ([workflow_call time; pull_call time] ++ [issue_call n])%list.
      rewrite !app_assoc, removelast_last. split.
      * apply in_or_app. left. apply in_or_app. left. right. now left.
      * apply in_or_app. right. now left.
Qed.

(** When [create_pr_and_issue] returns, it has issued the whole script
    and nothing else, the pull request it returns is the one the
    repository answered with, from the new branch into the base branch,
    and the issue it returns quotes that pull request's number. *)
Theorem create_pr_and_issue_returns (yaml_dump : PyVal -> string) (time : Z)
  (now : datetime) (h : OrganizationHandle) (repo_name : string)
  (repo : RemoteRepository) (pr : PullRequest) (issue : Issue) :
  get_repo h repo_name = Ret repo ->
  fst (run (create_pr_and_issue yaml_dump time now h repo_name)) = Ret (pr, issue) ->
  exists source entities,
    get_branch repo BackstageAutomation.base_branch = Ret source
    /\ create_catalog_entities yaml_dump now h repo_name repo_name = Ret entities
    /\ snd (run (create_pr_and_issue yaml_dump time now h repo_name))
       = script time repo source (join (newline ++ "---" ++ newline) entities) (number pr)
    /\ create_pull repo "Add Backstage Integration" pr_body (integration_branch time)
         BackstageAutomation.base_branch = Ret pr
    /\ create_issue repo "Review and Merge Backstage Integration"
         (issue_body (number pr)) ["backstage-integration"] = Ret issue.
Proof.
  intros Hr Hres.
  pose proof (create_pr_and_issue_run yaml_dump time now h repo_name repo Hr) as H.
  cbv zeta in H. rewrite Hres in H.
  destruct H as [(e & He & _) | (source & entities & Hb & Hent & H)]; [discriminate|].
  exists source, entities.
  destruct H as [((e & He) & _) | [(pr' & Hpull & Hcalls & Hissue) | ((e & He) & _)]];
    try discriminate.
  destruct (create_issue repo _ (issue_body (number pr')) _) as [issue'|e] eqn:Hi;
    [|discriminate].
  injection Hissue as <- <-.
  destruct Hent as [Hent | Hone].
  - repeat split; assumption.
  - rewrite Hcalls in Hone. unfold script in Hone. discriminate.
Qed.

(** An onboarding run against a repository that accepts every write. *)
Definition legacy_handle : OrganizationHandle :=
  handle_of [writable (Fixtures.plain_repo "legacy" ["README.md"])].

Definition any_yaml (v : PyVal) : string :=
  match v with
  | PDict ((_, _) :: (_, PStr kind) :: _) => "kind: " ++ kind
  | _ => ""
  end.


Lemma create_pr_and_issue_calls_witness :
  Forall (on_integration_branch "backstage-integration-1700000000")
    (snd (run (create_pr_and_issue any_yaml 1700000000 0 legacy_handle "legacy")))
  /\ List.length
       (snd (run (create_pr_and_issue any_yaml 1700000000 0 legacy_handle "legacy")))
     = 7%nat.
Proof.
  split; [|reflexivity].
  apply (create_pr_and_issue_calls any_yaml 1700000000 0 legacy_handle "legacy"
           (writable (Fixtures.plain_repo "legacy" ["README.md"])) eq_refl).
Defined.

Lemma create_pr_and_issue_returns_witness :
  exists source entities,
    get_branch (Fixtures.plain_repo "legacy" ["README.md"]) "main" = Ret source
    /\ create_catalog_entities any_yaml 0 legacy_handle "legacy" "legacy" = Ret entities
    /\ snd (run (create_pr_and_issue any_yaml 1700000000 0 legacy_handle "legacy"))
       = script 1700000000 (writable (Fixtures.plain_repo "legacy" ["README.md"])) source
           (join (newline ++ "---" ++ newline) entities) 12
    /\ create_pull (writable (Fixtures.plain_repo "legacy" ["README.md"]))
         "Add Backstage Integration" pr_body "backstage-integration-1700000000" "main"
       = Ret {| number := 12; head_ref := "backstage-integration-1700000000" |}
    /\ create_issue (writable (Fixtures.plain_repo "legacy" ["README.md"]))
         "Review and Merge Backstage Integration" (issue_body 12)
         ["backstage-integration"]
       = Ret {| issue_number := 13 |}.
Proof.
  apply (create_pr_and_issue_returns any_yaml 1700000000 0 legacy_handle "legacy"
           (writable (Fixtures.plain_repo "legacy" ["README.md"]))
           {| number := 12; head_ref := "backstage-integration-1700000000" |}
           {| issue_number := 13 |} eq_refl).
  reflexivity.
Defined.

(** The pull request is reached when the stream is read, no page failing
    before it. *)
Inductive reaches : PageStream PullRequest -> PullRequest -> Prop :=
| reaches_here pr rest : reaches (Item pr rest) pr
| reaches_later q rest pr : reaches rest pr -> reaches (Item q rest) pr.

Lemma integration_branch_marked (time : Z) (pr : PullRequest) :
  head_ref pr = integration_branch time -> marked pr = true.
Proof.
  intros H. unfold marked. rewrite H. apply contains_prefix.
  unfold integration_branch.
  change ("backstage-integration-" ++ str_int time)
    with ("backstage-integration" ++ String "-" (str_int time)).
  apply prefix_app.
Qed.

Lemma reaches_first_marked (prs : PageStream PullRequest) (pr : PullRequest) :
  reaches prs pr -> marked pr = true -> exists pr', first_marked prs pr'.
Proof.
  induction 1 as [pr rest | q rest pr _ IH]; intros Hm.
  - exists pr. now constructor.
  - destruct (marked q) eqn:Hq.
    + exists q. now constructor.
    + destruct (IH Hm) as [pr' H']. exists pr'. now constructor.
Qed.

(** The branch name [create_pr_and_issue] gives its pull request carries
    the marker the status report looks for: a repository without a
    descriptor on its default branch whose open pull requests include one
    from such a branch is counted and listed as In Progress. *)
Theorem created_pull_request_in_progress (time : Z) (repo : Repository)
  (prs : PaginatedList PullRequest) (pr : PullRequest) (e : Exception)
  (c : Counters) (report : list string) :
  get_contents repo "catalog-info.yaml" = Raise e ->
  get_pulls repo = Ret prs -> reaches (iter prs) pr ->
  head_ref pr = integration_branch time ->
  exists pr',
    first_marked (iter prs) pr'
    /\ status_step (c, report) repo
       = (count_in_progress c,
          append report ("🔄 " ++ name repo ++ ": In Progress (PR #"
                           ++ str_int (number pr') ++ ")")).
Proof.
  intros Hd Hp Hr Hh.
  destruct (reaches_first_marked _ _ Hr (integration_branch_marked time pr Hh))
    as [pr' Hf].
  exists pr'. split; [exact Hf|].
  unfold status_step. rewrite Hd, Hp. cbn [bind].
  apply find_integration_pr_some in Hf. now rewrite Hf.
Qed.

Lemma created_pull_request_in_progress_witness :
  exists pr',
    first_marked (Item {| number := 7; head_ref := "fix-typo" |} (Item integration_pr Done))
      pr'
    /\ status_step (zero_counters, []) repo_in_progress
       = (count_in_progress zero_counters,
          append [] ("🔄 " ++ name repo_in_progress ++ ": In Progress (PR #"
                       ++ str_int (number pr') ++ ")")).
Proof.
  apply (created_pull_request_in_progress 1700000000 repo_in_progress
           {| totalCount := Ret 2; next := Raise (Failure "not an iterator");
              iter := Item {| number := 7; head_ref := "fix-typo" |}
                        (Item integration_pr Done) |}
           integration_pr (NotFound "404 Not Found") zero_counters []);
    try reflexivity.
  apply reaches_later, reaches_here.
Defined.

(** ** [main] *)

Section MainLoop.

Import Main.

Variable yaml_dump : PyVal -> string.
Variable connect : string -> option string -> string -> outcome OrganizationHandle.
Variable write_text : string -> string -> outcome unit.
Variables (clock : nat -> Z) (now : nat -> datetime).
Variable h : OrganizationHandle.

Definition tally (c : RunCounters) : Z := processed c + skipped c + failed c.

Lemma process_repository_step (i : nat) (c : RunCounters) (r : RemoteRepository)
  (log : list Call) :
  exists c',
    fst (process_repository yaml_dump clock now h i c r log) = Ret c'
    /\ tally c' = tally c + 1
    /\ skipped c' = skipped c + (if has_descriptor r then 1 else 0)
    /\ (has_descriptor r = true ->
        snd (process_repository yaml_dump clock now h i c r log) = log).
Proof.
  unfold process_repository, try_exceptE, has_descriptor, tally.
  destruct (get_contents r "catalog-info.yaml") as [d|e].
  - eexists. cbn [fst snd ret]. repeat split; cbn [processed skipped failed]; lia.
  - unfold bindE.
    destruct (create_pr_and_issue yaml_dump (clock i) (now i) h (name r) log)
      as [[pi|e'] log']; eexists; cbn [fst snd ret];
      (split; [reflexivity|]); (split; [cbn [processed skipped failed]; lia|]);
      (split; [cbn [processed skipped failed]; lia | discriminate]).
Qed.

Lemma process_all_steps (listing : PageStream RemoteRepository) (i : nat)
  (c : RunCounters) (log : list Call) :
  match broken listing with
  | None =>
      exists c',
        fst (process_all yaml_dump clock now h i c listing log) = Ret c'
        /\ tally c' = tally c + len (yielded listing)
        /\ skipped c' = skipped c + count has_descriptor (map repo (yielded listing))
  | Some e => fst (process_all yaml_dump clock now h i c listing log) = Raise e
  end
  /\ snd (process_all yaml_dump clock now h i c listing log)
     = snd (process_all yaml_dump clock now h i c (pages (yielded listing)) log)
  /\ (Forall (fun r : RemoteRepository => has_descriptor r = true) (yielded listing) ->
      snd (process_all yaml_dump clock now h i c listing log) = log).
Proof.
  revert i c log. induction listing as [|r rest IH|e]; intros i c log.
  - cbn [broken yielded pages process_all]. split; [|split; reflexivity].
    exists c. unfold count, len. cbn. repeat split; lia.
  - cbn [broken yielded pages process_all map]. unfold bindE.
    destruct (process_repository_step i c r log) as (c1 & H1 & Ht1 & Hs1 & Hl1).
    destruct (process_repository yaml_dump clock now h i c r log) as [res log1].
    cbn [fst snd] in *. subst res.
    destruct (IH (S i) c1 log1) as (Hres & Hcalls & Hquiet).
    split; [|split].
    + destruct (broken rest) as [e|]; [exact Hres|].
      destruct Hres as (c' & H' & Ht' & Hs'). exists c'. split; [exact H'|].
      rewrite count_cons.
      replace (len (r :: yielded rest)) with (1 + len (yielded rest))
        by (unfold len; simpl List.length; lia).
      split; lia.
    + exact Hcalls.
    + intros Hall. inversion Hall as [|? ? Hr Hrest]; subst.
      rewrite (Hquiet Hrest). now apply Hl1.
  - cbn [broken yielded pages process_all]. unfold throw, ret. cbn [fst snd].
    repeat split.
Qed.

(** The loop of [main] raises only when a page of the listing fails, and
    then with the exception of that page: no repository makes it raise.
    When the listing ends, the loop ends with as many repositories
    processed, skipped or failed as the listing yielded, and those skipped
    are those whose descriptor lookup returns. Whether the listing ends or
    fails, the calls made are those for the repositories it yielded, so
    what was done before a failed page stays done; and a run over
    repositories that all have a descriptor issues no call. *)
Theorem process_all_counters (listing : PageStream RemoteRepository) :
  let start := {| processed := 0; skipped := 0; failed := 0 |} in
  let out := run (process_all yaml_dump clock now h 0 start listing) in
  match broken listing with
  | None =>
      exists c,
        fst out = Ret c
        /\ processed c + skipped c + failed c = len (yielded listing)
        /\ skipped c = count has_descriptor (map repo (yielded listing))
  | Some e => fst out = Raise e
  end
  /\ snd out
     = snd (run (process_all yaml_dump clock now h 0 start (pages (yielded listing))))
  /\ (Forall (fun r : RemoteRepository => has_descriptor r = true) (yielded listing) ->
      snd out = []).
Proof.
  cbv zeta. unfold run.
  destruct (process_all_steps listing 0 {| processed := 0; skipped := 0; failed := 0 |} [])
    as (Hres & Hcalls & Hquiet).
  split; [|split; assumption].
  destruct (broken listing) as [e|]; [exact Hres|].
  destruct Hres as (c & H & Ht & Hs). exists c.
  unfold tally in Ht. cbn [processed skipped failed] in *.
  repeat split; try assumption; lia.
Qed.

(** [main] stops at the first of [GITHUB_TOKEN], [GITHUB_ORG] and
    [BACKSTAGE_URL] that is missing or empty, before it connects, calls or
    writes anything. *)
Theorem main_requires_environment (env : Environment) (stamp : string) :
  (nonempty (env "GITHUB_TOKEN") = false ->
   run (main yaml_dump connect write_text clock now env stamp)
   = (Raise (Failure "GITHUB_TOKEN environment variable is required"), []))
  /\ (nonempty (env "GITHUB_TOKEN") = true -> nonempty (env "GITHUB_ORG") = false ->
      run (main yaml_dump connect write_text clock now env stamp)
      = (Raise (Failure "GITHUB_ORG environment variable is required"), []))
  /\ (nonempty (env "GITHUB_TOKEN") = true -> nonempty (env "GITHUB_ORG") = true ->
      nonempty (env "BACKSTAGE_URL") = false ->
      run (main yaml_dump connect write_text clock now env stamp)
      = (Raise (Failure "BACKSTAGE_URL environment variable is required"), [])).
Proof.
  unfold run, main, required, bindE, throw, ret.
  repeat split; intros;
    destruct (env "GITHUB_TOKEN") as [[|? ?]|]; try discriminate; try reflexivity;
    destruct (env "GITHUB_ORG") as [[|? ?]|]; try discriminate; try reflexivity;
    destruct (env "BACKSTAGE_URL") as [[|? ?]|]; try discriminate; reflexivity.
Qed.

(** The environment has the three required variables. *)
Definition configured (env : Environment) : Prop :=
  nonempty (env "GITHUB_TOKEN") = true
  /\ nonempty (env "GITHUB_ORG") = true
  /\ nonempty (env "BACKSTAGE_URL") = true.

Lemma main_configured (env : Environment) (stamp : string) :
  configured env ->
  exists token org_name,
    env "GITHUB_TOKEN" = Some token /\ env "GITHUB_ORG" = Some org_name
    /\ run (main yaml_dump connect write_text clock now env stamp)
       = match init connect token org_name (env "GITHUB_API_URL") with
         | Ret handle =>
             run_automation yaml_dump write_text clock now stamp org_name
               (String.eqb (lower (env_get env "CHECK_ONLY" "false")) "true")
               (env "CANARY_REPO") handle []
         | Raise e => (Raise e, [])
         end.
Proof.
  intros (Ht & Ho & Hb). unfold run, main, required, bindE, lift, ret.
  destruct (env "GITHUB_TOKEN") as [[|a token]|]; try discriminate.
  destruct (env "GITHUB_ORG") as [[|b org_name]|]; try discriminate.
  destruct (env "BACKSTAGE_URL") as [[|c url]|]; try discriminate.
  do 2 eexists. split; [reflexivity|]. split; [reflexivity|].
  now destruct (init connect _ _ _).
Qed.

(** With [CHECK_ONLY] set to [true] in any letter case, [main] writes no
    repository, whatever its state. When the listing of the repositories
    ends, it writes the status report of the organisation to
    [status_report.txt], does nothing else, and ends as that writing ends;
    when a page of the listing fails, it raises the exception of that page
    and writes nothing. *)
Theorem main_check_only (env : Environment) (stamp token org_name : string) :
  configured env ->
  env "GITHUB_TOKEN" = Some token -> env "GITHUB_ORG" = Some org_name ->
  lower (env_get env "CHECK_ONLY" "false") = "true" ->
  init connect token org_name (env "GITHUB_API_URL") = Ret h ->
  let report := fst (generate_status_report (organization h) stamp []) in
  run (main yaml_dump connect write_text clock now env stamp)
  = match broken (handle_listing h) with
    | None =>
        (write_text "status_report.txt" report, [WriteTextFile "status_report.txt" report])
    | Some e => (Raise e, [])
    end.
Proof.
  intros Hc Ht Ho Hcheck Hinit. cbv zeta.
  destruct (main_configured env stamp Hc) as (t & o & Ht' & Ho' & ->).
  rewrite Ht in Ht'. rewrite Ho in Ho'. injection Ht' as <-. injection Ho' as <-.
  rewrite Hinit, Hcheck. unfold run_automation. cbn [String.eqb Ascii.eqb Bool.eqb].
  now destruct (broken (handle_listing h)).
Qed.

(** In canary mode, a repository that cannot be found ends the run
    without an exception and without the summary file. *)
Theorem main_canary_not_found (env : Environment) (stamp token org_name canary : string)
  (e : Exception) :
  configured env ->
  env "GITHUB_TOKEN" = Some token -> env "GITHUB_ORG" = Some org_name ->
  lower (env_get env "CHECK_ONLY" "false") <> "true" ->
  env "CANARY_REPO" = Some canary -> canary <> "" ->
  init connect token org_name (env "GITHUB_API_URL") = Ret h ->
  get_repo h canary = Raise e ->
  run (main yaml_dump connect write_text clock now env stamp) = (Ret tt, []).
Proof.
  intros Hc Ht Ho Hcheck Hcan Hne Hinit Hrepo.
  destruct (main_configured env stamp Hc) as (t & o & Ht' & Ho' & ->).
  rewrite Ht in Ht'. rewrite Ho in Ho'. injection Ht' as <-. injection Ho' as <-.
  rewrite Hinit, Hcan. unfold run_automation.
  destruct (String.eqb_spec (lower (env_get env "CHECK_ONLY" "false")) "true");
    [contradiction|].
  destruct canary as [|a b]; [contradiction|]. now rewrite Hrepo.
Qed.

End MainLoop.

Definition configured_env (check_only : string) (canary : option string) : Environment :=
  fun key =>
    if String.eqb key "GITHUB_TOKEN" then Some "ghp_0123456789"
    else if String.eqb key "GITHUB_ORG" then Some "acme"
    else if String.eqb key "BACKSTAGE_URL" then Some "https://backstage.acme.example"
    else if String.eqb key "CHECK_ONLY" then Some check_only
    else if String.eqb key "CANARY_REPO" then canary
    else None.

Definition connect_legacy (token : string) (base_url : option string) (org_name : string)
  : outcome OrganizationHandle :=
  Ret legacy_handle.

Definition write_ok (path content : string) : outcome unit := Ret tt.

(** An organisation whose listing yields one repository, then fails. *)
Definition failing_handle : OrganizationHandle :=
  {| handle_login := "acme";
     handle_user_teams := fun _ => Ret Fixtures.no_pages;
     handle_listing :=
       Item (writable (Fixtures.plain_repo "legacy" ["README.md"]))
         (Broken (Failure "502 Bad Gateway"));
     get_repo := get_repo legacy_handle |}.

Definition connect_failing (token : string) (base_url : option string) (org_name : string)
  : outcome OrganizationHandle :=
  Ret failing_handle.

Lemma main_check_only_witness :
  run (Main.main any_yaml connect_legacy write_ok (fun _ => 1700000000) (fun _ => 0)
         (configured_env "True" None) "2024-01-01 00:00 UTC")
  = (Ret tt,
     [ WriteTextFile "status_report.txt"
         (fst (generate_status_report (organization legacy_handle)
                 "2024-01-01 00:00 UTC" [])) ])
  /\ run (Main.main any_yaml connect_failing write_ok (fun _ => 1700000000) (fun _ => 0)
            (configured_env "True" None) "2024-01-01 00:00 UTC")
     = (Raise (Failure "502 Bad Gateway"), []).
Proof.
  split.
  - apply (main_check_only any_yaml connect_legacy write_ok (fun _ => 1700000000)
             (fun _ => 0) legacy_handle (configured_env "True" None)
             "2024-01-01 00:00 UTC" "ghp_0123456789" "acme");
      try reflexivity.
    repeat split.
  - apply (main_check_only any_yaml connect_failing write_ok (fun _ => 1700000000)
             (fun _ => 0) failing_handle (configured_env "True" None)
             "2024-01-01 00:00 UTC" "ghp_0123456789" "acme");
      try reflexivity.
    repeat split.
Defined.

Lemma main_canary_not_found_witness :
  run (Main.main any_yaml connect_legacy write_ok (fun _ => 1700000000) (fun _ => 0)
         (configured_env "false" (Some "no-such-repo")) "2024-01-01 00:00 UTC")
  = (Ret tt, []).
Proof.
  apply (main_canary_not_found any_yaml connect_legacy write_ok (fun _ => 1700000000)
           (fun _ => 0) legacy_handle (configured_env "false" (Some "no-such-repo"))
           "2024-01-01 00:00 UTC" "ghp_0123456789" "acme" "no-such-repo"
           (NotFound "404 Not Found"));
    try reflexivity; try discriminate.
  repeat split.
Defined.

(** A full run over [legacy_handle]: one repository processed, seven
    calls to it, then the summary. *)
Example main_full_organization :
  let out := run (Main.main any_yaml connect_legacy write_ok (fun _ => 1700000000)
                    (fun _ => 0) (configured_env "false" None) "2024-01-01 00:00 UTC") in
  fst out = Ret tt
  /\ List.length (snd out) = 8%nat
  /\ last (snd out) (WriteTextFile "" "")
     = WriteTextFile "automation_summary.txt"
         (join newline
            [ "## Automation Summary (2024-01-01 00:00 UTC)";
              "### Mode: Full Organization";
              "- Organization: acme";
              "- Processed: 1 repositories";
              "- Skipped: 0 repositories (already onboarded)";
              "- Failed: 0 repositories" ]).
Proof. cbv zeta. repeat split. Qed.

(** A full run over [failing_handle]: the repository listed before the
    failed page is processed, then the exception leaves [main] and no
    summary is written. *)
Example main_failed_listing :
  let out := run (Main.main any_yaml connect_failing write_ok (fun _ => 1700000000)
                    (fun _ => 0) (configured_env "false" None) "2024-01-01 00:00 UTC") in
  fst out = Raise (Failure "502 Bad Gateway")
  /\ snd out = snd (run (create_pr_and_issue any_yaml 1700000000 0 failing_handle "legacy"))
  /\ List.length (snd out) = 7%nat.
Proof. cbv zeta. repeat split. Qed.

(** * Properties of the dashboard's status table *)

Import App.

Lemma mark_in_progress_find (prs : PageStream PullRequest) (row : StatusRow) :
  mark_in_progress prs row
  = match find_integration_pr prs with
    | Ret (Some pr) =>
        Ret (set_pr_status (set_status row "In Progress")
               ("PR #" ++ str_int (number pr) ++ " Open"))
    | Ret None => Ret row
    | Raise e => Raise e
    end.
Proof.
  induction prs as [|pr rest IH|e]; simpl; try reflexivity.
  destruct (contains "backstage-integration" (head_ref pr)); [reflexivity | exact IH].
Qed.

Lemma repo_status_fields (strftime : datetime -> string) (r : RemoteRepository) :
  row_status (repo_status strftime r)
  = match integration_pr_lookup r with
    | Raise e => "Error: " ++ str_exn e
    | Ret (Some _) => "In Progress"
    | Ret None => if has_descriptor r then "Onboarded" else "Not Onboarded"
    end
  /\ row_has_catalog_info (repo_status strftime r)
     = (if has_descriptor r then "Yes" else "No").
Proof.
  unfold repo_status, integration_pr_lookup, has_descriptor.
  destruct (get_pulls r) as [prs|e]; cbn [bind].
  - rewrite mark_in_progress_find.
    destruct (find_integration_pr (iter prs)) as [[pr|]|e];
      destruct (get_contents r "catalog-info.yaml"); split; reflexivity.
  - destruct (get_contents r "catalog-info.yaml"); split; reflexivity.
Qed.

(** The status the dashboard shows for a repository: an error of the
    pull-request lookup wins over everything, then a pull request from an
    integration branch, then the descriptor; the descriptor column says
    what the descriptor lookup found in all three cases. *)
Theorem dashboard_status (strftime : datetime -> string) (r : RemoteRepository) :
  row_status (repo_status strftime r)
  = match integration_pr_lookup r with
    | Raise e => "Error: " ++ str_exn e
    | Ret (Some _) => "In Progress"
    | Ret None => if has_descriptor r then "Onboarded" else "Not Onboarded"
    end
  /\ row_has_catalog_info (repo_status strftime r)
     = (if has_descriptor r then "Yes" else "No").
Proof. apply repo_status_fields. Qed.

(** The dashboard classes of a repository, by the lookups. *)
Definition shows_onboarded (r : Repository) : bool :=
  (has_descriptor r
   && match integration_pr_lookup r with Ret None => true | _ => false end)%bool.
Definition shows_in_progress (r : Repository) : bool :=
  match integration_pr_lookup r with Ret (Some _) => true | _ => false end.

Lemma status_metric_cons (status : string) (row : StatusRow) (rows : list StatusRow) :
  status_metric status (row :: rows)
  = (if String.eqb (row_status row) status then 1 else 0) + status_metric status rows.
Proof.
  unfold status_metric. simpl. destruct (String.eqb (row_status row) status);
    simpl List.length; lia.
Qed.

Lemma dashboard_metrics (strftime : datetime -> string) (repos : list RemoteRepository) :
  status_metric "Onboarded" (map (repo_status strftime) repos)
  = count shows_onboarded (map repo repos)
  /\ status_metric "In Progress" (map (repo_status strftime) repos)
     = count shows_in_progress (map repo repos)
  /\ status_metric "Not Onboarded" (map (repo_status strftime) repos)
     = count ends_not_onboarded (map repo repos).
Proof.
  induction repos as [|r rest (IH1 & IH2 & IH3)]; [repeat split|].
  cbn [map]. rewrite !status_metric_cons, !count_cons, IH1, IH2, IH3.
  destruct (repo_status_fields strftime r) as [-> _].
  unfold shows_onboarded, shows_in_progress, ends_not_onboarded.
  destruct (integration_pr_lookup r) as [[pr|]|e]; destruct (has_descriptor r);
    repeat split; reflexivity.
Qed.

Lemma count_le (p q : Repository -> bool) (repos : list Repository) :
  (forall r, p r = true -> q r = true) -> count p repos <= count q repos.
Proof.
  intros H. induction repos as [|r rest IH]; [reflexivity|].
  rewrite !count_cons. specialize (H r).
  destruct (p r), (q r); try lia; discriminate (H eq_refl).
Qed.

(** The dashboard and the status report do not count alike. A repository
    with a descriptor and an open integration pull request is Onboarded in
    the report and In Progress on the dashboard, so the dashboard never
    shows more Onboarded and never fewer In Progress than the report
    counts; the Not Onboarded numbers agree, and both cover every
    repository. *)
Theorem dashboard_against_report (strftime : datetime -> string)
  (h : OrganizationHandle) (self_status_report : list string) :
  let rows := get_repo_status strftime h in
  let c := status_counts (organization h) self_status_report in
  Z.of_nat (List.length rows) = total c
  /\ status_metric "Onboarded" rows <= onboarded c
  /\ in_progress c <= status_metric "In Progress" rows
  /\ status_metric "Not Onboarded" rows = not_onboarded c
  /\ onboarded c - status_metric "Onboarded" rows
     = count (fun r => (has_descriptor r && negb (shows_onboarded r))%bool)
         (get_repos (organization h)).
Proof.
  cbv zeta. unfold get_repo_status, status_counts.
  destruct (status_loop_counts (get_repos (organization h)) zero_counters
              self_status_report) as (Ht & Ho & Hi & Hn).
  cbv zeta in Ht, Ho, Hi, Hn. rewrite Ht, Ho, Hi, Hn.
  destruct (dashboard_metrics strftime (handle_repos h)) as (-> & -> & ->).
  cbn [organization get_repos zero_counters total onboarded in_progress not_onboarded].
  split; [|split; [|split; [|split]]].
  - unfold len. now rewrite !length_map.
  - pose proof (count_le shows_onboarded ends_onboarded (map repo (handle_repos h))) as H.
    lapply H; [lia|]. unfold shows_onboarded, ends_onboarded. intros r Hr.
    now apply andb_true_iff in Hr.
  - pose proof (count_le ends_in_progress shows_in_progress (map repo (handle_repos h)))
      as H.
    lapply H; [lia|]. unfold shows_in_progress, ends_in_progress. intros r Hr.
    now apply andb_true_iff in Hr.
  - reflexivity.
  - induction (map repo (handle_repos h)) as [|r rest IH]; [reflexivity|].
    rewrite !count_cons. unfold ends_onboarded at 1. unfold shows_onboarded at 1 3.
    destruct (has_descriptor r); destruct (integration_pr_lookup r) as [[pr|]|e];
      cbn [andb negb]; lia.
Qed.

(** A repository with a descriptor and an open integration pull
    request. *)
Definition both_repo : RemoteRepository :=
  writable
    {| name := "billing";
       html_url := "https://github.com/acme/billing";
       description := None;
       homepage := None;
       topics := [];
       archived := false;
       created_at := 0;
       pushed_at := Some 0;
       stargazers_count := 0;
       forks_count := 0;
       get_contents := Fixtures.tree ["README.md"; "catalog-info.yaml"];
       get_branch := fun _ => Fixtures.unprotected_branch;
       get_commits := Ret Fixtures.no_pages;
       get_contributors := Ret Fixtures.no_pages;
       get_pulls := Ret {| totalCount := Ret 1; next := Raise (Failure "not an iterator");
                           iter := Item integration_pr Done |} |}.

Example dashboard_and_report_disagree :
  row_status (repo_status (fun _ => "2024-01-01") both_repo) = "In Progress"
  /\ row_has_catalog_info (repo_status (fun _ => "2024-01-01") both_repo) = "Yes"
  /\ status_counts (organization (handle_of [both_repo])) []
     = {| total := 1; onboarded := 1; in_progress := 0; not_onboarded := 0 |}.
Proof. repeat split. Qed.

(** * Properties of [list_organizations] *)

Import Listing.

Lemma substring_app_l (a b : string) : substring 0 (String.length a) (a ++ b) = a.
Proof. induction a as [|c a IH]; simpl; [now destruct b | now rewrite IH]. Qed.

Lemma substring_app_r (a b : string) :
  substring (String.length a) (String.length b) (a ++ b) = b.
Proof. induction a as [|c a IH]; simpl; [apply substring_all | exact IH]. Qed.

Lemma endswith_appended (a suffix : string) : endswith (a ++ suffix) suffix = true.
Proof.
  unfold endswith. rewrite string_length_app.
  replace (String.length a + String.length suffix - String.length suffix)%nat
    with (String.length a) by lia.
  rewrite substring_app_r, String.eqb_refl.
  apply andb_true_iff. split; [apply Nat.leb_le; lia | reflexivity].
Qed.

Lemma drop_last_four_enc (org : string) : drop_last_four (org ++ ".enc") = org.
Proof.
  unfold drop_last_four. rewrite string_length_app.
  replace (String.length org + String.length ".enc" - 4)%nat with (String.length org)
    by (simpl; lia).
  apply substring_app_l.
Qed.

Lemma endswith_enc_restore (file : string) :
  endswith file ".enc" = true -> drop_last_four file ++ ".enc" = file.
Proof.
  intros H. unfold endswith in H. apply andb_true_iff in H. destruct H as [Hle Heq].
  apply Nat.leb_le in Hle. apply String.eqb_eq in Heq. simpl String.length in *.
  unfold drop_last_four.
  pose proof (substring_split file (String.length file - 4)) as Hs.
  replace (String.length file - (String.length file - 4))%nat with 4%nat in Hs by lia.
  rewrite Heq in Hs. apply Hs. lia.
Qed.

Lemma strip_prefix_app (p s : string) : strip_prefix p (p ++ s) = Some s.
Proof.
  induction p as [|c p IH]; simpl; [reflexivity|]. now rewrite Ascii.eqb_refl.
Qed.

(** No character of the string is a slash. *)
Definition plain_name (s : string) : bool :=
  all_chars (fun c => negb (Ascii.eqb c "/")) s.

Lemma first_component_plain (s : string) : plain_name s = true -> first_component s = s.
Proof.
  induction s as [|c s IH]; simpl; [reflexivity|].
  intros H. apply andb_true_iff in H. destruct H as [Hc Hs].
  apply negb_true_iff in Hc. now rewrite Hc, IH.
Qed.

Lemma plain_name_app (a b : string) :
  plain_name a = true -> plain_name b = true -> plain_name (a ++ b) = true.
Proof.
  unfold plain_name. induction a as [|c a IH]; [auto|].
  cbn [append all_chars]. intros H Hb. apply andb_true_iff in H. destruct H as [Hc Ha].
  apply andb_true_iff. split; [exact Hc | now apply IH].
Qed.

Lemma plain_name_relative (s : string) : plain_name s = true -> String.prefix "/" s = false.
Proof.
  destruct s as [|c s]; [reflexivity|].
  unfold plain_name. cbn [all_chars]. intros H. apply andb_true_iff in H.
  destruct H as [Hc _]. apply negb_true_iff, Ascii.eqb_neq in Hc.
  cbn [String.prefix]. destruct (ascii_dec "/" c) as [E|E]; [congruence | reflexivity].
Qed.

Section ListingProperties.

Import SecureStorage.

Context {L : Libraries}.

Lemma file_path_plain (storage_path org_name : string) :
  plain_name org_name = true ->
  file_path storage_path org_name = directory_prefix storage_path ++ (org_name ++ ".enc").
Proof.
  intros H. unfold file_path, path_join, directory_prefix.
  rewrite (plain_name_relative (org_name ++ ".enc"))
    by (apply plain_name_app; [exact H | reflexivity]).
  destruct (String.eqb storage_path "" || endswith storage_path "/")%bool;
    [reflexivity|]. now rewrite string_app_assoc.
Qed.

Lemma list_organizations_fold (names acc : list string) (org : string) :
  In org (fold_left (fun orgs file =>
                       if endswith file ".enc" then app orgs [drop_last_four file] else orgs)
            names acc)
  <-> In org acc
      \/ exists file, In file names /\ endswith file ".enc" = true
                      /\ org = drop_last_four file.
Proof.
  revert acc. induction names as [|n rest IH]; intros acc; simpl.
  - split; [now left | intros [H | (f & [] & _)]; exact H].
  - rewrite IH. destruct (endswith n ".enc") eqn:Hn.
    + rewrite in_app_iff. simpl. split.
      * intros [[H | [<- | []]] | (f & Hf & He & Ho)].
        -- now left.
        -- right. exists n. auto.
        -- right. exists f. auto.
      * intros [H | (f & [<- | Hf] & He & Ho)].
        -- left. now left.
        -- left. right. left. now symmetry.
        -- right. exists f. auto.
    + split.
      * intros [H | (f & Hf & He & Ho)]; [now left | right; exists f; auto].
      * intros [H | (f & [<- | Hf] & He & Ho)]; [now left | congruence |].
        right. exists f. auto.
Qed.

(** An organisation saved under a name without a slash is listed by
    [list_organizations] afterwards. *)
Theorem saved_organization_listed (storage_path : string) (nonce : Nonce)
  (fs : FileSystem) (org_name : string) (config : PyVal) :
  plain_name org_name = true ->
  In org_name
    (list_organizations storage_path
       (save_org_config storage_path nonce fs org_name config)).
Proof.
  intros H. unfold list_organizations. apply list_organizations_fold. right.
  exists (org_name ++ ".enc"). split; [|split].
  - unfold listdir. apply nodup_In. unfold save_org_config, write_file.
    cbn [flat_map fst]. rewrite (file_path_plain storage_path org_name H).
    rewrite strip_prefix_app. apply in_or_app. left.
    assert (Hplain : plain_name (org_name ++ ".enc") = true)
      by (apply plain_name_app; [exact H | reflexivity]).
    destruct (org_name ++ ".enc") as [|c rest] eqn:Hname.
    + destruct org_name; discriminate.
    + left. now apply first_component_plain.
  - apply endswith_appended.
  - symmetry. apply drop_last_four_enc.
Qed.

(** Every name [list_organizations] returns is the name, without its
    [.enc], of an entry of the storage directory that ends in [.enc]; an
    entry that does not end in [.enc] is never listed. *)
Theorem listed_organization_entry (storage_path : string) (fs : FileSystem)
  (org_name : string) :
  In org_name (list_organizations storage_path fs) <->
  In (org_name ++ ".enc") (listdir fs storage_path).
Proof.
  unfold list_organizations. rewrite list_organizations_fold. split.
  - intros [[] | (file & Hin & Hend & ->)]. now rewrite endswith_enc_restore.
  - intros Hin. right. exists (org_name ++ ".enc").
    split; [exact Hin|]. split; [apply endswith_appended|].
    symmetry. apply drop_last_four_enc.
Qed.

End ListingProperties.

Lemma saved_organization_listed_witness :
  In "acme"
    (list_organizations "/srv/secure_storage"
       (SecureStorage.save_org_config (L := plain_libraries) "/srv/secure_storage" 7%nat []
          "acme" dashboard_config)).
Proof.
  apply (saved_organization_listed (L := plain_libraries)). reflexivity.
Defined.
